(** * TAMcust backend services: transactional CRUD and authentication

    A shallow embedding of the classes [VisitorService] and [AuthService] of
    the backend services and of [sdpService]
    (backend/src/services/sdpService.ts).

    The services are asynchronous TypeScript methods that sequence calls to
    collaborators (repositories, the transaction coordinator, bcrypt,
    jsonwebtoken) and use exceptions for failure.  They are embedded as
    computations in a state-and-exception monad over a [world] that holds the
    persistent store, the units of work, the trace of collaborator calls and
    the environment's answers. *)

From Stdlib Require Import Ascii String.
From stdpp Require Import gmap strings list fin_maps.

Open Scope string_scope.
Open Scope list_scope.

(** ** Data *)

(** A JS value used in a boolean position: [null]/[undefined] is [None],
    and the empty string is falsy too. *)
Definition truthy (v : option string) : bool :=
  match v with
  | Some s => negb (String.eqb s "")
  | None => false
  end.

(** A persisted Visitor row: the generated identifier and the attribute set. *)
Record record := Record_ {
  rec_id : nat;
  rec_attrs : gmap string string;
}.

Record user := User {
  user_id : nat;
  user_email : string;
  user_firstName : string;
  emailVerified : bool;
}.

(** The errors the services see.  [Error400] is built from the language and
    the message key (and the substitution arguments) it is constructed with;
    [UniqueConstraintError] is the persistence layer's uniqueness violation on
    the field [path]; [JsonWebTokenError] is what token verification fails
    with; [DatabaseError] stands for every other failure. *)
Inductive error :=
| Error400 (language : string) (messageCode : string) (args : list string)
| Error404 (language : string)
| UniqueConstraintError (path : string)
| JsonWebTokenError (msg : string)
| DatabaseError (msg : string).

(** The options bag of a request. *)
Record options := Options {
  language : string;
  currentUser : option user;
  transaction : option nat;
  bypassPermissionValidation : bool;
}.

(** [{...options, transaction}] *)
Definition with_transaction (o : options) (t : nat) : options :=
  {| language := language o; currentUser := currentUser o;
     transaction := Some t;
     bypassPermissionValidation := bypassPermissionValidation o |}.

(** [{...options, currentUser}] *)
Definition with_currentUser (o : options) (u : user) : options :=
  {| language := language o; currentUser := Some u;
     transaction := transaction o;
     bypassPermissionValidation := bypassPermissionValidation o |}.

(** [{...options, bypassPermissionValidation: true}] *)
Definition with_bypass (o : options) : options :=
  {| language := language o; currentUser := currentUser o;
     transaction := transaction o;
     bypassPermissionValidation := true |}.

(** ** The persistent store and units of work *)

(** The Visitor table: the rows by identifier. *)
Abbreviation store := (gmap nat (gmap string string)).

Inductive write :=
| PutVisitor (id : nat) (attrs : gmap string string)
| DelVisitor (id : nat).

Definition apply_write (s : store) (x : write) : store :=
  match x with
  | PutVisitor id a => <[id := a]> s
  | DelVisitor id => delete id s
  end.

Definition apply_writes (s : store) (ws : list write) : store :=
  foldl apply_write s ws.

Inductive tx_state := TxOpen | TxCommitted | TxRolledBack.

Record txn := Txn {
  tx_status : tx_state;
  tx_writes : list write;
}.

(** ** Collaborator calls *)

(** Every call that leaves the services, with its arguments.  The world's
    [oracle] can make a call fail, and the [trace] records the calls made. *)
Inductive call :=
| VisitorRepository_create (data : gmap string string)
| VisitorRepository_update (id : nat) (data : gmap string string)
| VisitorRepository_destroy (id : nat)
| VisitorRepository_count (importHash : string)
| SequelizeRepository_commitTransaction
| UserRepository_findByEmail (email : string)
| UserRepository_findPassword (id : nat)
| UserRepository_findById (id : option nat)
| UserRepository_updatePassword (id : nat) (hashed : string)
| UserRepository_createFromAuth (firstName hashed email : string)
| UserRepository_generateEmailVerificationToken (email : string)
| TenantRepository_findById (tenantId : option string)
| tenantSubdomain_frontendUrl (tenant : string)
| EmailSender_sendTo (template link email : string)
| TenantUserRepository_acceptInvitation (token : string) (u : user)
| TenantService_joinWithDefaultRolesOrAskApproval
    (u : user) (tenantId : string) (roles : list string)
| TenantService_joinDefaultUsingInvitedEmail (u : user)
| TenantService_createOrJoinDefault (u : user) (roles : list string).

Inductive event :=
| EvCreateTransaction (t : nat)
| EvCommit (t : nat)
| EvRollback (t : nat)
| EvCall (tx : option nat) (c : call)
| EvSdpService (r : record)
| EvConsoleLog (r : record)
| EvWebSocket (url : string)
| EvConsoleError (e : error).

(** [getConfig()] and [EmailSender.isConfigured].  The expiry of tokens is
    counted in seconds. *)
Record config := Config {
  TENANT_MODE : string;
  AUTH_JWT_SECRET : string;
  AUTH_JWT_EXPIRES_IN : nat;
  EmailSender_isConfigured : bool;
}.

(** What the services do not control: the configuration, which calls fail,
    what the collaborators that are not among the sources answer (the user
    repository, the tenant repository, the token generator), the bcrypt
    library, the unique columns of the Visitor table and the clock. *)
Record environment := Environment {
  getConfig : config;
  oracle : call → option error;
  answer : call → string;
  findByEmail_answer : string → option user;
  findPassword_answer : nat → option string;
  findById_answer : option nat → option user;
  createFromAuth_answer : string → string → string → user;
  bcrypt_hash : string → nat → string;
  bcrypt_compare : string → string → bool;
  unique_fields : list string;
  now : nat;
}.

(** The state the services run in: the environment, the committed rows, the
    units of work created so far (a handle is an index), the next identifier
    to generate, the trace of what has been done, and whether the remote end
    of the notification socket can be reached. *)
Record world := World {
  env : environment;
  db : store;
  txs : list txn;
  next_id : nat;
  trace : list event;
  sdp_reachable : bool;
}.

Definition set_db (s : store) (w : world) : world :=
  {| env := env w; db := s; txs := txs w; next_id := next_id w;
     trace := trace w; sdp_reachable := sdp_reachable w |}.

Definition set_txs (l : list txn) (w : world) : world :=
  {| env := env w; db := db w; txs := l; next_id := next_id w;
     trace := trace w; sdp_reachable := sdp_reachable w |}.

Definition set_next_id (n : nat) (w : world) : world :=
  {| env := env w; db := db w; txs := txs w; next_id := n;
     trace := trace w; sdp_reachable := sdp_reachable w |}.

Definition set_trace (l : list event) (w : world) : world :=
  {| env := env w; db := db w; txs := txs w; next_id := next_id w;
     trace := l; sdp_reachable := sdp_reachable w |}.

Arguments set_db _ _ /.
Arguments set_txs _ _ /.
Arguments set_next_id _ _ /.
Arguments set_trace _ _ /.

(** ** The monad of service computations *)

Inductive outcome (A : Type) :=
| Ok (a : A)
| Throw (e : error).
Arguments Ok {A} a.
Arguments Throw {A} e.

Definition M (A : Type) : Type := world → outcome A * world.

Definition ret {A} (a : A) : M A := λ w, (Ok a, w).

Definition bind {A B} (m : M A) (k : A → M B) : M B :=
  λ w, match m w with
       | (Ok a, w') => k a w'
       | (Throw e, w') => (Throw e, w')
       end.

Definition throw {A} (e : error) : M A := λ w, (Throw e, w).

(** [try { m } catch (error) { h error }] *)
Definition try_catch {A} (m : M A) (h : error → M A) : M A :=
  λ w, match m w with
       | (Ok a, w') => (Ok a, w')
       | (Throw e, w') => h e w'
       end.

Notation "'let*' x ':=' m 'in' k" := (bind m (λ x, k))
  (at level 10, x binder, m at level 100, k at level 200).
Notation "m '>>' k" := (bind m (λ _, k))
  (at level 60, right associativity).

(** [for (const x of l) { await body(x) }] *)
Fixpoint for_of {A} (l : list A) (body : A → M unit) : M unit :=
  match l with
  | [] => ret tt
  | x :: l' => body x >> for_of l' body
  end.

Definition read_env : M environment := λ w, (Ok (env w), w).

Definition emit (e : event) : M unit :=
  λ w, (Ok tt, set_trace (trace w ++ [e]) w).

(** A collaborator call: it is recorded, and fails when the oracle says so. *)
Definition invoke (tx : option nat) (c : call) : M unit :=
  emit (EvCall tx c) >>
  let* e := read_env in
  match oracle e c with
  | Some err => throw err
  | None => ret tt
  end.

(** A call to a collaborator that is not modelled further: recorded, failing
    when the oracle says so, and answering what the environment answers. *)
Definition ask (tx : option nat) (c : call) : M string :=
  invoke tx c >>
  let* e := read_env in
  ret (answer e c).

(** The rows a call sees: the committed store, and under an open unit of work
    the writes issued in it so far. *)
Definition view (tx : option nat) (w : world) : store :=
  match tx with
  | None => db w
  | Some t =>
    match txs w !! t with
    | Some (Txn TxOpen ws) => apply_writes (db w) ws
    | _ => db w
    end
  end.

Definition read_view (tx : option nat) : M store :=
  λ w, (Ok (view tx w), w).

(** Issue a write: buffered in the unit of work when one is given (it must be
    open), applied at once otherwise. *)
Definition issue (tx : option nat) (x : write) : M unit :=
  λ w, match tx with
       | None => (Ok tt, set_db (apply_write (db w) x) w)
       | Some t =>
         match txs w !! t with
         | Some (Txn TxOpen ws) =>
           (Ok tt, set_txs (<[t := Txn TxOpen (ws ++ [x])]> (txs w)) w)
         | _ => (Throw (DatabaseError "transaction finished"), w)
         end
       end.

Definition fresh_id : M nat :=
  λ w, (Ok (next_id w), set_next_id (S (next_id w)) w).

(** Whether an operation inside the unit of work [t] has failed, going by
    the events since [t] was created: the operations inside [t] are the calls
    recorded under it, and a call fails when the oracle says so. *)
Definition failed_step (e : environment) (t : nat) (b : bool) (ev : event)
  : bool :=
  match ev with
  | EvCreateTransaction t' => if Nat.eqb t' t then false else b
  | EvCall (Some t') c =>
    if Nat.eqb t' t then b || bool_decide (is_Some (oracle e c)) else b
  | _ => b
  end.

Definition failed_in (e : environment) (t : nat) (evs : list event) : bool :=
  foldl (failed_step e t) false evs.

(** ** SequelizeRepository: the transaction coordinator *)

Module SequelizeRepository.

(** Modelled from the spec: [SequelizeRepository.createTransaction] is not
    among the sources.  A unit of work is created open, with no writes, at
    the start of a service operation. *)
Definition createTransaction : M nat :=
  λ w, let t := length (txs w) in
       (Ok t, set_trace (trace w ++ [EvCreateTransaction t])
                (set_txs (txs w ++ [Txn TxOpen []]) w)).

(** Modelled from the spec: [SequelizeRepository.commitTransaction] is not
    among the sources.  open → committed: the explicit commit succeeds only
    if no operation inside the scope failed, and then the writes issued
    inside the scope are applied, all of them, in the order issued.  A commit
    that does not succeed leaves the unit of work open; no operation may be
    issued against a unit of work after commit or rollback. *)
Definition commitTransaction (t : nat) : M unit :=
  invoke (Some t) SequelizeRepository_commitTransaction >>
  λ w, match txs w !! t with
       | Some (Txn TxOpen ws) =>
         if failed_in (env w) t (trace w) then
           (Throw (DatabaseError "an operation inside the transaction failed"),
            w)
         else
           (Ok tt, set_trace (trace w ++ [EvCommit t])
                     (set_txs (<[t := Txn TxCommitted ws]> (txs w))
                        (set_db (apply_writes (db w) ws) w)))
       | _ => (Throw (DatabaseError "transaction finished"), w)
       end.

(** Modelled from the spec: [SequelizeRepository.rollbackTransaction] is not
    among the sources.  open → rolled-back: always succeeds and discards all
    writes made inside the scope; on a unit of work that is no longer open it
    does nothing and does not throw. *)
Definition rollbackTransaction (t : nat) : M unit :=
  λ w, match txs w !! t with
       | Some (Txn TxOpen ws) =>
         (Ok tt, set_trace (trace w ++ [EvRollback t])
                   (set_txs (<[t := Txn TxRolledBack []]> (txs w)) w))
       | _ => (Ok tt, w)
       end.

(** The message key of a uniqueness violation of [entityName] on [path]. *)
Definition unique_key (entityName path : string) : string :=
  "entities." +:+ entityName +:+ ".errors.unique." +:+ path.

(** Modelled from the spec: [SequelizeRepository.handleUniqueFieldError] is
    not among the sources.  A uniqueness violation is re-signalled as a
    validation error carrying a field-specific, localized message; on any
    other failure it returns and the caller rethrows. *)
Definition handleUniqueFieldError (e : error) (language entityName : string)
  : M unit :=
  match e with
  | UniqueConstraintError path =>
    throw (Error400 language (unique_key entityName path) [])
  | _ => ret tt
  end.

End SequelizeRepository.

(** ** VisitorRepository: the persistence adapter of the Visitor table *)

Module VisitorRepository.

(** Some row other than [self] already holds the value [v] in column [f]. *)
Definition taken (self : option nat) (f v : string)
    (rows : gmap nat (gmap string string)) : bool :=
  bool_decide (map_Exists (λ i a, Some i ≠ self ∧ a !! f = Some v) rows).

(** The first unique column on which [data] collides with another row. *)
Fixpoint violated (fields : list string) (self : option nat)
    (data : gmap string string) (rows : gmap nat (gmap string string))
  : option string :=
  match fields with
  | [] => None
  | f :: fields' =>
    match data !! f with
    | Some v =>
      if taken self f v rows then Some f else violated fields' self data rows
    | None => violated fields' self data rows
    end
  end.

(** Modelled from the spec: [VisitorRepository.create] is not among the
    sources.  [create(data, ctx) -> Record]: inserts the row under a generated
    identifier within the unit of work of [ctx], and reports a uniqueness
    violation. *)
Definition create (data : gmap string string) (ctx : options) : M record :=
  invoke (transaction ctx) (VisitorRepository_create data) >>
  let* e := read_env in
  let* s := read_view (transaction ctx) in
  match violated (unique_fields e) None data s with
  | Some path => throw (UniqueConstraintError path)
  | None =>
    let* id := fresh_id in
    issue (transaction ctx) (PutVisitor id data) >>
    ret (Record_ id data)
  end.

(** Modelled from the spec: [VisitorRepository.update] is not among the
    sources.  [update(id, data, ctx) -> Record]: fails with the not-found
    error if no record matches [id]; the attributes given replace the stored
    ones, the others are kept. *)
Definition update (id : nat) (data : gmap string string) (ctx : options)
  : M record :=
  invoke (transaction ctx) (VisitorRepository_update id data) >>
  let* e := read_env in
  let* s := read_view (transaction ctx) in
  match s !! id with
  | None => throw (Error404 (language ctx))
  | Some old =>
    match violated (unique_fields e) (Some id) data s with
    | Some path => throw (UniqueConstraintError path)
    | None =>
      issue (transaction ctx) (PutVisitor id (data ∪ old)) >>
      ret (Record_ id (data ∪ old))
    end
  end.

(** Modelled from the spec: [VisitorRepository.destroy] is not among the
    sources.  [destroy(id, ctx) -> void]: deletes the row within the unit of
    work of [ctx]; no record for the given id is the not-found error. *)
Definition destroy (id : nat) (ctx : options) : M unit :=
  invoke (transaction ctx) (VisitorRepository_destroy id) >>
  let* s := read_view (transaction ctx) in
  match s !! id with
  | None => throw (Error404 (language ctx))
  | Some _ => issue (transaction ctx) (DelVisitor id)
  end.

(** Modelled from the spec: [VisitorRepository.count] is not among the
    sources.  [count(filter, ctx) -> integer], for the filter
    [{ importHash }]. *)
Definition count (importHash : string) (ctx : options) : M nat :=
  invoke (transaction ctx) (VisitorRepository_count importHash) >>
  let* s := read_view (transaction ctx) in
  ret (size (filter (λ kv, kv.2 !! "importHash" = Some importHash) s)).

End VisitorRepository.

(** ** sdpService (backend/src/services/sdpService.ts) *)

Definition sdp_url : string := "ws://50.19.75.1:8686/swap".

(** The [cmd] of the frames the [onopen] handler sends, in order: the login
    frame and, a second later, the [addVistors] frame.  Both are literals: the
    record is not part of them. *)
Definition sdp_onopen : list string := ["login"; "addVistors"].

(** What reaches the remote end once the socket has been created: the frames
    of [onopen] if the connection opens, nothing otherwise.  This happens
    after [sdpService] has returned. *)
Definition sdp_delivered (w : world) : list string :=
  if sdp_reachable w then sdp_onopen else [].

(** [sdpService(record)]: logs the record, creates the socket, installs the
    [onopen] handler and returns; nothing is awaited. *)
Definition sdpService (r : record) : M unit :=
  emit (EvSdpService r) >>
  emit (EvConsoleLog r) >>
  emit (EvWebSocket sdp_url).

(** ** VisitorService *)

Module VisitorService.

(** [create(data)]; [this] is [this.options]. *)
Definition create (this : options) (data : gmap string string) : M record :=
  let* transaction := SequelizeRepository.createTransaction in
  try_catch
    (let* record := VisitorRepository.create data
                      (with_transaction this transaction) in
     SequelizeRepository.commitTransaction transaction >>
     sdpService record >>
     ret record)
    (λ error,
     SequelizeRepository.rollbackTransaction transaction >>
     SequelizeRepository.handleUniqueFieldError error (language this)
       "visitor" >>
     throw error).

(** [update(id, data)] *)
Definition update (this : options) (id : nat) (data : gmap string string)
  : M record :=
  let* transaction := SequelizeRepository.createTransaction in
  try_catch
    (let* record := VisitorRepository.update id data
                      (with_transaction this transaction) in
     SequelizeRepository.commitTransaction transaction >>
     ret record)
    (λ error,
     SequelizeRepository.rollbackTransaction transaction >>
     SequelizeRepository.handleUniqueFieldError error (language this)
       "visitor" >>
     throw error).

(** [destroyAll(ids)] *)
Definition destroyAll (this : options) (ids : list nat) : M unit :=
  let* transaction := SequelizeRepository.createTransaction in
  try_catch
    (for_of ids (λ id,
       VisitorRepository.destroy id (with_transaction this transaction)) >>
     SequelizeRepository.commitTransaction transaction)
    (λ error,
     SequelizeRepository.rollbackTransaction transaction >>
     throw error).

(** [_isImportHashExistent(importHash)] *)
Definition _isImportHashExistent (this : options) (importHash : string)
  : M bool :=
  let* count := VisitorRepository.count importHash this in
  ret (bool_decide (0 < count)).

(** [import(data, importHash)]; [importHash] may be [null] or [undefined]
    ([None]), and [!importHash] holds of the empty string too. *)
Definition import (this : options) (data : gmap string string)
    (importHash : option string) : M record :=
  match importHash with
  | Some h =>
    if negb (truthy importHash) then
      throw (Error400 (language this) "importer.errors.importHashRequired" [])
    else
      let* existent := _isImportHashExistent this h in
      if existent then
        throw (Error400 (language this) "importer.errors.importHashExistent" [])
      else
        let dataToCreate := <["importHash" := h]> data in
        create this dataToCreate
  | None =>
    throw (Error400 (language this) "importer.errors.importHashRequired" [])
  end.

End VisitorService.

(** ** The message catalog *)

(** The two entries of [importer.errors] of the English catalog that [import]
    refers to. *)
Definition en (key : string) : option string :=
  if String.eqb key "importer.errors.importHashRequired" then
    Some "Import hash is required"
  else if String.eqb key "importer.errors.importHashExistent" then
    Some "Data has already been imported"
  else None.

(** ** bcrypt and jsonwebtoken *)

Definition BCRYPT_SALT_ROUNDS : nat := 12.

Module bcrypt.

(** [bcrypt.hash(password, rounds)], as the environment's library computes
    it. *)
Definition hash (password : string) (rounds : nat) : M string :=
  let* e := read_env in
  ret (bcrypt_hash e password rounds).

(** [bcrypt.compare(password, hashed)] *)
Definition compare (password hashed : string) : M bool :=
  let* e := read_env in
  ret (bcrypt_compare e password hashed).

End bcrypt.

(** A signed token: the claims of the payload it was signed with, the times
    of issue and of expiry the library stamps on it, and the secret it is
    signed under. *)
Record token := Token {
  payload : list (string * nat);
  iat : nat;
  exp : nat;
  signed_with : string;
}.

Module jwt.

(** [jwt.sign(payload, secret, { expiresIn })]: without a secret (the empty
    string is none) the library throws; this is no verification error. *)
Definition sign (claims : list (string * nat)) (secret : string)
    (expiresIn : nat) : M token :=
  if String.eqb secret "" then
    throw (DatabaseError "secretOrPrivateKey must have a value")
  else
    let* e := read_env in
    ret {| payload := claims; iat := now e; exp := now e + expiresIn;
           signed_with := secret |}.

(** [jwt.verify(token, secret, callback)]: the signature and the expiry are
    checked; the callback gets the error or the decoded payload. *)
Definition verify (t : token) (secret : string)
  : M (list (string * nat)) :=
  let* e := read_env in
  if negb (String.eqb (signed_with t) secret) then
    throw (JsonWebTokenError "invalid signature")
  else if negb (Nat.ltb (now e) (exp t)) then
    throw (JsonWebTokenError "jwt expired")
  else ret (payload t).

End jwt.

(** [decoded.id] *)
Fixpoint get_id (claims : list (string * nat)) : option nat :=
  match claims with
  | [] => None
  | (k, v) :: claims' => if String.eqb k "id" then Some v else get_id claims'
  end.

(** ** The collaborators of AuthService that are not among the sources *)

(** Their calls are recorded in the trace with the unit of work they are made
    under, fail when the oracle says so, and answer what the environment
    answers. *)

Module UserRepository.

(** [UserRepository.findByEmail(email, options)]: the user of that email, or
    [null]. *)
Definition findByEmail (email : string) (o : options) : M (option user) :=
  invoke (transaction o) (UserRepository_findByEmail email) >>
  let* e := read_env in
  ret (findByEmail_answer e email).

(** [UserRepository.findPassword(id, options)]: the stored password hash of
    the user, or [null]. *)
Definition findPassword (id : nat) (o : options) : M (option string) :=
  invoke (transaction o) (UserRepository_findPassword id) >>
  let* e := read_env in
  ret (findPassword_answer e id).

(** [UserRepository.findById(id, options)]; [id] is [undefined] when the
    decoded payload has none. *)
Definition findById (id : option nat) (o : options) : M (option user) :=
  invoke (transaction o) (UserRepository_findById id) >>
  let* e := read_env in
  ret (findById_answer e id).

(** [UserRepository.updatePassword(id, hashedPassword, options)] *)
Definition updatePassword (id : nat) (hashed : string) (o : options)
  : M unit :=
  invoke (transaction o) (UserRepository_updatePassword id hashed).

(** [UserRepository.createFromAuth({ firstName, password, email }, options)]:
    the user created. *)
Definition createFromAuth (firstName password email : string) (o : options)
  : M user :=
  invoke (transaction o)
    (UserRepository_createFromAuth firstName password email) >>
  let* e := read_env in
  ret (createFromAuth_answer e firstName password email).

(** [UserRepository.generateEmailVerificationToken(email, options)] *)
Definition generateEmailVerificationToken (email : string) (o : options)
  : M string :=
  ask (transaction o) (UserRepository_generateEmailVerificationToken email).

End UserRepository.

Module TenantRepository.

(** [TenantRepository.findById(tenantId, options)]: the tenant, as an opaque
    value. *)
Definition findById (tenantId : option string) (o : options) : M string :=
  ask (transaction o) (TenantRepository_findById tenantId).

End TenantRepository.

Module tenantSubdomain.

(** [tenantSubdomain.frontendUrl(tenant)] *)
Definition frontendUrl (tenant : string) : M string :=
  ask None (tenantSubdomain_frontendUrl tenant).

End tenantSubdomain.

Module EmailSender.

(** [EmailSender.isConfigured] *)
Definition isConfigured : M bool :=
  let* e := read_env in
  ret (EmailSender_isConfigured (getConfig e)).

(** [EmailSender.TEMPLATES.EMAIL_ADDRESS_VERIFICATION] *)
Definition EMAIL_ADDRESS_VERIFICATION : string := "emailAddressVerification".

(** [new EmailSender(template, { link }).sendTo(email)] *)
Definition sendTo (template link email : string) : M unit :=
  invoke None (EmailSender_sendTo template link email).

End EmailSender.

Module TenantUserRepository.

(** [acceptInvitation(invitationToken, { ...options, currentUser })], for
    [currentUser = u]. *)
Definition acceptInvitation (invitationToken : string) (u : user)
    (o : options) : M unit :=
  invoke (transaction o)
    (TenantUserRepository_acceptInvitation invitationToken u).

End TenantUserRepository.

(** [new TenantService(this).method(...)], for [this.currentUser = u]. *)
Module TenantService.

(** [joinWithDefaultRolesOrAskApproval({ tenantId, roles }, options)] *)
Definition joinWithDefaultRolesOrAskApproval (u : user) (tenantId : string)
    (roles : list string) (o : options) : M unit :=
  invoke (transaction o)
    (TenantService_joinWithDefaultRolesOrAskApproval u tenantId roles).

(** [joinDefaultUsingInvitedEmail(transaction)] *)
Definition joinDefaultUsingInvitedEmail (u : user) (tx : option nat)
  : M unit :=
  invoke tx (TenantService_joinDefaultUsingInvitedEmail u).

(** [createOrJoinDefault({ roles }, transaction)] *)
Definition createOrJoinDefault (u : user) (roles : list string)
    (tx : option nat) : M unit :=
  invoke tx (TenantService_createOrJoinDefault u roles).

End TenantService.

(** [console.error(error)] *)
Definition console_error (e : error) : M unit := emit (EvConsoleError e).

(** [email.split('@')[0]] *)
Fixpoint before_at (s : string) : string :=
  match s with
  | EmptyString => EmptyString
  | String c s' =>
    if Ascii.eqb c "@"%char then EmptyString else String c (before_at s')
  end.

(** ** AuthService *)

Module AuthService.

(** [sendEmailAddressVerificationEmail(language, email, tenantId, options)] *)
Definition sendEmailAddressVerificationEmail (language email : string)
    (tenantId : option string) (o : options) : M unit :=
  let* isConfigured := EmailSender.isConfigured in
  if negb isConfigured then throw (Error400 language "email.error" [])
  else
    let* link :=
      try_catch
        (let* tenant := TenantRepository.findById tenantId o in
         let* token := UserRepository.generateEmailVerificationToken email o in
         let* url := tenantSubdomain.frontendUrl tenant in
         ret (url +:+ "/auth/verify-email?token=" +:+ token))
        (λ error,
         console_error error >>
         throw (Error400 language
                  "auth.emailAddressVerificationEmail.error" [])) in
    EmailSender.sendTo EmailSender.EMAIL_ADDRESS_VERIFICATION link email.

(** [handleOnboard(currentUser, invitationToken, tenantId, options)] *)
Definition handleOnboard (currentUser : user)
    (invitationToken tenantId : option string) (o : options) : M unit :=
  (match invitationToken with
   | Some tok =>
     if truthy invitationToken then
       try_catch
         (TenantUserRepository.acceptInvitation tok currentUser
            (with_bypass (with_currentUser o currentUser)))
         (λ error, console_error error)
     else ret tt
   | None => ret tt
   end) >>
  let* e := read_env in
  let isMultiTenantViaSubdomain :=
    bool_decide (TENANT_MODE (getConfig e) ∈ ["multi"; "multi-with-subdomain"])
    && truthy tenantId in
  (match tenantId with
   | Some tid =>
     if isMultiTenantViaSubdomain then
       TenantService.joinWithDefaultRolesOrAskApproval currentUser tid
         ["visitor"] o
     else ret tt
   | None => ret tt
   end) >>
  let singleTenant := String.eqb (TENANT_MODE (getConfig e)) "single" in
  if singleTenant then
    TenantService.joinDefaultUsingInvitedEmail currentUser (transaction o) >>
    TenantService.createOrJoinDefault currentUser ["visitor"] (transaction o)
  else ret tt.

(** [signup(email, password, invitationToken, tenantId, options)] *)
Definition signup (email password : string)
    (invitationToken tenantId : option string) (o : options) : M token :=
  let* transaction := SequelizeRepository.createTransaction in
  try_catch
    (let* existingUser := UserRepository.findByEmail email o in
     let* hashedPassword := bcrypt.hash password BCRYPT_SALT_ROUNDS in
     match existingUser with
     | Some existingUser =>
       let* existingPassword :=
         UserRepository.findPassword (user_id existingUser) o in
       if truthy existingPassword then
         throw (Error400 (language o) "auth.emailAlreadyInUse" [])
       else
         UserRepository.updatePassword (user_id existingUser) hashedPassword
           (with_bypass (with_transaction o transaction)) >>
         (let* isConfigured := EmailSender.isConfigured in
          if isConfigured then
            sendEmailAddressVerificationEmail (language o)
              (user_email existingUser) tenantId
              (with_bypass (with_transaction o transaction))
          else ret tt) >>
         handleOnboard existingUser invitationToken tenantId
           (with_transaction o transaction) >>
         let* token :=
           (let* e := read_env in
            jwt.sign [("id", user_id existingUser)]
              (AUTH_JWT_SECRET (getConfig e))
              (AUTH_JWT_EXPIRES_IN (getConfig e))) in
         SequelizeRepository.commitTransaction transaction >>
         ret token
     | None =>
       let* newUser :=
         UserRepository.createFromAuth (before_at email) hashedPassword email
           (with_transaction o transaction) in
       (let* isConfigured := EmailSender.isConfigured in
        if isConfigured then
          sendEmailAddressVerificationEmail (language o)
            (user_email newUser) tenantId (with_transaction o transaction)
        else ret tt) >>
       handleOnboard newUser invitationToken tenantId
         (with_transaction o transaction) >>
       let* token :=
         (let* e := read_env in
          jwt.sign [("id", user_id newUser)]
            (AUTH_JWT_SECRET (getConfig e))
            (AUTH_JWT_EXPIRES_IN (getConfig e))) in
       SequelizeRepository.commitTransaction transaction >>
       ret token
     end)
    (λ error,
     SequelizeRepository.rollbackTransaction transaction >>
     throw error).

(** [signin(email, password, invitationToken, tenantId, options)] *)
Definition signin (email password : string)
    (invitationToken tenantId : option string) (o : options) : M token :=
  let* transaction := SequelizeRepository.createTransaction in
  try_catch
    (let* user := UserRepository.findByEmail email o in
     match user with
     | None => throw (Error400 (language o) "auth.userNotFound" [])
     | Some user =>
       let* currentPassword := UserRepository.findPassword (user_id user) o in
       match currentPassword with
       | None => throw (Error400 (language o) "auth.wrongPassword" [])
       | Some hashed =>
         if negb (truthy currentPassword) then
           throw (Error400 (language o) "auth.wrongPassword" [])
         else
           let* passwordsMatch := bcrypt.compare password hashed in
           if negb passwordsMatch then
             throw (Error400 (language o) "auth.wrongPassword" [])
           else
             handleOnboard user invitationToken tenantId
               (with_transaction (with_currentUser o user) transaction) >>
             let* token :=
               (let* e := read_env in
                jwt.sign [("id", user_id user)]
                  (AUTH_JWT_SECRET (getConfig e))
                  (AUTH_JWT_EXPIRES_IN (getConfig e))) in
             SequelizeRepository.commitTransaction transaction >>
             ret token
       end
     end)
    (λ error,
     SequelizeRepository.rollbackTransaction transaction >>
     throw error).

(** [findByToken(token, options)]: the promise is rejected with the
    verification error or the repository's, and resolved with the user (or
    [null]) otherwise.  The user object the repository hands out is the one
    that is updated and returned. *)
Definition findByToken (t : token) (o : options) : M (option user) :=
  let* e := read_env in
  let* decoded := jwt.verify t (AUTH_JWT_SECRET (getConfig e)) in
  let id := get_id decoded in
  let* user := UserRepository.findById id (with_bypass o) in
  let* isConfigured := EmailSender.isConfigured in
  match user with
  | Some u =>
    if negb isConfigured then
      ret (Some {| user_id := user_id u; user_email := user_email u;
                   user_firstName := user_firstName u;
                   emailVerified := true |})
    else ret (Some u)
  | None => ret None
  end.

End AuthService.

(** A small world to run the services in. *)
Definition env0 : environment :=
  {| getConfig := {| TENANT_MODE := "multi"; AUTH_JWT_SECRET := "secret";
                     AUTH_JWT_EXPIRES_IN := 3600;
                     EmailSender_isConfigured := false |};
     oracle := λ _, None;
     answer := λ _, "";
     findByEmail_answer := λ _, None;
     findPassword_answer := λ _, None;
     findById_answer := λ _, None;
     createFromAuth_answer := λ firstName _ email, User 7 email firstName false;
     bcrypt_hash := λ p _, "$2b$" +:+ p;
     bcrypt_compare := λ p h, String.eqb h ("$2b$" +:+ p);
     unique_fields := ["email"; "importHash"];
     now := 1000 |}.

Definition world0 : world :=
  {| env := env0;
     db := ∅;
     txs := []; next_id := 1; trace := []; sdp_reachable := false |}.

Definition opts0 : options :=
  {| language := "en"; currentUser := None; transaction := None;
     bypassPermissionValidation := false |}.

(** ** What a unit of work guarantees *)

(** The events that are transitions of a unit of work. *)
Definition is_transition (e : event) : bool :=
  match e with
  | EvCreateTransaction _ | EvCommit _ | EvRollback _ => true
  | _ => false
  end.

Definition transitions (evs : list event) : list event :=
  List.filter is_transition evs.

Definition open_at (t : nat) (w : world) : Prop :=
  ∃ ws, txs w !! t = Some (Txn TxOpen ws).

(** [w'] is reached from [w] by work inside the open unit of work [t]: the
    committed rows are as they were, [t] is still open with the writes issued
    so far, no other unit of work was touched, no transition happened. *)
Definition scoped (t : nat) (w w' : world) : Prop :=
  env w' = env w ∧ db w' = db w ∧ sdp_reachable w' = sdp_reachable w ∧
  (∃ ws ws', txs w !! t = Some (Txn TxOpen ws) ∧
             txs w' = <[t := Txn TxOpen (ws ++ ws')]> (txs w)) ∧
  (∃ evs, trace w' = trace w ++ evs ∧ transitions evs = []).

(** [w'] is reached from [w] by work inside [t] that ended in its commit. *)
Definition committed_by (t : nat) (w w' : world) : Prop :=
  env w' = env w ∧ sdp_reachable w' = sdp_reachable w ∧
  (∃ ws ws', txs w !! t = Some (Txn TxOpen ws) ∧
             txs w' = <[t := Txn TxCommitted (ws ++ ws')]> (txs w) ∧
             db w' = apply_writes (db w) (ws ++ ws')) ∧
  (∃ evs, trace w' = trace w ++ evs ∧ transitions evs = [EvCommit t]).

(** A computation that stays inside the unit of work [t]. *)
Definition Scoped {A} (t : nat) (m : M A) : Prop :=
  ∀ w, open_at t w → scoped t w (m w).2.

(** A computation inside [t] that, when it returns, has committed [t]. *)
Definition Terminal {A} (t : nat) (m : M A) : Prop :=
  ∀ w, open_at t w →
    match m w with
    | (Ok _, w') => committed_by t w w'
    | (Throw _, w') => scoped t w w'
    end.

(** A computation that returns, and only adds events that are no
    transitions. *)
Definition Quiet {A} (m : M A) : Prop :=
  ∀ w, ∃ a evs, m w = (Ok a, set_trace (trace w ++ evs) w) ∧
                transitions evs = [].

(** A computation that throws and changes nothing. *)
Definition Rethrow {A} (m : M A) : Prop :=
  ∀ w, ∃ e, m w = (Throw e, w).

(** The contract of a transactional operation run from [w]: one unit of work
    was created, and it is the last one; it is committed with all its writes
    applied if the operation returned, rolled back with the committed rows as
    before if it threw; its transitions are its creation and that one. *)
Definition unit_of_work {A} (w : world) (r : outcome A) (w' : world) : Prop :=
  let t := length (txs w) in
  env w' = env w ∧
  ∃ x evs, txs w' = txs w ++ [x] ∧ trace w' = trace w ++ evs ∧
    match r with
    | Ok _ =>
      tx_status x = TxCommitted ∧
      db w' = apply_writes (db w) (tx_writes x) ∧
      transitions evs = [EvCreateTransaction t; EvCommit t]
    | Throw _ =>
      tx_status x = TxRolledBack ∧
      db w' = db w ∧
      transitions evs = [EvCreateTransaction t; EvRollback t]
    end.

Definition transactional {A} (m : M A) : Prop :=
  ∀ w, unit_of_work w (m w).1 (m w).2.

(** ** The vocabulary of the properties *)

(** The identifiers of the [destroy] calls among the events, in order. *)
Definition destroyed (evs : list event) : list nat :=
  omap (λ e, match e with
             | EvCall _ (VisitorRepository_destroy id) => Some id
             | _ => None
             end) evs.

(** The first deletion of [destroyAll(ids)] that fails, run on the rows [s],
    with the number of [destroy] calls made by then and the error: the call
    fails, or there is no record for the id (also when the id came before in
    [ids], as its record is gone by then). *)
Fixpoint destroy_failure (e : environment) (language : string) (s : store)
    (ids : list nat) : option (nat * error) :=
  match ids with
  | [] => None
  | id :: ids' =>
    match oracle e (VisitorRepository_destroy id) with
    | Some err => Some (1, err)
    | None =>
      match s !! id with
      | None => Some (1, Error404 language)
      | Some _ =>
        match destroy_failure e language (delete id s) ids' with
        | Some (k, err) => Some (S k, err)
        | None => None
        end
      end
    end
  end.

(** The failure [destroyAll(ids)] meets when run from [w], if any, and the
    number of [destroy] calls made by then: a deletion fails, or the commit
    does. *)
Definition destroyAll_failure (this : options) (ids : list nat) (w : world)
  : option (nat * error) :=
  match destroy_failure (env w) (language this) (db w) ids with
  | Some f => Some f
  | None =>
    match oracle (env w) SequelizeRepository_commitTransaction with
    | Some e => Some (length ids, e)
    | None => None
    end
  end.

(** What [handleUniqueFieldError] followed by [throw error] throws. *)
Definition resignalled (language entityName : string) (e : error) : error :=
  match e with
  | UniqueConstraintError path =>
    Error400 language (SequelizeRepository.unique_key entityName path) []
  | _ => e
  end.

(** The failure of the persistence layer that [create(data)] meets when run
    from [w], if any: the insert fails, or it violates a unique column, or
    the commit fails. *)
Definition create_failure (data : gmap string string) (w : world)
  : option error :=
  match oracle (env w) (VisitorRepository_create data) with
  | Some e => Some e
  | None =>
    match VisitorRepository.violated (unique_fields (env w)) None data (db w)
    with
    | Some path => Some (UniqueConstraintError path)
    | None => oracle (env w) SequelizeRepository_commitTransaction
    end
  end.

(** The same for [update(id, data)]: the update fails, or no record matches
    [id], or it violates a unique column, or the commit fails. *)
Definition update_failure (this : options) (id : nat)
    (data : gmap string string) (w : world) : option error :=
  match oracle (env w) (VisitorRepository_update id data) with
  | Some e => Some e
  | None =>
    match db w !! id with
    | None => Some (Error404 (language this))
    | Some _ =>
      match VisitorRepository.violated (unique_fields (env w)) (Some id) data
              (db w) with
      | Some path => Some (UniqueConstraintError path)
      | None => oracle (env w) SequelizeRepository_commitTransaction
      end
    end
  end.

(** The events of a successful run of [create], after those of the world it
    started in. *)
Definition create_events (t : nat) (r : record) : list event :=
  [EvCreateTransaction t;
   EvCall (Some t) (VisitorRepository_create (rec_attrs r));
   EvCall (Some t) SequelizeRepository_commitTransaction;
   EvCommit t; EvSdpService r; EvConsoleLog r; EvWebSocket sdp_url].

(** The records [sdpService] was called with, in order. *)
Definition notified (evs : list event) : list record :=
  omap (λ e, match e with EvSdpService r => Some r | _ => None end) evs.


(** The role lists [handleOnboard] joined a tenant with: those of the calls
    of [joinWithDefaultRolesOrAskApproval] and of [createOrJoinDefault]. *)
Definition joined_roles (evs : list event) : list (list string) :=
  omap (λ e, match e with
             | EvCall _ (TenantService_joinWithDefaultRolesOrAskApproval _ _ roles)
             | EvCall _ (TenantService_createOrJoinDefault _ roles) => Some roles
             | _ => None
             end) evs.

(** The [jwt.sign] call of [signup] and [signin], for the user [u]. *)
Definition issue_token (u : user) : M token :=
  let* e := read_env in
  jwt.sign [("id", user_id u)] (AUTH_JWT_SECRET (getConfig e))
    (AUTH_JWT_EXPIRES_IN (getConfig e)).

(** The token that call makes for [u] in the environment [e]. *)
Definition token_for (e : environment) (u : user) : token :=
  {| payload := [("id", user_id u)];
     iat := now e;
     exp := now e + AUTH_JWT_EXPIRES_IN (getConfig e);
     signed_with := AUTH_JWT_SECRET (getConfig e) |}.

(** The three checks of [signin] that can fail authentication. *)
Inductive auth_check :=
| UnknownUser
| MissingCredential
| PasswordMismatch.

(** The check that fails for [email] and [password], if one does: whether
    the repository knows a user of that email, whether it has a password
    stored for that user, whether bcrypt matches the passwords. *)
Definition failed_check (e : environment) (email password : string)
  : option auth_check :=
  match findByEmail_answer e email with
  | None => Some UnknownUser
  | Some u =>
    match findPassword_answer e (user_id u) with
    | None => Some MissingCredential
    | Some hashed =>
      if negb (truthy (Some hashed)) then Some MissingCredential
      else if bcrypt_compare e password hashed then None
      else Some PasswordMismatch
    end
  end.

(** The two reads of [signin] do not fail. *)
Definition reads_succeed (e : environment) (email : string) : Prop :=
  oracle e (UserRepository_findByEmail email) = None ∧
  ∀ u, findByEmail_answer e email = Some u →
       oracle e (UserRepository_findPassword (user_id u)) = None.

(** The message key of the error of a failed check. *)
Definition auth_error_key (c : auth_check) : string :=
  match c with
  | UnknownUser => "auth.userNotFound"
  | MissingCredential | PasswordMismatch => "auth.wrongPassword"
  end.

Definition bob : user :=
  {| user_id := 7; user_email := "bob@example.org"; user_firstName := "bob";
     emailVerified := false |}.

(** An environment that knows [bob] and his password, in which no call fails
    but the acceptance of invitations. *)
Definition env_auth : environment :=
  {| getConfig := {| TENANT_MODE := "multi"; AUTH_JWT_SECRET := "secret";
                     AUTH_JWT_EXPIRES_IN := 3600;
                     EmailSender_isConfigured := false |};
     oracle := λ c, match c with
                    | TenantUserRepository_acceptInvitation _ _ =>
                      Some (DatabaseError "invitation not found")
                    | _ => None
                    end;
     answer := λ _, "";
     findByEmail_answer :=
       λ email, if String.eqb email "bob@example.org" then Some bob else None;
     findPassword_answer :=
       λ id, if Nat.eqb id 7 then Some "$2b$hunter2" else None;
     findById_answer :=
       λ id, match id with
             | Some 7 => Some bob
             | _ => None
             end;
     createFromAuth_answer := λ firstName _ email, User 8 email firstName false;
     bcrypt_hash := λ p _, "$2b$" +:+ p;
     bcrypt_compare := λ p h, String.eqb h ("$2b$" +:+ p);
     unique_fields := ["email"; "importHash"];
     now := 1000 |}.

Definition world_auth : world :=
  {| env := env_auth; db := ∅; txs := []; next_id := 1; trace := [];
     sdp_reachable := false |}.

Definition alice_row : gmap string string :=
  {[ "email" := "alice@example.org" ]}.

Definition carol_row : gmap string string :=
  {[ "email" := "carol@example.org" ]}.

Definition world_single : world :=
  {| env := {| getConfig := {| TENANT_MODE := "single";
                               AUTH_JWT_SECRET := "secret";
                               AUTH_JWT_EXPIRES_IN := 3600;
                               EmailSender_isConfigured := false |};
               oracle := oracle env_auth; answer := answer env_auth;
               findByEmail_answer := findByEmail_answer env_auth;
               findPassword_answer := findPassword_answer env_auth;
               findById_answer := findById_answer env_auth;
               createFromAuth_answer := createFromAuth_answer env_auth;
               bcrypt_hash := bcrypt_hash env_auth;
               bcrypt_compare := bcrypt_compare env_auth;
               unique_fields := unique_fields env_auth;
               now := now env_auth |};
     db := ∅; txs := []; next_id := 1; trace := []; sdp_reachable := false |}.

(** ** The rest of AuthService *)

(** A numeric identifier used in a boolean position: [0] is falsy. *)
Definition id_truthy (n : nat) : bool := negb (Nat.eqb n 0).

(** [changePassword(oldPassword, newPassword, options)].  [options.currentUser.id]
    is a [TypeError] without a current user, and [bcrypt.compare] rejects a
    [null] hash; both are failures of the other kind. *)
Definition changePassword (oldPassword newPassword : string) (o : options)
  : M unit :=
  match currentUser o with
  | None => throw (DatabaseError "TypeError: options.currentUser is undefined")
  | Some currentUser =>
    let* currentPassword :=
      UserRepository.findPassword (user_id currentUser) o in
    let* passwordsMatch :=
      match currentPassword with
      | Some hashed => bcrypt.compare oldPassword hashed
      | None => throw (DatabaseError "data and hash arguments required")
      end in
    if negb passwordsMatch then
      throw (Error400 (language o) "auth.passwordChange.invalidPassword" [])
    else
      let* newHashedPassword := bcrypt.hash newPassword BCRYPT_SALT_ROUNDS in
      UserRepository.updatePassword (user_id currentUser) newHashedPassword o
  end.

(** [EmailSender.TEMPLATES.PASSWORD_RESET] *)
Definition PASSWORD_RESET : string := "passwordReset".

(** The methods of [AuthService] that use repository methods of which the
    sources say nothing but the call: these are taken as they come, as
    arbitrary computations. *)
Section Collaborators.
Context {R : Type}
  (findByEmailVerificationToken : string → options → M (option user))
  (markEmailVerified : nat → options → M R)
  (findByPasswordResetToken : string → options → M (option user))
  (generatePasswordResetToken : string → options → M string).

(** [verifyEmail(token, options)] *)
Definition verifyEmail (token : string) (o : options) : M R :=
  let currentUser := currentUser o in
  let* user := findByEmailVerificationToken token o in
  match user with
  | None =>
    throw (Error400 (language o)
             "auth.emailAddressVerificationEmail.invalidToken" [])
  | Some user =>
    match currentUser with
    | Some currentUser =>
      if id_truthy (user_id currentUser)
         && negb (Nat.eqb (user_id currentUser) (user_id user)) then
        throw (Error400 (language o)
                 "auth.emailAddressVerificationEmail.signedInAsWrongUser"
                 [user_email user; user_email currentUser])
      else markEmailVerified (user_id user) o
    | None => markEmailVerified (user_id user) o
    end
  end.

(** [passwordReset(token, password, options)] *)
Definition passwordReset (token password : string) (o : options) : M unit :=
  let* user := findByPasswordResetToken token o in
  match user with
  | None =>
    throw (Error400 (language o) "auth.passwordReset.invalidToken" [])
  | Some user =>
    let* hashedPassword := bcrypt.hash password BCRYPT_SALT_ROUNDS in
    UserRepository.updatePassword (user_id user) hashedPassword (with_bypass o)
  end.

(** [sendPasswordResetEmail(language, email, tenantId, options)] *)
Definition sendPasswordResetEmail (language email : string)
    (tenantId : option string) (o : options) : M unit :=
  let* isConfigured := EmailSender.isConfigured in
  if negb isConfigured then throw (Error400 language "email.error" [])
  else
    let* link :=
      try_catch
        (let* tenant := TenantRepository.findById tenantId o in
         let* token := generatePasswordResetToken email o in
         let* url := tenantSubdomain.frontendUrl tenant in
         ret (url +:+ "/auth/password-reset?token=" +:+ token))
        (λ error,
         console_error error >>
         throw (Error400 language "auth.passwordReset.error" [])) in
    EmailSender.sendTo PASSWORD_RESET link email.

End Collaborators.

(** ** More vocabulary *)

(** The calls that store a password: [updatePassword] and
    [createFromAuth]. *)
Definition user_write (e : event) : option call :=
  match e with
  | EvCall _ (UserRepository_updatePassword id h) =>
    Some (UserRepository_updatePassword id h)
  | EvCall _ (UserRepository_createFromAuth f h m) =>
    Some (UserRepository_createFromAuth f h m)
  | _ => None
  end.

Definition user_writes (evs : list event) : list call := omap user_write evs.

(** The mails handed to the email sender: template, link and address. *)
Definition mail (e : event) : option (string * string * string) :=
  match e with
  | EvCall _ (EmailSender_sendTo template link email) =>
    Some (template, link, email)
  | _ => None
  end.

Definition mails (evs : list event) : list (string * string * string) :=
  omap mail evs.

(** The record [sdpService] was called with, for that event. *)
Definition notification (e : event) : option record :=
  match e with EvSdpService r => Some r | _ => None end.

(** No call fails in the environment [e]. *)
Definition no_failure (e : environment) : Prop := ∀ c, oracle e c = None.

(** A computation that, in an environment satisfying [P], leaves the
    environment alone and adds to the trace only events on which [sel] is
    silent. *)
Definition Avoids {B} (P : environment → Prop) (sel : event → option B) {A}
    (m : M A) : Prop :=
  ∀ w, P (env w) →
    env (m w).2 = env w ∧
    ∃ evs, trace (m w).2 = trace w ++ evs ∧ omap sel evs = [].

(** Building the link of the verification email fails in [e]: finding the
    tenant, generating the token or computing the front-end URL does. *)
Definition link_fails (e : environment) (tenantId : option string)
    (email : string) : Prop :=
  is_Some (oracle e (TenantRepository_findById tenantId)) ∨
  is_Some (oracle e (UserRepository_generateEmailVerificationToken email)) ∨
  is_Some (oracle e (tenantSubdomain_frontendUrl
                       (answer e (TenantRepository_findById tenantId)))).

(** What [findByToken] makes of the user the repository hands out: without
    a configured email sender the user counts as verified. *)
Definition verified_when_unconfigured (e : environment) (u : user) : user :=
  if EmailSender_isConfigured (getConfig e) then u
  else {| user_id := user_id u; user_email := user_email u;
          user_firstName := user_firstName u; emailVerified := true |}.

(** What [findByToken] answers for a token that verifies with the payload
    [{ id }], and the lookup it makes for it. *)
Definition lookup_by_id (id : nat) (o : options) (w : world)
  : outcome (option user) * world :=
  (match oracle (env w) (UserRepository_findById (Some id)) with
   | Some err => Throw err
   | None =>
     Ok (verified_when_unconfigured (env w)
           <$> findById_answer (env w) (Some id))
   end,
   set_trace
     (trace w ++ [EvCall (transaction o) (UserRepository_findById (Some id))])
     w).

(** In the environment [e] no call fails but, possibly, the acceptance of an
    invitation. *)
Definition only_invitations_fail (e : environment) : Prop :=
  ∀ c, is_Some (oracle e c) →
       ∃ tok u, c = TenantUserRepository_acceptInvitation tok u.

(** The user of a token issued for [email]: the one the repository knows
    under that email or, for a [signup] with an email it does not know, the
    one it creates. *)
Definition signed_up (e : environment) (email password : string) : user :=
  match findByEmail_answer e email with
  | Some existingUser => existingUser
  | None =>
    createFromAuth_answer e (before_at email)
      (bcrypt_hash e password BCRYPT_SALT_ROUNDS) email
  end.

(** The environment [e] with the oracle [f]. *)
Definition with_oracle (f : call → option error) (e : environment)
  : environment :=
  {| getConfig := getConfig e; oracle := f; answer := answer e;
     findByEmail_answer := findByEmail_answer e;
     findPassword_answer := findPassword_answer e;
     findById_answer := findById_answer e;
     createFromAuth_answer := createFromAuth_answer e;
     bcrypt_hash := bcrypt_hash e; bcrypt_compare := bcrypt_compare e;
     unique_fields := unique_fields e; now := now e |}.

(** The environment [e] with a configured email sender. *)
Definition with_mail (e : environment) : environment :=
  {| getConfig := {| TENANT_MODE := TENANT_MODE (getConfig e);
                     AUTH_JWT_SECRET := AUTH_JWT_SECRET (getConfig e);
                     AUTH_JWT_EXPIRES_IN := AUTH_JWT_EXPIRES_IN (getConfig e);
                     EmailSender_isConfigured := true |};
     oracle := oracle e; answer := answer e;
     findByEmail_answer := findByEmail_answer e;
     findPassword_answer := findPassword_answer e;
     findById_answer := findById_answer e;
     createFromAuth_answer := createFromAuth_answer e;
     bcrypt_hash := bcrypt_hash e; bcrypt_compare := bcrypt_compare e;
     unique_fields := unique_fields e; now := now e |}.

(** The world [w] in the environment [e]. *)
Definition with_env (e : environment) (w : world) : world :=
  {| env := e; db := db w; txs := txs w; next_id := next_id w;
     trace := trace w; sdp_reachable := sdp_reachable w |}.

(** The world [w] at the time [n]. *)
Definition at_time (n : nat) (w : world) : world :=
  with_env
    {| getConfig := getConfig (env w); oracle := oracle (env w);
       answer := answer (env w);
       findByEmail_answer := findByEmail_answer (env w);
       findPassword_answer := findPassword_answer (env w);
       findById_answer := findById_answer (env w);
       createFromAuth_answer := createFromAuth_answer (env w);
       bcrypt_hash := bcrypt_hash (env w);
       bcrypt_compare := bcrypt_compare (env w);
       unique_fields := unique_fields (env w); now := n |} w.

(** Oracles that fail one kind of call. *)
Definition fails_creation (c : call) : option error :=
  match c with
  | UserRepository_createFromAuth _ _ _ => Some (UniqueConstraintError "email")
  | _ => None
  end.

Definition fails_tenant (c : call) : option error :=
  match c with
  | TenantRepository_findById _ => Some (DatabaseError "tenant not found")
  | _ => None
  end.

Definition fails_default_tenant (c : call) : option error :=
  match c with
  | TenantService_joinDefaultUsingInvitedEmail _ =>
    Some (DatabaseError "no default tenant")
  | _ => None
  end.

(** Worlds in which one kind of call fails, and a world with a configured
    email sender. *)
Definition world_creation_fails : world :=
  with_env (with_oracle fails_creation env0) world0.

Definition world_tenant_fails : world :=
  with_env (with_mail (with_oracle fails_tenant env0)) world0.

Definition world_default_tenant_fails : world :=
  with_env (with_oracle fails_default_tenant (env world_single)) world_single.

Definition world_mail : world := with_env (with_mail env_auth) world_auth.

(** The world of [bob] in which no call fails. *)
Definition world_quiet : world :=
  with_env (with_oracle (λ _, None) env_auth) world_auth.

Definition eve : user :=
  {| user_id := 9; user_email := "eve@example.org"; user_firstName := "eve";
     emailVerified := true |}.

(** * Properties *)

(** ** The monad *)

Lemma transitions_app (l1 l2 : list event) :
  transitions (l1 ++ l2) = transitions l1 ++ transitions l2.
Proof. unfold transitions. apply List.filter_app. Qed.

Lemma scoped_refl t w : open_at t w → scoped t w w.
Proof.
  intros [ws Hws]. repeat split; auto.
  - exists ws, []. split; [done|]. rewrite app_nil_r.
    symmetry. by apply list_insert_id.
  - exists []. by rewrite app_nil_r.
Qed.

Lemma scoped_open t w w' : scoped t w w' → open_at t w'.
Proof.
  intros (_ & _ & _ & (ws & ws' & Hw & Hw') & _).
  exists (ws ++ ws'). rewrite Hw'. apply list_lookup_insert_eq.
  by eapply lookup_lt_Some.
Qed.

Lemma scoped_trans t w1 w2 w3 :
  scoped t w1 w2 → scoped t w2 w3 → scoped t w1 w3.
Proof.
  intros (He & Hd & Hn & (ws & ws' & Hw & Hw') & (evs & Ht & Hf))
         (He' & Hd' & Hn' & (vs & vs' & Hv & Hv') & (evs' & Ht' & Hf')).
  assert (vs = ws ++ ws') as ->.
  { rewrite Hw' in Hv. rewrite list_lookup_insert_eq in Hv; [congruence|].
    by eapply lookup_lt_Some. }
  repeat split; try congruence.
  - exists ws, (ws' ++ vs'). split; [done|].
    rewrite Hv', Hw', list_insert_insert_eq. by rewrite app_assoc.
  - exists (evs ++ evs'). rewrite Ht', Ht, app_assoc. split; [done|].
    by rewrite transitions_app, Hf, Hf'.
Qed.

Lemma scoped_committed t w1 w2 w3 :
  scoped t w1 w2 → committed_by t w2 w3 → committed_by t w1 w3.
Proof.
  intros (He & Hd & Hn & (ws & ws' & Hw & Hw') & (evs & Ht & Hf))
         (He' & Hn' & (vs & vs' & Hv & Hv' & Hdb) & (evs' & Ht' & Hf')).
  assert (vs = ws ++ ws') as ->.
  { rewrite Hw' in Hv. rewrite list_lookup_insert_eq in Hv; [congruence|].
    by eapply lookup_lt_Some. }
  repeat split; try congruence.
  - exists ws, (ws' ++ vs'). split; [done|].
    rewrite Hv', Hw', list_insert_insert_eq, Hdb, Hd. by rewrite !app_assoc.
  - exists (evs ++ evs'). rewrite Ht', Ht, app_assoc. split; [done|].
    by rewrite transitions_app, Hf, Hf'.
Qed.

Section Scoped.
Context {A B : Type} (t : nat).

Lemma Scoped_ret (a : A) : Scoped t (ret a).
Proof. intros w Hw. by apply scoped_refl. Qed.

Lemma Scoped_throw (e : error) : Scoped t (throw (A := A) e).
Proof. intros w Hw. by apply scoped_refl. Qed.

Lemma Scoped_bind (m : M A) (k : A → M B) :
  Scoped t m → (∀ a, Scoped t (k a)) → Scoped t (bind m k).
Proof.
  intros Hm Hk w Hw. specialize (Hm w Hw). unfold bind.
  destruct (m w) as [[a|e] w1]; simpl in *; [|done].
  eapply scoped_trans; [done|]. apply Hk. by eapply scoped_open.
Qed.

Lemma Scoped_try_catch (m : M A) (h : error → M A) :
  Scoped t m → (∀ e, Scoped t (h e)) → Scoped t (try_catch m h).
Proof.
  intros Hm Hh w Hw. specialize (Hm w Hw). unfold try_catch.
  destruct (m w) as [[a|e] w1]; simpl in *; [done|].
  eapply scoped_trans; [done|]. apply Hh. by eapply scoped_open.
Qed.
End Scoped.

Lemma Scoped_emit t e : is_transition e = false → Scoped t (emit e).
Proof.
  intros He w [ws Hws]. repeat split; auto.
  - exists ws, []. split; [done|]. rewrite app_nil_r.
    symmetry. by apply list_insert_id.
  - exists [e]. split; [done|]. unfold transitions. simpl. by rewrite He.
Qed.

Lemma Scoped_read_env t : Scoped t read_env.
Proof. intros w Hw. by apply scoped_refl. Qed.

Lemma Scoped_read_view t tx : Scoped t (read_view tx).
Proof. intros w Hw. by apply scoped_refl. Qed.

Lemma Scoped_fresh_id t : Scoped t fresh_id.
Proof.
  intros w [ws Hws]. repeat split; auto.
  - exists ws, []. split; [done|]. rewrite app_nil_r.
    symmetry. by apply list_insert_id.
  - exists []. by rewrite app_nil_r.
Qed.

Lemma Scoped_issue t x : Scoped t (issue (Some t) x).
Proof.
  intros w [ws Hws]. unfold issue. rewrite Hws. repeat split; auto.
  - exists ws, [x]. done.
  - exists []. by rewrite app_nil_r.
Qed.

Lemma Scoped_invoke t tx c : Scoped t (invoke tx c).
Proof.
  unfold invoke. apply Scoped_bind; [by apply Scoped_emit|]. intros _.
  apply Scoped_bind; [apply Scoped_read_env|]. intros e.
  destruct (oracle e c); [apply Scoped_throw | apply Scoped_ret].
Qed.

Lemma Scoped_ask t tx c : Scoped t (ask tx c).
Proof.
  unfold ask. apply Scoped_bind; [apply Scoped_invoke|]. intros _.
  apply Scoped_bind; [apply Scoped_read_env|]. intros e. apply Scoped_ret.
Qed.

Lemma Scoped_for_of {A} t (l : list A) (body : A → M unit) :
  (∀ x, Scoped t (body x)) → Scoped t (for_of l body).
Proof.
  intros Hb. induction l as [|x l IH]; simpl.
  - apply Scoped_ret.
  - apply Scoped_bind; [apply Hb | intros _; apply IH].
Qed.

Create HintDb scoped.
#[local] Hint Resolve Scoped_ret Scoped_throw Scoped_read_env Scoped_read_view
  Scoped_fresh_id Scoped_issue Scoped_invoke Scoped_ask : scoped.
#[local] Hint Extern 2 (Scoped _ (bind _ _)) =>
  (apply Scoped_bind; [|intros ?]) : scoped.
#[local] Hint Extern 2 (Scoped _ (try_catch _ _)) =>
  (apply Scoped_try_catch; [|intros ?]) : scoped.
#[local] Hint Extern 2 (Scoped _ (emit _)) =>
  (apply Scoped_emit; reflexivity) : scoped.
#[local] Hint Extern 3 (Scoped _ (for_of _ _)) =>
  (apply Scoped_for_of; intros ?) : scoped.
#[local] Hint Extern 4 (Scoped _ (match ?x with _ => _ end)) =>
  destruct x : scoped.

(** Unfolds the collaborators down to the primitives of the monad. *)
Ltac open_collaborators :=
  unfold VisitorRepository.create, VisitorRepository.update,
    VisitorRepository.destroy, VisitorRepository.count,
    UserRepository.findByEmail, UserRepository.findPassword,
    UserRepository.findById, UserRepository.updatePassword,
    UserRepository.createFromAuth,
    UserRepository.generateEmailVerificationToken,
    TenantRepository.findById, tenantSubdomain.frontendUrl,
    EmailSender.isConfigured, EmailSender.sendTo,
    TenantUserRepository.acceptInvitation,
    TenantService.joinWithDefaultRolesOrAskApproval,
    TenantService.joinDefaultUsingInvitedEmail,
    TenantService.createOrJoinDefault,
    bcrypt.hash, bcrypt.compare, jwt.sign, jwt.verify,
    console_error, sdpService,
    SequelizeRepository.handleUniqueFieldError.

Ltac scoped := open_collaborators; simpl; auto 40 with scoped.

Lemma Scoped_VisitorRepository_create t data o :
  transaction o = Some t → Scoped t (VisitorRepository.create data o).
Proof. intros Ho. unfold VisitorRepository.create. rewrite Ho. scoped. Qed.

Lemma Scoped_VisitorRepository_update t id data o :
  transaction o = Some t → Scoped t (VisitorRepository.update id data o).
Proof. intros Ho. unfold VisitorRepository.update. rewrite Ho. scoped. Qed.

Lemma Scoped_VisitorRepository_destroy t id o :
  transaction o = Some t → Scoped t (VisitorRepository.destroy id o).
Proof. intros Ho. unfold VisitorRepository.destroy. rewrite Ho. scoped. Qed.

Lemma Scoped_sendEmailAddressVerificationEmail t language email tenantId o :
  Scoped t (AuthService.sendEmailAddressVerificationEmail
              language email tenantId o).
Proof. unfold AuthService.sendEmailAddressVerificationEmail. scoped. Qed.

Lemma Scoped_handleOnboard t u invitationToken tenantId o :
  Scoped t (AuthService.handleOnboard u invitationToken tenantId o).
Proof. unfold AuthService.handleOnboard. scoped. Qed.

Lemma Scoped_issue_token t u : Scoped t (issue_token u).
Proof. unfold issue_token. scoped. Qed.

(** ** Commit, rollback and the shape of a transactional operation *)

Lemma Terminal_commit t : Terminal t (SequelizeRepository.commitTransaction t).
Proof.
  intros w [ws Hws]. unfold SequelizeRepository.commitTransaction, invoke,
    bind, emit, read_env, throw, ret. simpl.
  destruct (oracle (env w) SequelizeRepository_commitTransaction) as [e|].
  - repeat split; auto.
    + exists ws, []. split; [done|]. rewrite app_nil_r.
      symmetry. by apply list_insert_id.
    + by eexists [_].
  - simpl. rewrite Hws. destruct (failed_in _ _ _); simpl.
    + repeat split; auto.
      * exists ws, []. split; [done|]. rewrite app_nil_r.
        symmetry. by apply list_insert_id.
      * by eexists [_].
    + repeat split; auto.
      * exists ws, []. by rewrite app_nil_r.
      * eexists [_; _]. simpl. by rewrite <-app_assoc.
Qed.

Lemma Terminal_bind {A B} t (m : M A) (k : A → M B) :
  Scoped t m → (∀ a, Terminal t (k a)) → Terminal t (bind m k).
Proof.
  intros Hm Hk w Hw. specialize (Hm w Hw). unfold bind.
  destruct (m w) as [[a|e] w1]; simpl in *; [|done].
  specialize (Hk a w1 (scoped_open _ _ _ Hm)).
  destruct (k a w1) as [[b|e] w2].
  - by eapply scoped_committed.
  - by eapply scoped_trans.
Qed.

Lemma Terminal_throw {A} t e : Terminal t (throw (A := A) e).
Proof. intros w Hw. by apply scoped_refl. Qed.

Lemma Terminal_then {A B} t (m : M A) (k : A → M B) :
  Terminal t m → (∀ a, Quiet (k a)) → Terminal t (bind m k).
Proof.
  intros Hm Hk w Hw. specialize (Hm w Hw). unfold bind.
  destruct (m w) as [[a|e] w1]; [|done].
  destruct (Hk a w1) as (b & evs & -> & Hevs).
  destruct Hm as (He & Hn & Htx & (evs' & Ht & Hf)).
  repeat split; auto. exists (evs' ++ evs). simpl.
  rewrite Ht, app_assoc. split; [done|].
  by rewrite transitions_app, Hf, Hevs.
Qed.

Lemma Quiet_ret {A} (a : A) : Quiet (ret a).
Proof.
  intros w. exists a, []. split; [|done]. unfold ret, set_trace.
  rewrite app_nil_r. by destruct w.
Qed.

Lemma Quiet_sdpService {A} r (a : A) : Quiet (sdpService r >> ret a).
Proof.
  intros w. exists a. eexists [_; _; _]. split.
  - unfold sdpService, bind, emit, ret. simpl. by rewrite <-!app_assoc.
  - done.
Qed.

Lemma Rethrow_throw {A} e : Rethrow (throw (A := A) e).
Proof. intros w. by exists e. Qed.

Lemma Rethrow_handleUniqueFieldError {A} e language entityName :
  Rethrow (SequelizeRepository.handleUniqueFieldError e language entityName
           >> throw (A := A) e).
Proof. intros w. destruct e; by eexists. Qed.

(** The shape shared by the transactional operations: create the unit of
    work, try the body, which commits before it returns; on any error roll
    back, then rethrow. *)
Lemma transactional_intro {A} (body : nat → M A) (h : error → M A) :
  (∀ t, Terminal t (body t)) → (∀ e, Rethrow (h e)) →
  transactional
    (let* transaction := SequelizeRepository.createTransaction in
     try_catch (body transaction)
       (λ error,
        SequelizeRepository.rollbackTransaction transaction >> h error)).
Proof.
  intros Hbody Hh w.
  unfold bind, try_catch, SequelizeRepository.createTransaction,
    SequelizeRepository.rollbackTransaction.
  set (t := length (txs w)).
  set (w0 := set_trace _ _).
  assert (txs w0 !! t = Some (Txn TxOpen [])) as Hopen.
  { simpl. by apply list_lookup_middle. }
  specialize (Hbody t w0 (ex_intro _ _ Hopen)).
  destruct (body t w0) as [[a|e] w1]; simpl.
  - destruct Hbody as (He & _ & (ws & ws' & Hw & Hw' & Hdb) & (evs & Ht & Hf)).
    assert (ws = []) as -> by congruence.
    split; [by rewrite He|].
    exists (Txn TxCommitted ws'), (EvCreateTransaction t :: evs).
    split; [|split].
    + rewrite Hw'. subst w0 t. simpl.
      by rewrite insert_app_r_alt, Nat.sub_diag.
    + rewrite Ht. subst w0. simpl. by rewrite <-app_assoc.
    + simpl. repeat split; [done|]. fold (transitions evs). by rewrite Hf.
  - destruct Hbody as (He & Hd & _ & (ws & ws' & Hw & Hw') & (evs & Ht & Hf)).
    assert (ws = []) as -> by congruence.
    assert (txs w1 !! t = Some (Txn TxOpen ws')) as Hopen1.
    { rewrite Hw'. apply list_lookup_insert_eq. by eapply lookup_lt_Some. }
    rewrite Hopen1.
    destruct (Hh e (set_trace (trace w1 ++ [EvRollback t])
                     (set_txs (<[t:=Txn TxRolledBack []]> (txs w1)) w1)))
      as (e' & Hhe). simpl in Hhe. rewrite Hhe. simpl.
    split; [by rewrite He|].
    exists (Txn TxRolledBack []), (EvCreateTransaction t :: evs ++ [EvRollback t]).
    split; [|split].
    + rewrite Hw', list_insert_insert_eq. subst w0 t. simpl.
      by rewrite insert_app_r_alt, Nat.sub_diag.
    + rewrite Ht. subst w0. simpl. by rewrite <-!app_assoc.
    + simpl. repeat split; [by rewrite Hd|].
      fold (transitions (evs ++ [EvRollback t])).
      by rewrite transitions_app, Hf.
Qed.

#[local] Hint Resolve Scoped_handleOnboard
  Scoped_sendEmailAddressVerificationEmail Scoped_issue_token : scoped.

Create HintDb terminal.
#[local] Hint Resolve Terminal_throw Terminal_commit Quiet_ret Quiet_sdpService
  Rethrow_throw Rethrow_handleUniqueFieldError
  Scoped_handleOnboard Scoped_sendEmailAddressVerificationEmail
  Scoped_issue_token : terminal.
#[local] Hint Extern 1 (Terminal _ (bind (SequelizeRepository.commitTransaction _) _)) =>
  (apply Terminal_then; [|intros ?]) : terminal.
#[local] Hint Extern 3 (Terminal _ (bind _ _)) =>
  (apply Terminal_bind; [|intros ?]) : terminal.
#[local] Hint Extern 4 (Terminal _ (match ?x with _ => _ end)) =>
  destruct x : terminal.
#[local] Hint Extern 5 (Scoped _ _) => solve [scoped] : terminal.

Ltac terminal := simpl; auto 40 with terminal.

Lemma create_transactional this data :
  transactional (VisitorService.create this data).
Proof.
  apply (transactional_intro
           (λ t, let* record := VisitorRepository.create data
                                  (with_transaction this t) in _) (λ e, _)).
  - intros t. apply Terminal_bind.
    + by apply Scoped_VisitorRepository_create.
    + intros r. terminal.
  - intros e. terminal.
Qed.

Lemma update_transactional this id data :
  transactional (VisitorService.update this id data).
Proof.
  apply (transactional_intro
           (λ t, let* record := VisitorRepository.update id data
                                  (with_transaction this t) in _) (λ e, _)).
  - intros t. apply Terminal_bind.
    + by apply Scoped_VisitorRepository_update.
    + intros r. terminal.
  - intros e. terminal.
Qed.

Lemma destroyAll_transactional this ids :
  transactional (VisitorService.destroyAll this ids).
Proof.
  apply (transactional_intro
           (λ t, for_of ids _ >> SequelizeRepository.commitTransaction t)
           (λ e, throw e)).
  - intros t. apply Terminal_bind.
    + apply Scoped_for_of. intros id.
      by apply Scoped_VisitorRepository_destroy.
    + intros _. terminal.
  - intros e. terminal.
Qed.

Lemma signup_transactional email password invitationToken tenantId o :
  transactional (AuthService.signup email password invitationToken tenantId o).
Proof.
  apply (transactional_intro
           (λ t, let* existingUser := UserRepository.findByEmail email o in _)
           (λ e, throw e)).
  - intros t. terminal.
  - intros e. terminal.
Qed.

Lemma signin_transactional email password invitationToken tenantId o :
  transactional (AuthService.signin email password invitationToken tenantId o).
Proof.
  apply (transactional_intro
           (λ t, let* user := UserRepository.findByEmail email o in _)
           (λ e, throw e)).
  - intros t. terminal.
  - intros e. terminal.
Qed.

(** C5: every transactional service operation (create, update, destroyAll,
    signup, signin) opens exactly one unit of work and drives it to exactly
    one terminal state before it returns or rethrows: committed when it
    returns, rolled back when it throws.  In the world in which the caller
    sees the error the rollback has already happened, and no unit of work is
    left open. *)
Theorem transactional_operations :
  (∀ this data, transactional (VisitorService.create this data)) ∧
  (∀ this id data, transactional (VisitorService.update this id data)) ∧
  (∀ this ids, transactional (VisitorService.destroyAll this ids)) ∧
  (∀ email password invitationToken tenantId o,
     transactional
       (AuthService.signup email password invitationToken tenantId o)) ∧
  (∀ email password invitationToken tenantId o,
     transactional
       (AuthService.signin email password invitationToken tenantId o)).
Proof.
  split; [|split; [|split; [|split]]]; intros.
  - apply create_transactional.
  - apply update_transactional.
  - apply destroyAll_transactional.
  - apply signup_transactional.
  - apply signin_transactional.
Qed.

(** ** destroyAll *)

Lemma destroyed_app l1 l2 : destroyed (l1 ++ l2) = destroyed l1 ++ destroyed l2.
Proof. apply omap_app. Qed.

Lemma apply_writes_app s l1 l2 :
  apply_writes s (l1 ++ l2) = apply_writes (apply_writes s l1) l2.
Proof. apply foldl_app. Qed.

Lemma apply_deletes (ids : list nat) : ∀ (s : store) (id : nat),
  apply_writes s (DelVisitor <$> ids) !! id =
  if decide (id ∈ ids) then None else s !! id.
Proof.
  induction ids as [|i ids IH]; intros s id.
  - done.
  - change (apply_writes s (DelVisitor <$> i :: ids))
      with (apply_writes (delete i s) (DelVisitor <$> ids)).
    rewrite IH.
    destruct (decide (id ∈ ids)) as [Hin|Hin],
      (decide (id ∈ i :: ids)) as [Hin'|Hin'].
    + done.
    + exfalso. apply Hin'. by apply list_elem_of_further.
    + apply elem_of_cons in Hin' as [->|Hin']; [|done].
      apply lookup_delete_eq.
    + apply lookup_delete_ne. intros ->. apply Hin'. apply list_elem_of_here.
Qed.

(** One [destroy] inside the open unit of work [t]. *)
Lemma destroy_step this t id w ws :
  txs w !! t = Some (Txn TxOpen ws) →
  VisitorRepository.destroy id (with_transaction this t) w =
    let w1 := set_trace
                (trace w ++ [EvCall (Some t) (VisitorRepository_destroy id)])
                w in
    match oracle (env w) (VisitorRepository_destroy id) with
    | Some e => (Throw e, w1)
    | None =>
      match apply_writes (db w) ws !! id with
      | None => (Throw (Error404 (language this)), w1)
      | Some _ =>
        (Ok tt,
         set_txs (<[t := Txn TxOpen (ws ++ [DelVisitor id])]> (txs w)) w1)
      end
    end.
Proof.
  intros Hws. unfold VisitorRepository.destroy, invoke, bind, emit, read_env,
    read_view, throw, ret, issue, view. simpl.
  destruct (oracle (env w) (VisitorRepository_destroy id)); [done|].
  simpl. rewrite Hws.
  destruct (apply_writes (db w) ws !! id); [|done].
  simpl. by rewrite Hws.
Qed.

(** The guard of the commit, along the trace. *)
Lemma failed_in_app e t l1 l2 :
  failed_in e t (l1 ++ l2) = foldl (failed_step e t) (failed_in e t l1) l2.
Proof. apply foldl_app. Qed.

Lemma failed_in_snoc e t evs ev :
  failed_in e t (evs ++ [ev]) = failed_step e t (failed_in e t evs) ev.
Proof. by rewrite failed_in_app. Qed.

Lemma failed_in_created e t evs :
  failed_in e t (evs ++ [EvCreateTransaction t]) = false.
Proof. rewrite failed_in_snoc. simpl. by rewrite Nat.eqb_refl. Qed.

Lemma failed_step_call e t b tx c :
  oracle e c = None → failed_step e t b (EvCall tx c) = b.
Proof.
  intros Ho. destruct tx as [t'|]; simpl; [|done].
  destruct (Nat.eqb t' t); [|done].
  rewrite Ho, bool_decide_false; [by rewrite orb_false_r|].
  by intros [? [=]].
Qed.

Lemma failed_in_call e t evs tx c :
  oracle e c = None →
  failed_in e t (evs ++ [EvCall tx c]) = failed_in e t evs.
Proof. intros Ho. by rewrite failed_in_snoc, failed_step_call. Qed.



Lemma failed_in_no_failure e t evs :
  no_failure e → failed_in e t evs = false.
Proof.
  intros Hno. induction evs as [|ev evs IH] using rev_ind; [done|].
  rewrite failed_in_snoc, IH.
  destruct ev as [t'| | |tx c| | | |]; try done.
  - simpl. by destruct (Nat.eqb t' t).
  - by apply failed_step_call.
Qed.

Lemma failed_in_destroy_calls e t b (ids : list nat) :
  (∀ id, id ∈ ids → oracle e (VisitorRepository_destroy id) = None) →
  foldl (failed_step e t) b
    ((λ id, EvCall (Some t) (VisitorRepository_destroy id)) <$> ids) = b.
Proof.
  revert b. induction ids as [|id ids IH]; intros b Hids; [done|].
  change (foldl (failed_step e t)
            (failed_step e t b
               (EvCall (Some t) (VisitorRepository_destroy id)))
            ((λ id, EvCall (Some t) (VisitorRepository_destroy id)) <$> ids)
          = b).
  rewrite failed_step_call by (apply Hids, list_elem_of_here).
  apply IH. intros i Hi. by apply Hids, list_elem_of_further.
Qed.

(** The deletions that do not fail are made by calls that do not fail. *)
Lemma destroy_failure_calls e language (ids : list nat) : ∀ s,
  destroy_failure e language s ids = None →
  ∀ id, id ∈ ids → oracle e (VisitorRepository_destroy id) = None.
Proof.
  induction ids as [|i ids IH]; intros s Hf id Hid.
  - by apply elem_of_nil in Hid.
  - simpl in Hf.
    destruct (oracle e (VisitorRepository_destroy i)) eqn:Ho; [done|].
    destruct (s !! i); [|done].
    destruct (destroy_failure e language (delete i s) ids) as [[k err]|] eqn:Hf';
      [done|].
    apply elem_of_cons in Hid as [->|Hid]; [done|]. by eapply IH.
Qed.

(** The loop of [destroyAll], inside the open unit of work [t]: it throws at
    the first deletion that fails, with its error, the calls made being those
    for the ids up to that one, in order; otherwise it completes, and the
    deletions of all of [ids] have been issued in [t], and nothing else. *)
Lemma destroy_loop this t (ids : list nat) : ∀ w ws r w',
  txs w !! t = Some (Txn TxOpen ws) →
  for_of ids (λ id, VisitorRepository.destroy id (with_transaction this t)) w
    = (r, w') →
  ∃ k ws',
    trace w' = trace w ++ ((λ id, EvCall (Some t) (VisitorRepository_destroy id))
                             <$> take k ids) ∧
    txs w' = <[t := Txn TxOpen (ws ++ ws')]> (txs w) ∧
    match destroy_failure (env w) (language this) (apply_writes (db w) ws) ids,
          r with
    | None, Ok _ => k = length ids ∧ ws' = DelVisitor <$> ids
    | Some (k', e), Throw e' => k' = k ∧ e' = e
    | _, _ => False
    end.
Proof.
  induction ids as [|id ids IH]; intros w ws r w' Hws Hrun; simpl in Hrun.
  - injection Hrun as <- <-. exists 0, []. simpl. rewrite !app_nil_r.
    split; [done|]. split; [|done]. symmetry. by apply list_insert_id.
  - unfold bind in Hrun. rewrite (destroy_step _ _ _ _ _ Hws) in Hrun.
    simpl in Hrun. simpl destroy_failure.
    destruct (oracle (env w) (VisitorRepository_destroy id)).
    { injection Hrun as <- <-. exists 1, []. simpl. rewrite app_nil_r.
      split; [done|]. split; [|done]. symmetry. by apply list_insert_id. }
    destruct (apply_writes (db w) ws !! id).
    2:{ injection Hrun as <- <-. exists 1, []. simpl. rewrite app_nil_r.
        split; [done|]. split; [|done]. symmetry. by apply list_insert_id. }
    eapply IH in Hrun as (k & ws' & Ht & Htx & Hr).
    2:{ simpl. apply list_lookup_insert_eq. by eapply lookup_lt_Some. }
    exists (S k), (DelVisitor id :: ws'). rewrite Ht, Htx. simpl.
    rewrite <-!app_assoc, list_insert_insert_eq. simpl.
    split; [done|]. split; [done|].
    simpl in Hr. rewrite apply_writes_app in Hr. simpl in Hr.
    destruct (destroy_failure _ _ _ ids) as [[k' e]|], r as [[]|e'];
      try done.
    + destruct Hr as [-> ->]. done.
    + destruct Hr as [-> ->]. done.
Qed.

Lemma commit_step t w ws :
  txs w !! t = Some (Txn TxOpen ws) →
  SequelizeRepository.commitTransaction t w =
    let w1 := set_trace
                (trace w ++ [EvCall (Some t) SequelizeRepository_commitTransaction])
                w in
    match oracle (env w) SequelizeRepository_commitTransaction with
    | Some e => (Throw e, w1)
    | None =>
      if failed_in (env w) t (trace w) then
        (Throw (DatabaseError "an operation inside the transaction failed"),
         w1)
      else
        (Ok tt,
         set_trace (trace w1 ++ [EvCommit t])
           (set_txs (<[t := Txn TxCommitted ws]> (txs w))
              (set_db (apply_writes (db w) ws) w1)))
    end.
Proof.
  intros Hws. unfold SequelizeRepository.commitTransaction, invoke, bind,
    emit, read_env, throw, ret. simpl.
  destruct (oracle (env w) SequelizeRepository_commitTransaction) eqn:Ho;
    [done|].
  simpl. rewrite Hws, failed_in_call by done.
  by destruct (failed_in (env w) t (trace w)).
Qed.

Lemma rollback_step t w ws :
  txs w !! t = Some (Txn TxOpen ws) →
  SequelizeRepository.rollbackTransaction t w =
    (Ok tt, set_trace (trace w ++ [EvRollback t])
              (set_txs (<[t := Txn TxRolledBack []]> (txs w)) w)).
Proof.
  intros Hws. unfold SequelizeRepository.rollbackTransaction. by rewrite Hws.
Qed.

Lemma destroyed_calls t (ids : list nat) :
  destroyed ((λ id, EvCall (Some t) (VisitorRepository_destroy id)) <$> ids)
  = ids.
Proof. induction ids as [|i ids IH]; [done|]. simpl. by f_equal. Qed.

Lemma transitions_calls t (ids : list nat) :
  transitions ((λ id, EvCall (Some t) (VisitorRepository_destroy id)) <$> ids)
  = [].
Proof. induction ids as [|i ids IH]; [done|]. apply IH. Qed.

(** C2: [destroyAll(ids)] opens a single unit of work and deletes the
    records one after the other in the order given.  When no deletion fails
    and the commit does not, it returns: the unit of work is committed, a
    [destroy] call has been made for each of [ids], in order, and none of
    [ids] is left among the committed rows (no other row is touched).  When
    a deletion fails, or the commit, it throws that failure: the [destroy]
    calls made are those up to the failing one, the unit of work is rolled
    back, and the committed rows are exactly those from before the call.  No
    state with only some of [ids] deleted is ever what the operation leaves
    behind. *)
Theorem destroyAll_all_or_nothing this ids w :
  let '(r, w') := VisitorService.destroyAll this ids w in
  let t := length (txs w) in
  ∃ x evs,
    txs w' = txs w ++ [x] ∧
    trace w' = trace w ++ evs ∧
    match destroyAll_failure this ids w, r with
    | None, Ok _ =>
      tx_status x = TxCommitted ∧
      transitions evs = [EvCreateTransaction t; EvCommit t] ∧
      destroyed evs = ids ∧
      (∀ id, id ∈ ids → db w' !! id = None) ∧
      (∀ id, id ∉ ids → db w' !! id = db w !! id)
    | Some (k, e), Throw e' =>
      e' = e ∧
      tx_status x = TxRolledBack ∧
      transitions evs = [EvCreateTransaction t; EvRollback t] ∧
      destroyed evs = take k ids ∧
      db w' = db w
    | _, _ => False
    end.
Proof.
  unfold VisitorService.destroyAll, SequelizeRepository.createTransaction.
  unfold bind at 1, try_catch. set (t := length (txs w)). set (w0 := set_trace _ _).
  assert (txs w0 !! t = Some (Txn TxOpen [])) as Hopen.
  { simpl. by apply list_lookup_middle. }
  unfold bind at 1.
  destruct (for_of ids _ w0) as [r1 w1] eqn:Hloop.
  pose proof (Scoped_for_of t ids _
                (λ id, Scoped_VisitorRepository_destroy t id
                         (with_transaction this t) eq_refl)
                w0 (ex_intro _ _ Hopen)) as Hsc.
  rewrite Hloop in Hsc. simpl in Hsc.
  destruct Hsc as (He & Hd & _ & _ & _).
  destruct (destroy_loop _ _ _ _ _ _ _ Hopen Hloop) as (k & ws' & Ht & Htx & Hr).
  simpl in Htx, Hr.
  assert (txs w1 !! t = Some (Txn TxOpen ws')) as Hopen1.
  { rewrite Htx. apply list_lookup_insert_eq. by eapply lookup_lt_Some. }
  assert (∀ x, <[t := x]> (txs w1) = txs w ++ [x]) as Hins.
  { intros x. rewrite Htx, list_insert_insert_eq. subst w0 t. simpl.
    by rewrite insert_app_r_alt, Nat.sub_diag. }
  unfold destroyAll_failure.
  destruct (destroy_failure (env w) (language this) (db w) ids)
    as [[k' e]|] eqn:Hf, r1 as [[]|e1]; try done.
  - destruct Hr as [-> ->].
    unfold bind. rewrite (rollback_step t _ ws') by done.
    simpl. eexists _, _. rewrite Hins.
    split; [done|]. rewrite Ht. subst w0. simpl. rewrite <-!app_assoc.
    split; [done|]. simpl.
    rewrite transitions_app, destroyed_app, destroyed_calls, transitions_calls.
    split; [done|]. split; [done|]. split; [done|].
    split; [by rewrite app_nil_r|]. by rewrite Hd.
  - destruct Hr as [-> ->]. rewrite firstn_all in Ht.
    rewrite (commit_step _ _ _ Hopen1). simpl in He. simpl. rewrite He.
    assert (failed_in (env w) t (trace w1) = false) as ->.
    { rewrite Ht. subst w0. simpl.
      rewrite failed_in_app, failed_in_created.
      apply failed_in_destroy_calls. by eapply destroy_failure_calls. }
    destruct (oracle (env w) SequelizeRepository_commitTransaction) as [e|].
    + unfold bind. rewrite (rollback_step t _ (DelVisitor <$> ids)) by done.
      simpl. eexists _, _. rewrite Hins.
      split; [done|]. rewrite Ht. subst w0. simpl. rewrite <-!app_assoc.
      split; [done|]. simpl.
      rewrite transitions_app, destroyed_app, firstn_all, destroyed_calls,
        transitions_calls.
      split; [done|]. split; [done|]. split; [done|].
      split; [by rewrite app_nil_r|]. by rewrite Hd.
    + eexists _, _. rewrite Hins.
      split; [done|]. rewrite Ht. subst w0. simpl. rewrite <-!app_assoc.
      split; [done|]. simpl.
      rewrite transitions_app, destroyed_app, destroyed_calls,
        transitions_calls, Hd.
      split; [done|]. split; [done|].
      split; [by rewrite app_nil_r|]. simpl.
      split; intros id Hid; rewrite apply_deletes; by case_decide.
Qed.

(** ** create and update *)

(** One [VisitorRepository.create] inside the open unit of work [t]. *)
Lemma create_step this t data w ws :
  txs w !! t = Some (Txn TxOpen ws) →
  VisitorRepository.create data (with_transaction this t) w =
    let w1 := set_trace
                (trace w ++ [EvCall (Some t) (VisitorRepository_create data)])
                w in
    match oracle (env w) (VisitorRepository_create data) with
    | Some e => (Throw e, w1)
    | None =>
      match VisitorRepository.violated (unique_fields (env w)) None data
              (apply_writes (db w) ws) with
      | Some path => (Throw (UniqueConstraintError path), w1)
      | None =>
        (Ok (Record_ (next_id w) data),
         set_txs (<[t := Txn TxOpen (ws ++ [PutVisitor (next_id w) data])]>
                    (txs w))
           (set_next_id (S (next_id w)) w1))
      end
    end.
Proof.
  intros Hws. unfold VisitorRepository.create, invoke, bind, emit, read_env,
    read_view, fresh_id, throw, ret, issue, view. simpl.
  destruct (oracle (env w) (VisitorRepository_create data)); [done|].
  simpl. rewrite Hws.
  destruct (VisitorRepository.violated _ _ _ _); [done|].
  simpl. by rewrite Hws.
Qed.

(** One [VisitorRepository.update] inside the open unit of work [t]. *)
Lemma update_step this t id data w ws :
  txs w !! t = Some (Txn TxOpen ws) →
  VisitorRepository.update id data (with_transaction this t) w =
    let w1 := set_trace
                (trace w ++ [EvCall (Some t) (VisitorRepository_update id data)])
                w in
    match oracle (env w) (VisitorRepository_update id data) with
    | Some e => (Throw e, w1)
    | None =>
      match apply_writes (db w) ws !! id with
      | None => (Throw (Error404 (language this)), w1)
      | Some old =>
        match VisitorRepository.violated (unique_fields (env w)) (Some id)
                data (apply_writes (db w) ws) with
        | Some path => (Throw (UniqueConstraintError path), w1)
        | None =>
          (Ok (Record_ id (data ∪ old)),
           set_txs (<[t := Txn TxOpen (ws ++ [PutVisitor id (data ∪ old)])]>
                      (txs w)) w1)
        end
      end
    end.
Proof.
  intros Hws. unfold VisitorRepository.update, invoke, bind, emit, read_env,
    read_view, throw, ret, issue, view. simpl.
  destruct (oracle (env w) (VisitorRepository_update id data)); [done|].
  simpl. rewrite Hws.
  destruct (apply_writes (db w) ws !! id); [|done].
  destruct (VisitorRepository.violated _ _ _ _); [done|].
  simpl. by rewrite Hws.
Qed.

Lemma handle_then_throw {A} e language entityName w :
  (SequelizeRepository.handleUniqueFieldError e language entityName
   >> throw (A := A) e) w
  = (Throw (resignalled language entityName e), w).
Proof. by destruct e. Qed.

Lemma snoc_insert_last {A} (l : list A) (x y : A) :
  <[length l := y]> (l ++ [x]) = l ++ [y].
Proof. by rewrite insert_app_r_alt, Nat.sub_diag. Qed.

Lemma snoc_lookup_last {A} (l : list A) (x : A) :
  (l ++ [x]) !! length l = Some x.
Proof. by apply list_lookup_middle. Qed.

(** [create] when the persistence layer does not fail. *)
Lemma create_ok this data w :
  create_failure data w = None →
  VisitorService.create this data w =
    let r := Record_ (next_id w) data in
    (Ok r,
     {| env := env w; db := <[next_id w := data]> (db w);
        txs := txs w ++ [Txn TxCommitted [PutVisitor (next_id w) data]];
        next_id := S (next_id w);
        trace := trace w ++ create_events (length (txs w)) r;
        sdp_reachable := sdp_reachable w |}).
Proof.
  unfold create_failure, VisitorService.create,
    SequelizeRepository.createTransaction.
  unfold bind at 1, try_catch. unfold bind at 1.
  erewrite create_step by apply snoc_lookup_last. simpl.
  destruct (oracle (env w) (VisitorRepository_create data)) as [e|] eqn:Ho;
    [done|].
  destruct (VisitorRepository.violated _ _ _ _) as [path|]; [done|].
  intros Hcommit. unfold bind at 1.
  erewrite commit_step
    by (simpl; rewrite snoc_insert_last; apply snoc_lookup_last).
  simpl. rewrite Hcommit, failed_in_call, failed_in_created by done.
  unfold sdpService, bind, emit, ret. simpl.
  rewrite !snoc_insert_last, <-!app_assoc. done.
Qed.

(** [create] when the persistence layer fails with [e]. *)
Lemma create_fail this data w e :
  create_failure data w = Some e →
  ∃ evs n,
    VisitorService.create this data w =
      (Throw (resignalled (language this) "visitor" e),
       {| env := env w; db := db w;
          txs := txs w ++ [Txn TxRolledBack []];
          next_id := n;
          trace := trace w ++ evs;
          sdp_reachable := sdp_reachable w |}) ∧
    notified evs = [].
Proof.
  unfold create_failure, VisitorService.create,
    SequelizeRepository.createTransaction.
  unfold bind at 1, try_catch. unfold bind at 1.
  erewrite create_step by apply snoc_lookup_last. simpl.
  destruct (oracle (env w) (VisitorRepository_create data)) as [e1|].
  { intros [= ->]. unfold bind at 1.
    erewrite rollback_step by apply snoc_lookup_last.
    rewrite handle_then_throw. simpl.
    rewrite !snoc_insert_last, <-!app_assoc. by eexists _, _. }
  destruct (VisitorRepository.violated _ _ _ _) as [path|].
  { intros [= <-]. unfold bind at 1.
    erewrite rollback_step by apply snoc_lookup_last.
    rewrite handle_then_throw. simpl.
    rewrite !snoc_insert_last, <-!app_assoc. by eexists _, _. }
  intros Hcommit. unfold bind at 1.
  erewrite commit_step
    by (simpl; rewrite snoc_insert_last; apply snoc_lookup_last).
  simpl. rewrite Hcommit. unfold bind at 1.
  erewrite rollback_step
    by (simpl; rewrite snoc_insert_last; apply snoc_lookup_last).
  rewrite handle_then_throw. simpl.
  rewrite !snoc_insert_last, <-!app_assoc. by eexists _, _.
Qed.

(** [update] when the persistence layer does not fail. *)
Lemma update_ok this id data w :
  update_failure this id data w = None →
  ∃ old evs,
    db w !! id = Some old ∧
    VisitorService.update this id data w =
      (Ok (Record_ id (data ∪ old)),
       {| env := env w; db := <[id := data ∪ old]> (db w);
          txs := txs w ++ [Txn TxCommitted [PutVisitor id (data ∪ old)]];
          next_id := next_id w;
          trace := trace w ++ evs;
          sdp_reachable := sdp_reachable w |}).
Proof.
  unfold update_failure, VisitorService.update,
    SequelizeRepository.createTransaction.
  unfold bind at 1, try_catch. unfold bind at 1.
  erewrite update_step by apply snoc_lookup_last. simpl.
  destruct (oracle (env w) (VisitorRepository_update id data)) as [e|] eqn:Ho;
    [done|].
  destruct (db w !! id) as [old|]; [|done].
  destruct (VisitorRepository.violated _ _ _ _) as [path|]; [done|].
  intros Hcommit. unfold bind at 1.
  erewrite commit_step
    by (simpl; rewrite snoc_insert_last; apply snoc_lookup_last).
  simpl. rewrite Hcommit, failed_in_call, failed_in_created by done.
  unfold ret. simpl.
  rewrite !snoc_insert_last, <-!app_assoc. by eexists _, _.
Qed.

(** [update] when the persistence layer fails with [e]. *)
Lemma update_fail this id data w e :
  update_failure this id data w = Some e →
  ∃ evs,
    VisitorService.update this id data w =
      (Throw (resignalled (language this) "visitor" e),
       {| env := env w; db := db w;
          txs := txs w ++ [Txn TxRolledBack []];
          next_id := next_id w;
          trace := trace w ++ evs;
          sdp_reachable := sdp_reachable w |}).
Proof.
  unfold update_failure, VisitorService.update,
    SequelizeRepository.createTransaction.
  unfold bind at 1, try_catch. unfold bind at 1.
  erewrite update_step by apply snoc_lookup_last. simpl.
  destruct (oracle (env w) (VisitorRepository_update id data)) as [e1|].
  { intros [= ->]. unfold bind at 1.
    erewrite rollback_step by apply snoc_lookup_last.
    rewrite handle_then_throw. simpl.
    rewrite !snoc_insert_last, <-!app_assoc. by eexists. }
  destruct (db w !! id) as [old|].
  2:{ intros [= <-]. unfold bind at 1.
      erewrite rollback_step by apply snoc_lookup_last.
      rewrite handle_then_throw. simpl.
      rewrite !snoc_insert_last, <-!app_assoc. by eexists. }
  destruct (VisitorRepository.violated _ _ _ _) as [path|].
  { intros [= <-]. unfold bind at 1.
    erewrite rollback_step by apply snoc_lookup_last.
    rewrite handle_then_throw. simpl.
    rewrite !snoc_insert_last, <-!app_assoc. by eexists. }
  intros Hcommit. unfold bind at 1.
  erewrite commit_step
    by (simpl; rewrite snoc_insert_last; apply snoc_lookup_last).
  simpl. rewrite Hcommit. unfold bind at 1.
  erewrite rollback_step
    by (simpl; rewrite snoc_insert_last; apply snoc_lookup_last).
  rewrite handle_then_throw. simpl.
  rewrite !snoc_insert_last, <-!app_assoc. by eexists.
Qed.

(** C4: [create(data)] and [update(id, data)].  When the persistence layer
    does not fail, the unit of work is committed and the persisted record is
    returned.  When it fails, in whatever way, the unit of work is rolled
    back (the rollback is its only transition after its creation, and the
    committed rows are as before), and what the caller gets is: for a
    uniqueness violation, the validation error for the language of the
    request whose message key names the entity and the violated field; for
    any other failure, that failure itself. *)
Theorem create_update_contract this id data w :
  (let '(r, w') := VisitorService.create this data w in
   unit_of_work w r w' ∧
   match create_failure data w, r with
   | None, Ok record =>
     rec_attrs record = data ∧
     db w' = <[rec_id record := rec_attrs record]> (db w)
   | Some e, Throw e' =>
     e' = match e with
          | UniqueConstraintError path =>
            Error400 (language this)
              ("entities.visitor.errors.unique." +:+ path) []
          | _ => e
          end
   | _, _ => False
   end) ∧
  (let '(r, w') := VisitorService.update this id data w in
   unit_of_work w r w' ∧
   match update_failure this id data w, r with
   | None, Ok record =>
     rec_id record = id ∧
     (∃ old, db w !! id = Some old ∧ rec_attrs record = data ∪ old) ∧
     db w' = <[rec_id record := rec_attrs record]> (db w)
   | Some e, Throw e' =>
     e' = match e with
          | UniqueConstraintError path =>
            Error400 (language this)
              ("entities.visitor.errors.unique." +:+ path) []
          | _ => e
          end
   | _, _ => False
   end).
Proof.
  split.
  - pose proof (create_transactional this data w) as Huow.
    destruct (create_failure data w) as [e|] eqn:Hf.
    + destruct (create_fail this _ _ _ Hf) as (evs & n & Hrun & _).
      rewrite Hrun in *. split; [done|]. by destruct e.
    + rewrite (create_ok this _ _ Hf) in *. by split.
  - pose proof (update_transactional this id data w) as Huow.
    destruct (update_failure this id data w) as [e|] eqn:Hf.
    + destruct (update_fail _ _ _ _ _ Hf) as (evs & Hrun).
      rewrite Hrun in *. split; [done|]. by destruct e.
    + destruct (update_ok _ _ _ _ Hf) as (old & evs & Hold & Hrun).
      rewrite Hrun in *. split; [done|]. simpl. eauto.
Qed.


(** ** import *)

Lemma count_positive (s : store) (h : string) id row :
  s !! id = Some row → row !! "importHash" = Some h →
  0 < size (filter (λ kv, kv.2 !! "importHash" = Some h) s).
Proof.
  intros Hid Hrow.
  assert (filter (λ kv : nat * gmap string string,
                    kv.2 !! "importHash" = Some h) s !! id = Some row) as Hf.
  { by apply map_lookup_filter_Some. }
  destruct (size _) eqn:Hsize; [|lia].
  apply map_size_empty_iff in Hsize. rewrite Hsize in Hf.
  by rewrite lookup_empty in Hf.
Qed.

Lemma count_run h this w :
  VisitorRepository.count h this w =
    let w1 := set_trace
                (trace w ++ [EvCall (transaction this) (VisitorRepository_count h)])
                w in
    match oracle (env w) (VisitorRepository_count h) with
    | Some e => (Throw e, w1)
    | None =>
      (Ok (size (filter (λ kv, kv.2 !! "importHash" = Some h)
                   (view (transaction this) w))), w1)
    end.
Proof.
  unfold VisitorRepository.count, invoke, bind, emit, read_env, read_view,
    throw, ret. simpl.
  destruct (oracle (env w) (VisitorRepository_count h)); [done|].
  simpl. repeat f_equal.
Qed.

(** C3: [import(data, importHash)].  Without an import hash ([null],
    [undefined] or the empty string) it throws the validation error of key
    [importer.errors.importHashRequired] ("Import hash is required"),
    whatever [data] is, and does nothing else.  With one, it counts the
    records of that hash: if the count is positive it throws the validation
    error of key [importer.errors.importHashExistent] ("Data has already been
    imported"), whatever [data] is; if it is zero it is [create] applied to
    [data] with the [importHash] attribute set.  The count is positive as
    soon as a committed record carries the hash; so it is after an import
    under that hash has returned, and a second import under it fails, also
    with other data. *)
Theorem import_contract this data importHash w :
  (truthy importHash = false →
   VisitorService.import this data importHash w =
     (Throw (Error400 (language this) "importer.errors.importHashRequired" []),
      w)) ∧
  (∀ h n w1,
     importHash = Some h → truthy importHash = true →
     VisitorRepository.count h this w = (Ok n, w1) →
     VisitorService.import this data importHash w =
       if bool_decide (0 < n) then
         (Throw (Error400 (language this)
                   "importer.errors.importHashExistent" []), w1)
       else VisitorService.create this (<["importHash" := h]> data) w1) ∧
  (∀ h id row,
     importHash = Some h → truthy importHash = true →
     transaction this = None →
     oracle (env w) (VisitorRepository_count h) = None →
     db w !! id = Some row → row !! "importHash" = Some h →
     (VisitorService.import this data importHash w).1 =
       Throw (Error400 (language this)
                "importer.errors.importHashExistent" [])) ∧
  (∀ h record w1 data2,
     importHash = Some h → transaction this = None →
     oracle (env w) (VisitorRepository_count h) = None →
     VisitorService.import this data importHash w = (Ok record, w1) →
     (VisitorService.import this data2 importHash w1).1 =
       Throw (Error400 (language this)
                "importer.errors.importHashExistent" [])) ∧
  en "importer.errors.importHashRequired" = Some "Import hash is required" ∧
  en "importer.errors.importHashExistent"
    = Some "Data has already been imported".
Proof.
  assert (∀ h data' w', truthy (Some h) = true →
            VisitorService.import this data' (Some h) w' =
            match VisitorRepository.count h this w' with
            | (Ok n, w1) =>
              if bool_decide (0 < n) then
                (Throw (Error400 (language this)
                          "importer.errors.importHashExistent" []), w1)
              else VisitorService.create this (<["importHash" := h]> data') w1
            | (Throw e, w1) => (Throw e, w1)
            end) as Himport.
  { intros h data' w' Hh. unfold VisitorService.import. rewrite Hh. simpl.
    unfold VisitorService._isImportHashExistent. unfold bind at 1 2.
    destruct (VisitorRepository.count h this w') as [[n|e] w1]; [|done].
    unfold ret. by destruct (bool_decide (0 < n)). }
  assert (∀ h data' w' id row, truthy (Some h) = true →
            transaction this = None →
            oracle (env w') (VisitorRepository_count h) = None →
            db w' !! id = Some row → row !! "importHash" = Some h →
            (VisitorService.import this data' (Some h) w').1 =
              Throw (Error400 (language this)
                       "importer.errors.importHashExistent" [])) as Hexists.
  { intros h data' w' id row Hh Htx Ho Hid Hrow.
    rewrite Himport, count_run, Ho, Htx by done. simpl.
    by rewrite bool_decide_true by by eapply count_positive. }
  split; [|split; [|split; [|split; [|done]]]].
  - unfold VisitorService.import. intros ->. by destruct importHash.
  - intros h n w1 -> Hh Hcount. by rewrite Himport, Hcount.
  - intros h id row -> Hh. by apply Hexists.
  - intros h record w1 data2 -> Htx Ho Hrun.
    assert (truthy (Some h) = true) as Hh.
    { unfold VisitorService.import in Hrun.
      by destruct (truthy (Some h)). }
    rewrite Himport, count_run, Ho in Hrun by done.
    cbv beta iota zeta in Hrun.
    destruct (bool_decide (0 < _)); [done|].
    match type of Hrun with
    | VisitorService.create _ ?d ?w0 = _ =>
      destruct (create_failure d w0) as [e|] eqn:Hf;
      [destruct (create_fail this _ _ _ Hf) as (? & ? & Hrun' & _)
      |pose proof (create_ok this _ _ Hf) as Hrun']
    end; rewrite Hrun' in Hrun; [done|].
    injection Hrun as <- <-.
    eapply Hexists; try done.
    + simpl. apply lookup_insert_eq.
    + apply lookup_insert_eq.
Qed.

(** ** AuthService *)

Lemma invoke_run tx c w :
  invoke tx c w =
    (match oracle (env w) c with Some e => Throw e | None => Ok tt end,
     set_trace (trace w ++ [EvCall tx c]) w).
Proof.
  unfold invoke, bind, emit, read_env, throw, ret. simpl.
  by destruct (oracle (env w) c).
Qed.

(** C8: for a token that verifies and whose decoded [id] the user repository
    resolves to a user, when the email sender is not configured
    [findByToken] returns that user with [emailVerified] set to [true],
    whatever the verification status the repository reported; nothing is
    written to the store. *)
Theorem findByToken_skips_email_verification t o w decoded u :
  (jwt.verify t (AUTH_JWT_SECRET (getConfig (env w))) w).1 = Ok decoded →
  oracle (env w) (UserRepository_findById (get_id decoded)) = None →
  findById_answer (env w) (get_id decoded) = Some u →
  EmailSender_isConfigured (getConfig (env w)) = false →
  (AuthService.findByToken t o w).1 =
    Ok (Some {| user_id := user_id u; user_email := user_email u;
                user_firstName := user_firstName u;
                emailVerified := true |}) ∧
  db (AuthService.findByToken t o w).2 = db w.
Proof.
  intros Hverify Ho Hu Hc.
  destruct (AuthService.findByToken t o w) as [r w'] eqn:Hrun.
  unfold AuthService.findByToken, jwt.verify, UserRepository.findById,
    EmailSender.isConfigured, invoke, emit, bind, read_env, throw, ret
    in Hrun, Hverify.
  simpl in Hrun, Hverify.
  destruct (negb (String.eqb _ _)); [done|].
  destruct (negb (Nat.ltb _ _)); [done|].
  simpl in Hverify. injection Hverify as <-.
  rewrite Ho in Hrun. simpl in Hrun. rewrite Hu, Hc in Hrun. simpl in Hrun. by injection Hrun as <- <-.
Qed.

(** C10: in multi-tenant mode with a tenant id, [handleOnboard] calls
    [joinWithDefaultRolesOrAskApproval] for the user and that tenant with the
    roles [["visitor"]]; in single-tenant mode it calls [createOrJoinDefault]
    for the user with the roles [["visitor"]] (once
    [joinDefaultUsingInvitedEmail] has returned).  It never joins with
    another role list, the empty one in particular. *)
Theorem handleOnboard_joins_as_visitor u invitationToken tenantId o w :
  let '(r, w') := AuthService.handleOnboard u invitationToken tenantId o w in
  let mode := TENANT_MODE (getConfig (env w)) in
  ∃ evs, trace w' = trace w ++ evs ∧
    (∀ tid, mode ∈ ["multi"; "multi-with-subdomain"] →
            tenantId = Some tid → truthy tenantId = true →
       EvCall (transaction o)
         (TenantService_joinWithDefaultRolesOrAskApproval u tid ["visitor"])
       ∈ evs) ∧
    (mode = "single" →
     oracle (env w) (TenantService_joinDefaultUsingInvitedEmail u) = None →
       EvCall (transaction o)
         (TenantService_createOrJoinDefault u ["visitor"]) ∈ evs) ∧
    (∀ roles, roles ∈ joined_roles evs → roles = ["visitor"]).
Proof.
  destruct (AuthService.handleOnboard u invitationToken tenantId o w)
    as [r w'] eqn:Hrun.
  unfold AuthService.handleOnboard,
    TenantUserRepository.acceptInvitation,
    TenantService.joinWithDefaultRolesOrAskApproval,
    TenantService.joinDefaultUsingInvitedEmail,
    TenantService.createOrJoinDefault, console_error in Hrun.
  unfold invoke, bind, try_catch, emit, read_env, throw, ret in Hrun.
  simpl in Hrun.
  repeat match type of Hrun with
         | context [match ?x with _ => _ end] =>
           match x with
           | context [match _ with _ => _ end] => fail 1
           | _ => first [is_var x; destruct x | destruct x eqn:?]
           end; simpl in Hrun
         end.
  all: injection Hrun as <- <-; simpl.
  all: first [ exists []; split; [by rewrite app_nil_r|]
             | eexists; split; [by rewrite <-?app_assoc|] ].
  all: split; [|split].
  all: try (intros roles; simpl; rewrite ?elem_of_cons, ?elem_of_nil;
            by intuition).
  all: try (intros tid Hmode Htid Htruthy; simplify_eq;
            rewrite ?bool_decide_true in * by done; simpl in *;
            try congruence;
            by repeat first [apply list_elem_of_here
                            |apply list_elem_of_further]).
  all: intros Hmode Ho; rewrite Hmode in *; simplify_eq;
       try match goal with
           | H : bool_decide _ && _ = true |- _ => by vm_compute in H
           | H : String.eqb _ _ = false |- _ => by vm_compute in H
           end;
       by repeat first [apply list_elem_of_here
                       |apply list_elem_of_further].
Qed.

Lemma findByEmail_run email o w :
  UserRepository.findByEmail email o w =
    (match oracle (env w) (UserRepository_findByEmail email) with
     | Some e => Throw e
     | None => Ok (findByEmail_answer (env w) email)
     end,
     set_trace (trace w ++ [EvCall (transaction o)
                              (UserRepository_findByEmail email)]) w).
Proof.
  unfold UserRepository.findByEmail. unfold bind at 1. rewrite invoke_run.
  by destruct (oracle _ _).
Qed.

Lemma findPassword_run id o w :
  UserRepository.findPassword id o w =
    (match oracle (env w) (UserRepository_findPassword id) with
     | Some e => Throw e
     | None => Ok (findPassword_answer (env w) id)
     end,
     set_trace (trace w ++ [EvCall (transaction o)
                              (UserRepository_findPassword id)]) w).
Proof.
  unfold UserRepository.findPassword. unfold bind at 1. rewrite invoke_run.
  by destruct (oracle _ _).
Qed.

Lemma createFromAuth_run firstName password email o w :
  UserRepository.createFromAuth firstName password email o w =
    (match oracle (env w)
             (UserRepository_createFromAuth firstName password email) with
     | Some e => Throw e
     | None => Ok (createFromAuth_answer (env w) firstName password email)
     end,
     set_trace (trace w ++ [EvCall (transaction o)
                              (UserRepository_createFromAuth
                                 firstName password email)]) w).
Proof.
  unfold UserRepository.createFromAuth. unfold bind at 1. rewrite invoke_run.
  by destruct (oracle _ _).
Qed.

Lemma hash_run password rounds w :
  bcrypt.hash password rounds w = (Ok (bcrypt_hash (env w) password rounds), w).
Proof. done. Qed.

Lemma compare_run password hashed w :
  bcrypt.compare password hashed w
  = (Ok (bcrypt_compare (env w) password hashed), w).
Proof. done. Qed.

Lemma issue_token_run u w :
  issue_token u w =
    (if String.eqb (AUTH_JWT_SECRET (getConfig (env w))) "" then
       Throw (DatabaseError "secretOrPrivateKey must have a value")
     else Ok (token_for (env w) u),
     w).
Proof.
  unfold issue_token, jwt.sign, bind, read_env. simpl.
  by destruct (String.eqb _ _).
Qed.

(** The end of [signup] and [signin], inside the open unit of work [t]:
    onboarding, the token, the commit. *)
Lemma onboard_and_commit u invitationToken tenantId o t w r w' :
  open_at t w →
  (AuthService.handleOnboard u invitationToken tenantId o >>
   let* token := issue_token u in
   SequelizeRepository.commitTransaction t >> ret token) w = (r, w') →
  env w' = env w ∧
  (∀ a, r = Ok a → a = token_for (env w) u) ∧
  (∀ e, r = Throw e → open_at t w').
Proof.
  intros Hopen. unfold bind at 1.
  pose proof (Scoped_handleOnboard t u invitationToken tenantId o w Hopen)
    as Hsc.
  destruct (AuthService.handleOnboard _ _ _ _ w) as [[[]|e] w1];
    simpl in Hsc.
  2:{ intros [= <- <-]. split; [apply Hsc|]. split; [done|].
      intros _ _. by eapply scoped_open. }
  destruct Hsc as (He & _ & _ & (ws & ws' & _ & Htx) & _).
  assert (txs w1 !! t = Some (Txn TxOpen (ws ++ ws'))) as Hopen1.
  { rewrite Htx. apply list_lookup_insert_eq.
    destruct Hopen as [? ?]. by eapply lookup_lt_Some. }
  unfold bind at 1. rewrite issue_token_run.
  destruct (String.eqb _ _).
  { intros [= <- <-]. split; [done|]. split; [done|].
    intros _ _. by eexists. }
  unfold bind at 1.
  rewrite (commit_step _ _ _ Hopen1). simpl.
  destruct (oracle (env w1) SequelizeRepository_commitTransaction).
  { intros [= <- <-]. simpl. split; [done|]. split; [done|].
    intros _ _. by eexists. }
  destruct (failed_in _ _ _).
  - intros [= <- <-]. simpl. split; [done|]. split; [done|].
    intros _ _. by eexists.
  - intros [= <- <-]. simpl. split; [done|]. split; [|done].
    intros a [= <-]. by rewrite He.
Qed.

Lemma try_rollback_outcome {A} (m : M A) t w :
  (try_catch m (λ error,
     SequelizeRepository.rollbackTransaction t >> throw error) w).1
  = (m w).1.
Proof.
  unfold try_catch, bind, SequelizeRepository.rollbackTransaction, throw.
  destruct (m w) as [[a|e] w1]; [done|].
  by destruct (txs w1 !! t) as [[[] ?]|].
Qed.

(** X21: the error of a [signin] that fails authentication.  It is the
    error constructed as [new Error400(options.language, key)], where the
    message key is [auth.userNotFound] when the repository knows no user of
    the email, and [auth.wrongPassword] both when no credential is stored
    and when the password does not match: the last two failures throw the
    same error. *)
Theorem signin_authentication_failure
    email password invitationToken tenantId o w c :
  failed_check (env w) email password = Some c →
  reads_succeed (env w) email →
  (AuthService.signin email password invitationToken tenantId o w).1 =
    Throw (Error400 (language o) (auth_error_key c) []).
Proof.
  intros Hc [Ho1 Ho2]. unfold AuthService.signin. unfold bind at 1.
  unfold SequelizeRepository.createTransaction. rewrite try_rollback_outcome.
  unfold bind at 1. rewrite findByEmail_run. simpl. rewrite Ho1.
  unfold failed_check in Hc.
  destruct (findByEmail_answer (env w) email) as [u|];
    [|by injection Hc as <-].
  unfold bind at 1. rewrite findPassword_run. simpl.
  rewrite (Ho2 u eq_refl).
  destruct (findPassword_answer (env w) (user_id u)) as [hashed|];
    [|by injection Hc as <-].
  destruct (negb (truthy (Some hashed))); [by injection Hc as <-|].
  unfold bind at 1. rewrite compare_run. simpl.
  destruct (bcrypt_compare (env w) password hashed); [done|].
  by injection Hc as <-.
Qed.

Lemma bind_scoped {A B} t (m : M A) (k : A → M B) w r w' :
  Scoped t m → open_at t w → bind m k w = (r, w') →
  (∃ e, r = Throw e) ∨ (∃ a w1, scoped t w w1 ∧ k a w1 = (r, w')).
Proof.
  intros Hm Hopen. specialize (Hm w Hopen). unfold bind.
  destruct (m w) as [[a|e] w1]; simpl in Hm.
  - intros Hk. right. by exists a, w1.
  - intros [= <- <-]. left. by exists e.
Qed.

Lemma scoped_env t w w' : scoped t w w' → env w' = env w.
Proof. by intros (He & _). Qed.

(** C6: the token a successful [signin] or [signup] returns is the one signed
    under the configured secret with the payload [{ id }] of the user (the
    user found by email, or for [signup] the user just created) and nothing
    else in the payload, issued now and expiring after the configured
    time. *)
Theorem tokens_carry_only_the_id
    email password invitationToken tenantId o w t w' :
  (AuthService.signin email password invitationToken tenantId o w = (Ok t, w') →
   ∃ u, findByEmail_answer (env w) email = Some u ∧
        payload t = [("id", user_id u)] ∧
        signed_with t = AUTH_JWT_SECRET (getConfig (env w)) ∧
        iat t = now (env w) ∧
        exp t = iat t + AUTH_JWT_EXPIRES_IN (getConfig (env w))) ∧
  (AuthService.signup email password invitationToken tenantId o w = (Ok t, w') →
   ∃ u, match findByEmail_answer (env w) email with
        | Some existingUser => u = existingUser
        | None =>
          u = createFromAuth_answer (env w) (before_at email)
                (bcrypt_hash (env w) password BCRYPT_SALT_ROUNDS) email
        end ∧
        payload t = [("id", user_id u)] ∧
        signed_with t = AUTH_JWT_SECRET (getConfig (env w)) ∧
        iat t = now (env w) ∧
        exp t = iat t + AUTH_JWT_EXPIRES_IN (getConfig (env w))).
Proof.
  split.
  - intros Hrun. apply (f_equal fst) in Hrun. simpl in Hrun. revert Hrun.
    unfold AuthService.signin. unfold bind at 1.
    unfold SequelizeRepository.createTransaction. rewrite try_rollback_outcome.
    unfold bind at 1. rewrite findByEmail_run. simpl.
    destruct (oracle (env w) (UserRepository_findByEmail email)); [done|].
    destruct (findByEmail_answer (env w) email) as [u|]; [|done].
    unfold bind at 1. rewrite findPassword_run. simpl.
    destruct (oracle (env w) (UserRepository_findPassword _)); [done|].
    destruct (findPassword_answer (env w) (user_id u)) as [hashed|]; [|done].
    destruct (negb (truthy (Some hashed))); [done|].
    unfold bind at 1. rewrite compare_run. simpl.
    destruct (bcrypt_compare (env w) password hashed); [|done]. simpl.
    match goal with |- (?m ?w3).1 = _ → _ =>
      destruct (m w3) as [r1 w1] eqn:Htail
    end.
    apply (onboard_and_commit _ _ _ _ (length (txs w))) in Htail
      as (_ & Hok & _).
    2:{ eexists. simpl. apply snoc_lookup_last. }
    simpl. intros ->. rewrite (Hok t eq_refl). by exists u.
  - intros Hrun. apply (f_equal fst) in Hrun. simpl in Hrun. revert Hrun.
    unfold AuthService.signup. unfold bind at 1.
    unfold SequelizeRepository.createTransaction. rewrite try_rollback_outcome.
    unfold bind at 1. rewrite findByEmail_run. simpl.
    destruct (oracle (env w) (UserRepository_findByEmail email)); [done|].
    unfold bind at 1. rewrite hash_run. simpl.
    set (t0 := length (txs w)).
    destruct (findByEmail_answer (env w) email) as [u|].
    + unfold bind at 1. rewrite findPassword_run. simpl.
      destruct (oracle (env w) (UserRepository_findPassword _)); [done|].
      destruct (truthy _); [done|].
      match goal with |- (?m ?w3).1 = _ → _ =>
        destruct (m w3) as [r1 w1] eqn:Htail
      end.
      simpl. intros ->.
      apply (bind_scoped t0) in Htail as [[? [=]]|(? & w2 & Hs2 & Htail)];
        [|scoped|eexists; simpl; apply snoc_lookup_last].
      apply (bind_scoped t0) in Htail as [[? [=]]|(? & w3 & Hs3 & Htail)];
        [|scoped|by eapply scoped_open].
      apply (onboard_and_commit _ _ _ _ t0) in Htail as (_ & Hok & _);
        [|by eapply scoped_open].
      rewrite (Hok t eq_refl), (scoped_env _ _ _ Hs3), (scoped_env _ _ _ Hs2).
      exists u. simpl. by repeat split.
    + unfold bind at 1. rewrite createFromAuth_run. simpl.
      destruct (oracle (env w) (UserRepository_createFromAuth _ _ _));
        [done|].
      match goal with |- (?m ?w3).1 = _ → _ =>
        destruct (m w3) as [r1 w1] eqn:Htail
      end.
      simpl. intros ->.
      apply (bind_scoped t0) in Htail as [[? [=]]|(? & w3 & Hs3 & Htail)];
        [|scoped|eexists; simpl; apply snoc_lookup_last].
      apply (onboard_and_commit _ _ _ _ t0) in Htail as (_ & Hok & _);
        [|by eapply scoped_open].
      rewrite (Hok t eq_refl), (scoped_env _ _ _ Hs3).
      eexists. simpl. by repeat split.
Qed.

(** ** Concrete runs *)

Lemma signin_authentication_failure_witness :
  failed_check (env world_auth) "bob@example.org" "wrong"
    = Some PasswordMismatch ∧
  reads_succeed (env world_auth) "bob@example.org" ∧
  (AuthService.signin "bob@example.org" "wrong" None None opts0 world_auth).1
  = Throw (Error400 "en" "auth.wrongPassword" []).
Proof.
  assert (reads_succeed (env world_auth) "bob@example.org") as Hreads.
  { split; [reflexivity|]. intros u Hu. reflexivity. }
  split; [reflexivity|]. split; [exact Hreads|].
  apply (signin_authentication_failure "bob@example.org" "wrong" None None
           opts0 world_auth PasswordMismatch); [reflexivity|exact Hreads].
Defined.

Lemma import_contract_witness :
  truthy (Some "") = false ∧
  VisitorService.import opts0 alice_row (Some "") world0
  = (Throw (Error400 "en" "importer.errors.importHashRequired" []), world0) ∧
  (VisitorService.import opts0 alice_row (Some "H1") world0).1
  = Ok {| rec_id := 1; rec_attrs := <["importHash" := "H1"]> alice_row |} ∧
  (VisitorService.import opts0 carol_row (Some "H1")
     (VisitorService.import opts0 alice_row (Some "H1") world0).2).1
  = Throw (Error400 "en" "importer.errors.importHashExistent" []).
Proof.
  split; [reflexivity|]. split; [|split].
  - apply (import_contract opts0 alice_row (Some "") world0). reflexivity.
  - destruct (import_contract opts0 alice_row (Some "H1") world0)
      as (_ & Hcount & _).
    rewrite (Hcount "H1" 0
               (VisitorRepository.count "H1" opts0 world0).2
               eq_refl eq_refl eq_refl).
    vm_compute. reflexivity.
  - destruct (import_contract opts0 alice_row (Some "H1") world0)
      as (_ & _ & _ & Hagain & _).
    apply (Hagain "H1"
             {| rec_id := 1; rec_attrs := <["importHash" := "H1"]> alice_row |}
             _ carol_row eq_refl eq_refl eq_refl).
    vm_compute. reflexivity.
Defined.

Lemma tokens_carry_only_the_id_witness :
  AuthService.signin "bob@example.org" "hunter2" None (Some "acme") opts0
    world_auth
  = (Ok (token_for env_auth bob),
     (AuthService.signin "bob@example.org" "hunter2" None (Some "acme") opts0
        world_auth).2) ∧
  AuthService.signup "dave@example.org" "s3cret" None (Some "acme") opts0
    world_auth
  = (Ok (token_for env_auth (User 8 "dave@example.org" "dave" false)),
     (AuthService.signup "dave@example.org" "s3cret" None (Some "acme") opts0
        world_auth).2) ∧
  payload (token_for env_auth bob) = [("id", 7)] ∧
  payload (token_for env_auth (User 8 "dave@example.org" "dave" false))
  = [("id", 8)].
Proof.
  assert (AuthService.signin "bob@example.org" "hunter2" None (Some "acme")
            opts0 world_auth
          = (Ok (token_for env_auth bob),
             (AuthService.signin "bob@example.org" "hunter2" None
                (Some "acme") opts0 world_auth).2)) as Hin
    by (vm_compute; reflexivity).
  assert (AuthService.signup "dave@example.org" "s3cret" None (Some "acme")
            opts0 world_auth
          = (Ok (token_for env_auth (User 8 "dave@example.org" "dave" false)),
             (AuthService.signup "dave@example.org" "s3cret" None
                (Some "acme") opts0 world_auth).2)) as Hup
    by (vm_compute; reflexivity).
  split; [exact Hin|]. split; [exact Hup|]. split.
  - destruct (proj1 (tokens_carry_only_the_id "bob@example.org" "hunter2"
                         None (Some "acme") opts0 world_auth _ _) Hin)
      as (u & Hu & Hp & _).
    injection Hu as <-. exact Hp.
  - destruct (proj2 (tokens_carry_only_the_id "dave@example.org" "s3cret"
                         None (Some "acme") opts0 world_auth _ _) Hup)
      as (u & Hu & Hp & _).
    simpl in Hu. subst u. exact Hp.
Defined.

Lemma findByToken_skips_email_verification_witness :
  (jwt.verify (token_for env_auth bob)
     (AUTH_JWT_SECRET (getConfig (env world_auth))) world_auth).1
  = Ok [("id", 7)] ∧
  emailVerified bob = false ∧
  (AuthService.findByToken (token_for env_auth bob) opts0 world_auth).1
  = Ok (Some {| user_id := 7; user_email := "bob@example.org";
                user_firstName := "bob"; emailVerified := true |}).
Proof.
  split; [reflexivity|]. split; [reflexivity|].
  apply (findByToken_skips_email_verification (token_for env_auth bob) opts0
           world_auth [("id", 7)] bob); reflexivity.
Defined.

Lemma handleOnboard_joins_as_visitor_witness :
  TENANT_MODE (getConfig (env world_auth)) ∈ ["multi"; "multi-with-subdomain"] ∧
  truthy (Some "acme") = true ∧
  EvCall None
    (TenantService_joinWithDefaultRolesOrAskApproval bob "acme" ["visitor"])
  ∈ trace (AuthService.handleOnboard bob None (Some "acme") opts0
             world_auth).2 ∧
  TENANT_MODE (getConfig (env world_single)) = "single" ∧
  EvCall None (TenantService_createOrJoinDefault bob ["visitor"])
  ∈ trace (AuthService.handleOnboard bob None None opts0 world_single).2.
Proof.
  assert (TENANT_MODE (getConfig (env world_auth))
          ∈ ["multi"; "multi-with-subdomain"]) as Hmulti
    by apply list_elem_of_here.
  split; [exact Hmulti|]. split; [reflexivity|]. split; [|split].
  - pose proof (handleOnboard_joins_as_visitor bob None (Some "acme") opts0
                  world_auth) as H.
    destruct (AuthService.handleOnboard bob None (Some "acme") opts0
                world_auth) as [r w'] eqn:Hrun.
    destruct H as (evs & Ht & Hjoin & _). simpl. rewrite Ht.
    apply (Hjoin "acme" Hmulti eq_refl eq_refl).
  - reflexivity.
  - pose proof (handleOnboard_joins_as_visitor bob None None opts0
                  world_single) as H.
    destruct (AuthService.handleOnboard bob None None opts0 world_single)
      as [r w'] eqn:Hrun.
    destruct H as (evs & Ht & _ & Hjoin & _). simpl. rewrite Ht.
    apply (Hjoin eq_refl eq_refl).
Defined.

(** A run of [destroyAll] that fails on its second deletion: the first record
    is still there afterwards. *)
Example destroyAll_rolls_back :
  let w1 := (VisitorService.create opts0 alice_row world0).2 in
  let w2 := (VisitorService.destroyAll opts0 [1; 2] w1).2 in
  (VisitorService.destroyAll opts0 [1; 2] w1).1 = Throw (Error404 "en") ∧
  db w2 !! 1 = Some alice_row ∧
  tx_status <$> txs w2 = [TxCommitted; TxRolledBack].
Proof. vm_compute. done. Qed.

(** A second visitor with the same email: the uniqueness violation comes
    back as the validation error for that field. *)
Example create_duplicate_email :
  let w1 := (VisitorService.create opts0 alice_row world0).2 in
  (VisitorService.create opts0 alice_row w1).1
  = Throw (Error400 "en" "entities.visitor.errors.unique.email" []).
Proof. vm_compute. done. Qed.

Lemma append_inj_r (s a b : string) : s +:+ a = s +:+ b → a = b.
Proof. induction s as [|c s IH]; simpl; [done|]. intros [= H]. by apply IH. Qed.

(** The message key of a uniqueness violation tells the field. *)
Lemma unique_key_inj entityName path1 path2 :
  SequelizeRepository.unique_key entityName path1
  = SequelizeRepository.unique_key entityName path2 →
  path1 = path2.
Proof.
  unfold SequelizeRepository.unique_key. intros H.
  by repeat apply append_inj_r in H.
Qed.

(** What is delivered on the socket later is decided by the remote end
    alone: [create] does not change it, and the record is not part of it. *)
Lemma create_leaves_delivery this data w :
  sdp_delivered (VisitorService.create this data w).2 = sdp_delivered w.
Proof.
  destruct (create_failure data w) as [e|] eqn:Hf.
  - destruct (create_fail this _ _ _ Hf) as (evs & n & -> & _). done.
  - by rewrite (create_ok this _ _ Hf).
Qed.

(** ** What the computations leave out of the trace *)

Section Avoids.
Context {B : Type} (P : environment → Prop) (sel : event → option B).

Lemma Avoids_ret {A} (a : A) : Avoids P sel (ret a).
Proof. intros w _. split; [done|]. exists []. by rewrite app_nil_r. Qed.

Lemma Avoids_throw {A} (e : error) : Avoids P sel (throw (A := A) e).
Proof. intros w _. split; [done|]. exists []. by rewrite app_nil_r. Qed.

Lemma Avoids_bind {A C} (m : M A) (k : A → M C) :
  Avoids P sel m → (∀ a, Avoids P sel (k a)) → Avoids P sel (bind m k).
Proof.
  intros Hm Hk w HP. destruct (Hm w HP) as (He & evs & Ht & Hs). unfold bind.
  destruct (m w) as [[a|e] w1]; simpl in *; [|by eauto].
  destruct (Hk a w1) as (He' & evs' & Ht' & Hs'); [by rewrite He|].
  split; [congruence|]. exists (evs ++ evs').
  rewrite Ht', Ht, app_assoc, omap_app, Hs, Hs'. done.
Qed.

Lemma Avoids_try_catch {A} (m : M A) (h : error → M A) :
  Avoids P sel m → (∀ e, Avoids P sel (h e)) → Avoids P sel (try_catch m h).
Proof.
  intros Hm Hh w HP. destruct (Hm w HP) as (He & evs & Ht & Hs).
  unfold try_catch.
  destruct (m w) as [[a|e] w1]; simpl in *; [by eauto|].
  destruct (Hh e w1) as (He' & evs' & Ht' & Hs'); [by rewrite He|].
  split; [congruence|]. exists (evs ++ evs').
  rewrite Ht', Ht, app_assoc, omap_app, Hs, Hs'. done.
Qed.

Lemma Avoids_emit e : sel e = None → Avoids P sel (emit e).
Proof.
  intros He w _. split; [done|]. exists [e]. split; [done|].
  simpl. by rewrite He.
Qed.

Lemma Avoids_read_env : Avoids P sel read_env.
Proof. intros w _. split; [done|]. exists []. by rewrite app_nil_r. Qed.

Lemma Avoids_read_view tx : Avoids P sel (read_view tx).
Proof. intros w _. split; [done|]. exists []. by rewrite app_nil_r. Qed.

Lemma Avoids_fresh_id : Avoids P sel fresh_id.
Proof. intros w _. split; [done|]. exists []. by rewrite app_nil_r. Qed.

Lemma Avoids_issue tx x : Avoids P sel (issue tx x).
Proof.
  intros w _. unfold issue.
  destruct tx as [t|]; [destruct (txs w !! t) as [[[] ws]|]|];
    (split; [done|]; exists []; by rewrite app_nil_r).
Qed.

Lemma Avoids_invoke tx c : sel (EvCall tx c) = None → Avoids P sel (invoke tx c).
Proof.
  intros Hc. unfold invoke. apply Avoids_bind; [by apply Avoids_emit|].
  intros _. apply Avoids_bind; [apply Avoids_read_env|]. intros e.
  destruct (oracle e c); [apply Avoids_throw | apply Avoids_ret].
Qed.

Lemma Avoids_ask tx c : sel (EvCall tx c) = None → Avoids P sel (ask tx c).
Proof.
  intros Hc. unfold ask. apply Avoids_bind; [by apply Avoids_invoke|].
  intros _. apply Avoids_bind; [apply Avoids_read_env|]. intros e.
  apply Avoids_ret.
Qed.

Lemma Avoids_for_of {A} (l : list A) (body : A → M unit) :
  (∀ x, Avoids P sel (body x)) → Avoids P sel (for_of l body).
Proof.
  intros Hb. induction l as [|x l IH]; simpl.
  - apply Avoids_ret.
  - apply Avoids_bind; [apply Hb | intros _; apply IH].
Qed.

Lemma Avoids_createTransaction :
  (∀ t, sel (EvCreateTransaction t) = None) →
  Avoids P sel SequelizeRepository.createTransaction.
Proof.
  intros Hs w _. split; [done|]. eexists [_]. split; [done|].
  simpl. by rewrite Hs.
Qed.

Lemma Avoids_commitTransaction t :
  sel (EvCommit t) = None →
  sel (EvCall (Some t) SequelizeRepository_commitTransaction) = None →
  Avoids P sel (SequelizeRepository.commitTransaction t).
Proof.
  intros Hs Hc. unfold SequelizeRepository.commitTransaction.
  apply Avoids_bind; [by apply Avoids_invoke|]. intros _ w _.
  destruct (txs w !! t) as [[[] ws]|]; [destruct (failed_in _ _ _)| | |];
    simpl; try (split; [done|]; exists []; by rewrite app_nil_r).
  split; [done|]. eexists [_]. split; [done|]. simpl. by rewrite Hs.
Qed.

Lemma Avoids_rollbackTransaction t :
  sel (EvRollback t) = None →
  Avoids P sel (SequelizeRepository.rollbackTransaction t).
Proof.
  intros Hs w _. unfold SequelizeRepository.rollbackTransaction.
  destruct (txs w !! t) as [[[] ws]|]; simpl;
    try (split; [done|]; exists []; by rewrite app_nil_r).
  split; [done|]. eexists [_]. split; [done|]. simpl. by rewrite Hs.
Qed.

End Avoids.

Create HintDb avoids.
#[local] Hint Resolve Avoids_ret Avoids_throw Avoids_read_env Avoids_read_view
  Avoids_fresh_id Avoids_issue : avoids.
#[local] Hint Extern 2 (Avoids _ _ (bind _ _)) =>
  (apply Avoids_bind; [|intros ?]) : avoids.
#[local] Hint Extern 2 (Avoids _ _ (try_catch _ _)) =>
  (apply Avoids_try_catch; [|intros ?]) : avoids.
#[local] Hint Extern 2 (Avoids _ _ (emit _)) =>
  (apply Avoids_emit; reflexivity) : avoids.
#[local] Hint Extern 2 (Avoids _ _ (invoke _ _)) =>
  (apply Avoids_invoke; reflexivity) : avoids.
#[local] Hint Extern 2 (Avoids _ _ (ask _ _)) =>
  (apply Avoids_ask; reflexivity) : avoids.
#[local] Hint Extern 2 (Avoids _ _ (SequelizeRepository.commitTransaction _)) =>
  (apply Avoids_commitTransaction; reflexivity) : avoids.
#[local] Hint Extern 2 (Avoids _ _ (SequelizeRepository.rollbackTransaction _)) =>
  (apply Avoids_rollbackTransaction; reflexivity) : avoids.
#[local] Hint Extern 2 (Avoids _ _ SequelizeRepository.createTransaction) =>
  (apply Avoids_createTransaction; reflexivity) : avoids.
#[local] Hint Extern 3 (Avoids _ _ (for_of _ _)) =>
  (apply Avoids_for_of; intros ?) : avoids.
#[local] Hint Extern 4 (Avoids _ _ (match ?x with _ => _ end)) =>
  destruct x : avoids.

Ltac avoids :=
  unfold AuthService.handleOnboard,
    AuthService.sendEmailAddressVerificationEmail;
  open_collaborators; simpl; auto 60 with avoids.

Lemma Avoids_elim {B} P (sel : event → option B) {A} (m : M A) w r w' :
  Avoids P sel m → P (env w) → m w = (r, w') →
  env w' = env w ∧ ∃ evs, trace w' = trace w ++ evs ∧ omap sel evs = [].
Proof. intros Hm HP Hrun. specialize (Hm w HP). by rewrite Hrun in Hm. Qed.

(** ** More of signup *)

Lemma rollback_world t w :
  env (SequelizeRepository.rollbackTransaction t w).2 = env w ∧
  db (SequelizeRepository.rollbackTransaction t w).2 = db w ∧
  ∃ tl, trace (SequelizeRepository.rollbackTransaction t w).2 = trace w ++ tl ∧
        (tl = [] ∨ tl = [EvRollback t]).
Proof.
  unfold SequelizeRepository.rollbackTransaction.
  destruct (txs w !! t) as [[[] ws]|]; simpl;
    (split; [done|]); (split; [done|]);
    first [by exists []; rewrite app_nil_r; auto | by eexists [_]; auto].
Qed.

(** A transactional operation that rethrows after the rollback, run from
    [w]: its outcome is the outcome of its body, and it leaves the world of
    its body but for a rollback. *)
Lemma rollback_rethrow_run {A} (body : nat → M A) w r w' :
  (let* transaction := SequelizeRepository.createTransaction in
   try_catch (body transaction)
     (λ error,
      SequelizeRepository.rollbackTransaction transaction >> throw error)) w
  = (r, w') →
  ∃ wb tl,
    body (length (txs w))
      (set_trace (trace w ++ [EvCreateTransaction (length (txs w))])
         (set_txs (txs w ++ [Txn TxOpen []]) w)) = (r, wb) ∧
    env w' = env wb ∧ db w' = db wb ∧ trace w' = trace wb ++ tl ∧
    (tl = [] ∨ tl = [EvRollback (length (txs w))]).
Proof.
  unfold bind at 1, SequelizeRepository.createTransaction, try_catch.
  destruct (body _ _) as [[a|e] wb].
  - intros [= <- <-]. exists wb, []. rewrite app_nil_r. by repeat split; auto.
  - unfold bind, throw.
    destruct (rollback_world (length (txs w)) wb) as (He & Hd & tl & Ht & Htl).
    destruct (SequelizeRepository.rollbackTransaction _ wb) as [[[]|e'] w1] eqn:Hrb.
    + intros [= <- <-]. simpl in *. by exists wb, tl.
    + unfold SequelizeRepository.rollbackTransaction in Hrb.
      by destruct (txs wb !! _) as [[[] ?]|].
Qed.

(** What follows the write of the user in [signup]: the verification email,
    onboarding, the token and the commit. *)
Lemma signup_rest_avoids_user_writes u language invitationToken tenantId o1 o2 t :
  Avoids (λ _, True) user_write
    ((let* isConfigured := EmailSender.isConfigured in
      if isConfigured then
        AuthService.sendEmailAddressVerificationEmail language
          (user_email u) tenantId o1
      else ret tt) >>
     AuthService.handleOnboard u invitationToken tenantId o2 >>
     let* token := issue_token u in
     SequelizeRepository.commitTransaction t >> ret token).
Proof. unfold issue_token. avoids. Qed.

Lemma user_writes_app l1 l2 :
  user_writes (l1 ++ l2) = user_writes l1 ++ user_writes l2.
Proof. apply omap_app. Qed.

(** X1: the password [signup] stores.  Whatever happens, [signup] makes at
    most one call that stores a password ([updatePassword] or
    [createFromAuth]; other calls on the user repository, such as the
    generation of the verification token, are not counted), and the password
    in it is the bcrypt hash of the submitted password under
    [BCRYPT_SALT_ROUNDS]: for an email the repository knows it is
    [updatePassword] for that user, for an unknown email it is
    [createFromAuth] with the part of the email before the [@] as first
    name.  When [signup] returns a token, that call has been made. *)
Theorem signup_writes_the_hash_once
    email password invitationToken tenantId o w :
  let '(r, w') :=
    AuthService.signup email password invitationToken tenantId o w in
  let hashed := bcrypt_hash (env w) password BCRYPT_SALT_ROUNDS in
  let the_write :=
    match findByEmail_answer (env w) email with
    | Some existingUser =>
      UserRepository_updatePassword (user_id existingUser) hashed
    | None => UserRepository_createFromAuth (before_at email) hashed email
    end in
  ∃ evs, trace w' = trace w ++ evs ∧
    (user_writes evs = [] ∨ user_writes evs = [the_write]) ∧
    (∀ t, r = Ok t → user_writes evs = [the_write]).
Proof.
  destruct (AuthService.signup _ _ _ _ _ w) as [r w'] eqn:Hrun.
  unfold AuthService.signup in Hrun.
  apply (rollback_rethrow_run
           (λ t, let* existingUser := UserRepository.findByEmail email o in _))
    in Hrun as (wb & tl & Hbody & _ & _ & Ht & Htl).
  assert (user_writes tl = []) as Hwtl by (by destruct Htl as [-> | ->]).
  cut (∃ evs, trace wb = trace w ++ evs ∧
        (user_writes evs = [] ∧ (∀ t, r ≠ Ok t) ∨
         user_writes evs =
           [match findByEmail_answer (env w) email with
            | Some existingUser =>
              UserRepository_updatePassword (user_id existingUser)
                (bcrypt_hash (env w) password BCRYPT_SALT_ROUNDS)
            | None =>
              UserRepository_createFromAuth (before_at email)
                (bcrypt_hash (env w) password BCRYPT_SALT_ROUNDS) email
            end])).
  { intros (evs & Hevs & Hw). exists (evs ++ tl).
    rewrite Ht, Hevs, app_assoc, user_writes_app, Hwtl, app_nil_r.
    split; [done|]. destruct Hw as [[-> Hr] | ->]; [|by auto].
    split; [by left|]. intros t ->. by destruct (Hr t). }
  clear Ht Htl Hwtl tl w'.
  unfold bind at 1 in Hbody. rewrite findByEmail_run in Hbody. simpl in Hbody.
  destruct (oracle (env w) (UserRepository_findByEmail email)).
  { injection Hbody as <- <-. simpl. rewrite <-app_assoc.
    eexists. split; [done|]. by left. }
  unfold bind at 1 in Hbody. rewrite hash_run in Hbody. simpl in Hbody.
  destruct (findByEmail_answer (env w) email) as [u|].
  - unfold bind at 1 in Hbody. rewrite findPassword_run in Hbody.
    simpl in Hbody.
    destruct (oracle (env w) (UserRepository_findPassword (user_id u))).
    { injection Hbody as <- <-. simpl. rewrite <-!app_assoc.
      eexists. split; [done|]. by left. }
    destruct (truthy _).
    { injection Hbody as <- <-. simpl. rewrite <-!app_assoc.
      eexists. split; [done|]. by left. }
    unfold bind at 1 in Hbody. unfold UserRepository.updatePassword in Hbody.
    rewrite invoke_run in Hbody. simpl in Hbody.
    destruct (oracle (env w) (UserRepository_updatePassword _ _)).
    { injection Hbody as <- <-. simpl. rewrite <-!app_assoc.
      eexists. split; [done|]. by right. }
    eapply (Avoids_elim _ _ _ _ _ _
              (signup_rest_avoids_user_writes u _ _ _ _ _ _) I)
      in Hbody as (_ & evs & Hevs & Hw).
    simpl in Hevs. rewrite <-!app_assoc in Hevs.
    eexists. split; [exact Hevs|]. right. unfold user_writes. simpl.
    f_equal. exact Hw.
  - unfold bind at 1 in Hbody. rewrite createFromAuth_run in Hbody.
    simpl in Hbody.
    destruct (oracle (env w) (UserRepository_createFromAuth _ _ _)).
    { injection Hbody as <- <-. simpl. rewrite <-!app_assoc.
      eexists. split; [done|]. by right. }
    eapply (Avoids_elim _ _ _ _ _ _
              (signup_rest_avoids_user_writes _ _ _ _ _ _ _) I)
      in Hbody as (_ & evs & Hevs & Hw).
    simpl in Hevs. rewrite <-!app_assoc in Hevs.
    eexists. split; [exact Hevs|]. right. unfold user_writes. simpl.
    f_equal. exact Hw.
Qed.

Lemma ask_run tx c w :
  ask tx c w =
    (match oracle (env w) c with
     | Some e => Throw e
     | None => Ok (answer (env w) c)
     end,
     set_trace (trace w ++ [EvCall tx c]) w).
Proof.
  unfold ask. unfold bind at 1. rewrite invoke_run.
  by destruct (oracle (env w) c).
Qed.

Lemma isConfigured_run w :
  EmailSender.isConfigured w
  = (Ok (EmailSender_isConfigured (getConfig (env w))), w).
Proof. done. Qed.

Lemma updatePassword_run id hashed o w :
  UserRepository.updatePassword id hashed o w =
    (match oracle (env w) (UserRepository_updatePassword id hashed) with
     | Some e => Throw e
     | None => Ok tt
     end,
     set_trace (trace w ++ [EvCall (transaction o)
                              (UserRepository_updatePassword id hashed)]) w).
Proof. apply invoke_run. Qed.

(** X2: [signup] for an email that is already in use.  When the repository
    knows the email and has a password stored for that user, [signup] throws
    the validation error of key [auth.emailAlreadyInUse]; it has written
    nothing of the user, has sent no mail, and the committed rows are as
    before. *)
Theorem signup_email_already_in_use
    email password invitationToken tenantId o w existingUser :
  oracle (env w) (UserRepository_findByEmail email) = None →
  findByEmail_answer (env w) email = Some existingUser →
  oracle (env w) (UserRepository_findPassword (user_id existingUser)) = None →
  truthy (findPassword_answer (env w) (user_id existingUser)) = true →
  let '(r, w') :=
    AuthService.signup email password invitationToken tenantId o w in
  r = Throw (Error400 (language o) "auth.emailAlreadyInUse" []) ∧
  db w' = db w ∧
  ∃ evs, trace w' = trace w ++ evs ∧ user_writes evs = [] ∧ mails evs = [].
Proof.
  intros Ho1 Hu Ho2 Hpw.
  destruct (AuthService.signup _ _ _ _ _ w) as [r w'] eqn:Hrun.
  unfold AuthService.signup in Hrun.
  apply (rollback_rethrow_run
           (λ t, let* existingUser := UserRepository.findByEmail email o in _))
    in Hrun as (wb & tl & Hbody & _ & Hd & Ht & Htl).
  unfold bind at 1 in Hbody. rewrite findByEmail_run in Hbody. simpl in Hbody.
  rewrite Ho1, Hu in Hbody.
  unfold bind at 1 in Hbody. rewrite hash_run in Hbody. simpl in Hbody.
  unfold bind at 1 in Hbody. rewrite findPassword_run in Hbody.
  simpl in Hbody. rewrite Ho2, Hpw in Hbody.
  injection Hbody as <- <-. simpl in *. split; [done|]. split; [done|].
  eexists. rewrite Ht, <-!app_assoc. split; [done|].
  by destruct Htl as [-> | ->].
Qed.

(** X3: [signup] rethrows what the creation of the user fails with, as it
    is: in particular a uniqueness violation is not turned into a validation
    error (as [create] of a Visitor does); the committed rows are as
    before. *)
Theorem signup_rethrows_creation_failure
    email password invitationToken tenantId o w e :
  oracle (env w) (UserRepository_findByEmail email) = None →
  findByEmail_answer (env w) email = None →
  oracle (env w)
    (UserRepository_createFromAuth (before_at email)
       (bcrypt_hash (env w) password BCRYPT_SALT_ROUNDS) email) = Some e →
  let '(r, w') :=
    AuthService.signup email password invitationToken tenantId o w in
  r = Throw e ∧ db w' = db w ∧
  tx_status <$> txs w' = (tx_status <$> txs w) ++ [TxRolledBack].
Proof.
  intros Ho1 Hu Ho2.
  pose proof (signup_transactional email password invitationToken tenantId o w)
    as Huow.
  destruct (AuthService.signup _ _ _ _ _ w) as [r w'] eqn:Hrun.
  unfold AuthService.signup in Hrun.
  apply (rollback_rethrow_run
           (λ t, let* existingUser := UserRepository.findByEmail email o in _))
    in Hrun as (wb & tl & Hbody & _ & Hd & Ht & Htl).
  unfold bind at 1 in Hbody. rewrite findByEmail_run in Hbody. simpl in Hbody.
  rewrite Ho1, Hu in Hbody.
  unfold bind at 1 in Hbody. rewrite hash_run in Hbody. simpl in Hbody.
  unfold bind at 1 in Hbody. rewrite createFromAuth_run in Hbody.
  simpl in Hbody. rewrite Ho2 in Hbody.
  injection Hbody as <- <-. simpl in *. split; [done|]. split; [done|].
  destruct Huow as (_ & x & evs & -> & _ & Hst & _).
  rewrite fmap_app. simpl. by rewrite Hst.
Qed.

(** X4: the verification email.  Without a configured email sender
    [sendEmailAddressVerificationEmail] throws the validation error of key
    [email.error] and does nothing else.  With one, whatever fails while the
    link is built (finding the tenant, generating the token, computing the
    front-end URL), the caller gets the same validation error of key
    [auth.emailAddressVerificationEmail.error]; the original error is only
    logged, and no mail is sent.  When the link is built, exactly one mail
    goes to [email], with the link [<frontend>/auth/verify-email?token=<token>],
    and the outcome is that of sending it. *)
Theorem verification_email_contract language email tenantId o w :
  let e := env w in
  let tenant := answer e (TenantRepository_findById tenantId) in
  let token := answer e (UserRepository_generateEmailVerificationToken email) in
  let url := answer e (tenantSubdomain_frontendUrl tenant) in
  let link := url +:+ "/auth/verify-email?token=" +:+ token in
  let '(r, w') :=
    AuthService.sendEmailAddressVerificationEmail language email tenantId o w in
  ∃ evs, trace w' = trace w ++ evs ∧
    (EmailSender_isConfigured (getConfig e) = false →
       r = Throw (Error400 language "email.error" []) ∧ evs = []) ∧
    (EmailSender_isConfigured (getConfig e) = true →
     link_fails e tenantId email →
       r = Throw (Error400 language
                    "auth.emailAddressVerificationEmail.error" []) ∧
       mails evs = [] ∧ ∃ err, last evs = Some (EvConsoleError err)) ∧
    (EmailSender_isConfigured (getConfig e) = true →
     ¬ link_fails e tenantId email →
       mails evs = [(EmailSender.EMAIL_ADDRESS_VERIFICATION, link, email)] ∧
       r = match oracle e (EmailSender_sendTo
                             EmailSender.EMAIL_ADDRESS_VERIFICATION link email)
           with
           | Some err => Throw err
           | None => Ok tt
           end).
Proof.
  destruct (AuthService.sendEmailAddressVerificationEmail _ _ _ _ w)
    as [r w'] eqn:Hrun.
  unfold AuthService.sendEmailAddressVerificationEmail in Hrun.
  unfold bind at 1 in Hrun. rewrite isConfigured_run in Hrun.
  unfold link_fails.
  destruct (EmailSender_isConfigured (getConfig (env w))); simpl in Hrun.
  2:{ injection Hrun as <- <-. exists []. rewrite app_nil_r.
      split; [done|]. by repeat split. }
  unfold bind at 1, try_catch in Hrun.
  unfold TenantRepository.findById, tenantSubdomain.frontendUrl,
    UserRepository.generateEmailVerificationToken, EmailSender.sendTo,
    console_error in Hrun.
  unfold bind at 1 in Hrun. rewrite ask_run in Hrun. simpl in Hrun.
  destruct (oracle (env w) (TenantRepository_findById tenantId)) as [e1|].
  { injection Hrun as <- <-. simpl. rewrite <-!app_assoc.
    eexists. split; [done|]. split; [done|]. split; [by eauto|].
    intros _ Hno. exfalso. apply Hno. eauto. }
  unfold bind at 1 in Hrun. rewrite ask_run in Hrun. simpl in Hrun.
  destruct (oracle (env w)
              (UserRepository_generateEmailVerificationToken email)) as [e2|].
  { injection Hrun as <- <-. simpl. rewrite <-!app_assoc.
    eexists. split; [done|]. split; [done|]. split; [by eauto|].
    intros _ Hno. exfalso. apply Hno. eauto. }
  unfold bind at 1 in Hrun. rewrite ask_run in Hrun. simpl in Hrun.
  destruct (oracle (env w) (tenantSubdomain_frontendUrl _)) as [e3|] eqn:Ho3.
  { injection Hrun as <- <-. simpl. rewrite <-!app_assoc.
    eexists. split; [done|]. split; [done|]. split; [by eauto|].
    intros _ Hno. exfalso. apply Hno. eauto. }
  unfold ret in Hrun. rewrite invoke_run in Hrun.
  injection Hrun as <- <-. simpl.
  rewrite <-!app_assoc. eexists. split; [done|]. split; [done|]. split.
  - by intros _ [[? [=]]|[[? [=]]|[? [=]]]].
  - done.
Qed.

(** Without a configured email sender, the gate around the verification
    email lets nothing through. *)
Lemma Avoids_mail_gate (m : M unit) :
  Avoids (λ e, EmailSender_isConfigured (getConfig e) = false) mail
    (let* isConfigured := EmailSender.isConfigured in
     if isConfigured then m else ret tt).
Proof.
  intros w Hc. unfold bind. rewrite isConfigured_run, Hc. simpl.
  split; [done|]. exists []. by rewrite app_nil_r.
Qed.

Lemma Avoids_mail_handleOnboard P u invitationToken tenantId o :
  Avoids P mail (AuthService.handleOnboard u invitationToken tenantId o).
Proof. avoids. Qed.

(** X5: without a configured email sender, [signup] hands no mail to the
    email sender, on any path. *)
Theorem signup_sends_no_mail_unconfigured
    email password invitationToken tenantId o w :
  EmailSender_isConfigured (getConfig (env w)) = false →
  ∃ evs,
    trace (AuthService.signup email password invitationToken tenantId o w).2
    = trace w ++ evs ∧
    mails evs = [].
Proof.
  intros Hc.
  cut (Avoids (λ e, EmailSender_isConfigured (getConfig e) = false) mail
         (AuthService.signup email password invitationToken tenantId o)).
  { intros Hav. by destruct (Hav w Hc) as (_ & evs & Ht & Hm); exists evs. }
  unfold AuthService.signup.
  apply Avoids_bind; [avoids|]. intros t.
  apply Avoids_try_catch; [|intros e; avoids].
  apply Avoids_bind; [avoids|]. intros existingUser.
  apply Avoids_bind; [avoids|]. intros hashedPassword.
  destruct existingUser as [u|].
  - apply Avoids_bind; [avoids|]. intros existingPassword.
    destruct (truthy existingPassword); [avoids|].
    apply Avoids_bind; [avoids|]. intros _.
    apply Avoids_bind; [apply Avoids_mail_gate|]. intros _.
    apply Avoids_bind; [apply Avoids_mail_handleOnboard|]. intros _.
    avoids.
  - apply Avoids_bind; [avoids|]. intros newUser.
    apply Avoids_bind; [apply Avoids_mail_gate|]. intros _.
    apply Avoids_bind; [apply Avoids_mail_handleOnboard|]. intros _.
    avoids.
Qed.

Lemma verification_email_fails language email tenantId o w :
  EmailSender_isConfigured (getConfig (env w)) = true →
  link_fails (env w) tenantId email →
  (AuthService.sendEmailAddressVerificationEmail language email tenantId o
     w).1
  = Throw (Error400 language "auth.emailAddressVerificationEmail.error" []).
Proof.
  intros Hc Hlink. unfold link_fails in Hlink.
  unfold AuthService.sendEmailAddressVerificationEmail.
  unfold bind at 1. rewrite isConfigured_run, Hc. simpl.
  unfold bind at 1, try_catch.
  unfold TenantRepository.findById, tenantSubdomain.frontendUrl,
    UserRepository.generateEmailVerificationToken.
  unfold bind at 1. rewrite ask_run. simpl.
  destruct (oracle (env w) (TenantRepository_findById tenantId)); [done|].
  unfold bind at 1. rewrite ask_run. simpl.
  destruct (oracle (env w)
              (UserRepository_generateEmailVerificationToken email)); [done|].
  unfold bind at 1. rewrite ask_run. simpl.
  destruct (oracle (env w) (tenantSubdomain_frontendUrl _)); [done|].
  by destruct Hlink as [[? [=]]|[[? [=]]|[? [=]]]].
Qed.

(** X6: a verification email that cannot be built makes [signup] fail.  With
    a configured email sender, when the user has been created and building
    the link of the verification email fails, [signup] throws the validation
    error of key [auth.emailAddressVerificationEmail.error] and its unit of
    work is rolled back: unlike a failed invitation, this failure is not
    swallowed. *)
Theorem signup_fails_with_the_verification_email
    email password invitationToken tenantId o w :
  let hashed := bcrypt_hash (env w) password BCRYPT_SALT_ROUNDS in
  let newUser := createFromAuth_answer (env w) (before_at email) hashed email in
  oracle (env w) (UserRepository_findByEmail email) = None →
  findByEmail_answer (env w) email = None →
  oracle (env w) (UserRepository_createFromAuth (before_at email) hashed email)
    = None →
  EmailSender_isConfigured (getConfig (env w)) = true →
  link_fails (env w) tenantId (user_email newUser) →
  let '(r, w') :=
    AuthService.signup email password invitationToken tenantId o w in
  r = Throw (Error400 (language o)
               "auth.emailAddressVerificationEmail.error" []) ∧
  db w' = db w ∧
  tx_status <$> txs w' = (tx_status <$> txs w) ++ [TxRolledBack].
Proof.
  intros hashed newUser Ho1 Hu Ho2 Hc Hlink.
  pose proof (signup_transactional email password invitationToken tenantId o w)
    as Huow.
  destruct (AuthService.signup _ _ _ _ _ w) as [r w'] eqn:Hrun.
  assert (r = Throw (Error400 (language o)
                       "auth.emailAddressVerificationEmail.error" [])) as ->.
  { apply (f_equal fst) in Hrun. simpl in Hrun. rewrite <-Hrun.
    unfold AuthService.signup. unfold bind at 1.
    unfold SequelizeRepository.createTransaction. rewrite try_rollback_outcome.
    unfold bind at 1. rewrite findByEmail_run. simpl. rewrite Ho1, Hu.
    unfold bind at 1. rewrite hash_run. simpl.
    unfold bind at 1. rewrite createFromAuth_run. simpl.
    fold hashed. rewrite Ho2. fold newUser.
    unfold bind at 1. unfold bind at 1. rewrite isConfigured_run. simpl.
    rewrite Hc.
    match goal with
    | |- context [AuthService.sendEmailAddressVerificationEmail ?l ?m ?t ?c ?w3] =>
      pose proof (verification_email_fails l m t c w3 Hc Hlink) as Hfail;
      destruct (AuthService.sendEmailAddressVerificationEmail l m t c w3)
        as [r1 w4]
    end.
    simpl in Hfail. by rewrite Hfail. }
  simpl in Huow. destruct Huow as (_ & x & evs & -> & _ & Hst & Hd & _).
  split; [done|]. split; [done|]. rewrite fmap_app. simpl. by rewrite Hst.
Qed.

(** ** More of onboarding *)

Ltac run_handleOnboard H :=
  unfold AuthService.handleOnboard,
    TenantUserRepository.acceptInvitation,
    TenantService.joinWithDefaultRolesOrAskApproval,
    TenantService.joinDefaultUsingInvitedEmail,
    TenantService.createOrJoinDefault, console_error in H;
  unfold invoke, bind, try_catch, emit, read_env, throw, ret in H;
  simpl in H;
  repeat match type of H with
         | context [match ?x with _ => _ end] =>
           match x with
           | context [match _ with _ => _ end] => fail 1
           | _ => first [is_var x; destruct x | destruct x eqn:?]
           end; simpl in H
         end;
  injection H as <- <-; simpl.

(** X7: when there is no tenant to join, [handleOnboard] makes no call on
    [TenantService].  If the tenant mode is not [single], and either it is
    not one of the multi-tenant modes or no tenant id came with the request,
    then all [handleOnboard] does is to attempt the acceptance of the
    invitation, when a token came, and to log its failure; it makes no other
    call, and it returns. *)
Theorem handleOnboard_only_accepts_the_invitation
    u invitationToken tenantId o w :
  let mode := TENANT_MODE (getConfig (env w)) in
  mode ≠ "single" →
  mode ∉ ["multi"; "multi-with-subdomain"] ∨ truthy tenantId = false →
  let '(r, w') :=
    AuthService.handleOnboard u invitationToken tenantId o w in
  r = Ok tt ∧
  ∃ evs, trace w' = trace w ++ evs ∧
    match invitationToken with
    | Some tok =>
      if truthy invitationToken then
        evs = EvCall (transaction o)
                (TenantUserRepository_acceptInvitation tok u)
              :: match oracle (env w)
                         (TenantUserRepository_acceptInvitation tok u) with
                 | Some e => [EvConsoleError e]
                 | None => []
                 end
      else evs = []
    | None => evs = []
    end.
Proof.
  intros mode Hsingle Hmulti. subst mode.
  destruct (AuthService.handleOnboard _ _ _ _ w) as [r w'] eqn:Hrun.
  run_handleOnboard Hrun.
  all: try match goal with
           | H : String.eqb _ _ = true |- _ =>
             by apply String.eqb_eq in H
           end.
  all: try match goal with
           | H : bool_decide _ && _ = true |- _ =>
             apply andb_prop in H as [H1%bool_decide_eq_true H2];
             by destruct Hmulti as [Hm | Hm]; [|simpl in Hm; congruence]
           end.
  all: split; [done|]; simpl.
  all: try match goal with
           | H : negb _ = _ |- context [if negb _ then _ else _] => rewrite H
           end.
  all: first [ by exists []; rewrite app_nil_r
             | by eexists; split; [rewrite <-?app_assoc; reflexivity|] ].
Qed.

Lemma handleOnboard_single_failure u invitationToken tenantId o w e :
  TENANT_MODE (getConfig (env w)) = "single" →
  oracle (env w) (TenantService_joinDefaultUsingInvitedEmail u) = Some e →
  (AuthService.handleOnboard u invitationToken tenantId o w).1 = Throw e.
Proof.
  intros Hmode Ho.
  destruct (AuthService.handleOnboard _ _ _ _ w) as [r w'] eqn:Hrun.
  run_handleOnboard Hrun.
  all: rewrite Hmode in *.
  all: try match goal with
           | H : bool_decide _ && _ = true |- _ => by vm_compute in H
           | H : String.eqb _ _ = false |- _ => by vm_compute in H
           end.
  all: congruence.
Qed.

(** X8: in single-tenant mode a failure of [joinDefaultUsingInvitedEmail]
    is not caught: a [signin] that has passed authentication throws that
    error, its unit of work is rolled back, and no token is issued. *)
Theorem signin_fails_with_the_default_tenant
    email password invitationToken tenantId o w u e :
  failed_check (env w) email password = None →
  reads_succeed (env w) email →
  findByEmail_answer (env w) email = Some u →
  TENANT_MODE (getConfig (env w)) = "single" →
  oracle (env w) (TenantService_joinDefaultUsingInvitedEmail u) = Some e →
  let '(r, w') :=
    AuthService.signin email password invitationToken tenantId o w in
  r = Throw e ∧ db w' = db w ∧
  tx_status <$> txs w' = (tx_status <$> txs w) ++ [TxRolledBack].
Proof.
  intros Hc [Ho1 Ho2] Hu Hmode Ho.
  pose proof (signin_transactional email password invitationToken tenantId o w)
    as Huow.
  destruct (AuthService.signin _ _ _ _ _ w) as [r w'] eqn:Hrun.
  assert (r = Throw e) as ->.
  { apply (f_equal fst) in Hrun. simpl in Hrun. rewrite <-Hrun.
    unfold AuthService.signin. unfold bind at 1.
    unfold SequelizeRepository.createTransaction. rewrite try_rollback_outcome.
    unfold bind at 1. rewrite findByEmail_run. simpl. rewrite Ho1.
    unfold failed_check in Hc. rewrite Hu in *.
    unfold bind at 1. rewrite findPassword_run. simpl.
    rewrite (Ho2 u eq_refl).
    destruct (findPassword_answer (env w) (user_id u)) as [hashed|]; [|done].
    destruct (negb (truthy (Some hashed))); [done|].
    unfold bind at 1. rewrite compare_run. simpl.
    destruct (bcrypt_compare (env w) password hashed); [|done]. simpl.
    unfold bind at 1.
    match goal with
    | |- context [AuthService.handleOnboard ?a ?b ?c ?d ?w3] =>
      pose proof (handleOnboard_single_failure a b c d w3 e Hmode Ho) as Hfail;
      destruct (AuthService.handleOnboard a b c d w3) as [r1 w4]
    end.
    simpl in Hfail. by rewrite Hfail. }
  simpl in Huow. destruct Huow as (_ & x & evs & -> & _ & Hst & Hd & _).
  split; [done|]. split; [done|]. rewrite fmap_app. simpl. by rewrite Hst.
Qed.

(** ** An invitation whose acceptance fails *)






(** ** Tokens, from issue to lookup *)

(** X9: [findByToken] rejects a token before it looks anything up.  For a
    token signed under another secret than the configured one, or one that
    has expired, it throws the error of the verification and has made no
    call: the world is as it was. *)
Theorem findByToken_rejects_before_the_lookup t o w :
  signed_with t ≠ AUTH_JWT_SECRET (getConfig (env w)) ∨
  (exp t ≤ now (env w))%nat →
  ∃ msg, AuthService.findByToken t o w = (Throw (JsonWebTokenError msg), w).
Proof.
  intros Hbad. unfold AuthService.findByToken, jwt.verify.
  unfold bind at 1. unfold read_env at 1. unfold bind at 1 2.
  unfold read_env at 1. simpl.
  destruct (String.eqb (signed_with t) _) eqn:Hsig; simpl.
  - apply String.eqb_eq in Hsig.
    destruct Hbad as [Hbad | Hexp]; [done|].
    destruct (Nat.ltb_spec (now (env w)) (exp t)) as [Hlt | Hge]; [lia|].
    by eexists.
  - by eexists.
Qed.

Lemma findByToken_token_for e u o w :
  AUTH_JWT_SECRET (getConfig (env w)) = AUTH_JWT_SECRET (getConfig e) →
  AuthService.findByToken (token_for e u) o w =
    if Nat.ltb (now (env w)) (now e + AUTH_JWT_EXPIRES_IN (getConfig e))
    then lookup_by_id (user_id u) o w
    else (Throw (JsonWebTokenError "jwt expired"), w).
Proof.
  intros Hsecret.
  unfold AuthService.findByToken, jwt.verify, lookup_by_id,
    verified_when_unconfigured.
  unfold bind at 1. unfold read_env at 1. unfold bind at 1 2.
  unfold read_env at 1. simpl. rewrite Hsecret, String.eqb_refl. simpl.
  destruct (Nat.ltb (now (env w)) _); simpl; [|done].
  unfold bind at 1. unfold UserRepository.findById.
  unfold bind at 1. rewrite invoke_run. simpl.
  destruct (oracle (env w) (UserRepository_findById (Some (user_id u))));
    [done|].
  unfold bind, read_env, ret, EmailSender.isConfigured. simpl.
  destruct (findById_answer (env w) (Some (user_id u))) as [v|]; [|done].
  by destruct (EmailSender_isConfigured (getConfig (env w))).
Qed.

Lemma signin_token email password invitationToken tenantId o w t w' :
  AuthService.signin email password invitationToken tenantId o w = (Ok t, w') →
  ∃ u, findByEmail_answer (env w) email = Some u ∧ t = token_for (env w) u.
Proof.
  intros Hrun. apply (f_equal fst) in Hrun. simpl in Hrun. revert Hrun.
  unfold AuthService.signin. unfold bind at 1.
  unfold SequelizeRepository.createTransaction. rewrite try_rollback_outcome.
  unfold bind at 1. rewrite findByEmail_run. simpl.
  destruct (oracle (env w) (UserRepository_findByEmail email)); [done|].
  destruct (findByEmail_answer (env w) email) as [u|]; [|done].
  unfold bind at 1. rewrite findPassword_run. simpl.
  destruct (oracle (env w) (UserRepository_findPassword _)); [done|].
  destruct (findPassword_answer (env w) (user_id u)) as [hashed|]; [|done].
  destruct (negb (truthy (Some hashed))); [done|].
  unfold bind at 1. rewrite compare_run. simpl.
  destruct (bcrypt_compare (env w) password hashed); [|done]. simpl.
  match goal with |- (?m ?w3).1 = _ → _ =>
    destruct (m w3) as [r1 w1] eqn:Htail
  end.
  apply (onboard_and_commit _ _ _ _ (length (txs w))) in Htail
    as (_ & Hok & _).
  2:{ eexists. simpl. apply snoc_lookup_last. }
  simpl. intros ->. exists u. split; [done|]. by apply Hok.
Qed.

Lemma signup_token email password invitationToken tenantId o w t w' :
  AuthService.signup email password invitationToken tenantId o w = (Ok t, w') →
  t = token_for (env w) (signed_up (env w) email password).
Proof.
  intros Hrun. apply (f_equal fst) in Hrun. simpl in Hrun. revert Hrun.
  unfold AuthService.signup, signed_up. unfold bind at 1.
  unfold SequelizeRepository.createTransaction. rewrite try_rollback_outcome.
  unfold bind at 1. rewrite findByEmail_run. simpl.
  destruct (oracle (env w) (UserRepository_findByEmail email)); [done|].
  unfold bind at 1. rewrite hash_run. simpl.
  set (t0 := length (txs w)).
  destruct (findByEmail_answer (env w) email) as [u|].
  - unfold bind at 1. rewrite findPassword_run. simpl.
    destruct (oracle (env w) (UserRepository_findPassword _)); [done|].
    destruct (truthy _); [done|].
    match goal with |- (?m ?w3).1 = _ → _ =>
      destruct (m w3) as [r1 w1] eqn:Htail
    end.
    simpl. intros ->.
    apply (bind_scoped t0) in Htail as [[? [=]]|(? & w2 & Hs2 & Htail)];
      [|scoped|eexists; simpl; apply snoc_lookup_last].
    apply (bind_scoped t0) in Htail as [[? [=]]|(? & w3 & Hs3 & Htail)];
      [|scoped|by eapply scoped_open].
    apply (onboard_and_commit _ _ _ _ t0) in Htail as (_ & Hok & _);
      [|by eapply scoped_open].
    by rewrite (Hok t eq_refl), (scoped_env _ _ _ Hs3), (scoped_env _ _ _ Hs2).
  - unfold bind at 1. rewrite createFromAuth_run. simpl.
    destruct (oracle (env w) (UserRepository_createFromAuth _ _ _));
      [done|].
    match goal with |- (?m ?w3).1 = _ → _ =>
      destruct (m w3) as [r1 w1] eqn:Htail
    end.
    simpl. intros ->.
    apply (bind_scoped t0) in Htail as [[? [=]]|(? & w3 & Hs3 & Htail)];
      [|scoped|eexists; simpl; apply snoc_lookup_last].
    apply (onboard_and_commit _ _ _ _ t0) in Htail as (_ & Hok & _);
      [|by eapply scoped_open].
    by rewrite (Hok t eq_refl), (scoped_env _ _ _ Hs3).
Qed.

(** X10: from issue to lookup.  The token [signin] or [signup] returned is
    accepted by [findByToken] wherever the same secret is configured, until
    the configured time has passed: the lookup is then made for the id of the
    user who signed in or up, by one call of [UserRepository.findById], and
    the answer is the user that call finds (counted as verified without a
    configured email sender).  From then on the token is rejected as expired,
    without any lookup. *)
Theorem issued_token_round_trip
    email password invitationToken tenantId o w t w' o2 w2 :
  AuthService.signin email password invitationToken tenantId o w = (Ok t, w') ∨
  AuthService.signup email password invitationToken tenantId o w = (Ok t, w') →
  AUTH_JWT_SECRET (getConfig (env w2)) = AUTH_JWT_SECRET (getConfig (env w)) →
  AuthService.findByToken t o2 w2 =
    if Nat.ltb (now (env w2))
         (now (env w) + AUTH_JWT_EXPIRES_IN (getConfig (env w)))
    then lookup_by_id (user_id (signed_up (env w) email password)) o2 w2
    else (Throw (JsonWebTokenError "jwt expired"), w2).
Proof.
  intros [Hin | Hup] Hsecret.
  - apply signin_token in Hin as (u & Hu & ->).
    unfold signed_up. rewrite Hu. by apply findByToken_token_for.
  - apply signup_token in Hup as ->. by apply findByToken_token_for.
Qed.

(** ** When signing in and signing up succeed *)

Lemma handleOnboard_returns u invitationToken tenantId o w :
  no_failure (env w) →
  (AuthService.handleOnboard u invitationToken tenantId o w).1 = Ok tt.
Proof.
  intros Hno.
  destruct (AuthService.handleOnboard _ _ _ _ w) as [r w'] eqn:Hrun.
  run_handleOnboard Hrun.
  all: try done.
  all: match goal with
       | H : oracle _ _ = Some _ |- _ => by rewrite Hno in H
       end.
Qed.

Lemma onboard_and_commit_returns u invitationToken tenantId o t w :
  open_at t w → no_failure (env w) →
  AUTH_JWT_SECRET (getConfig (env w)) ≠ "" →
  ((AuthService.handleOnboard u invitationToken tenantId o >>
    let* token := issue_token u in
    SequelizeRepository.commitTransaction t >> ret token) w).1
  = Ok (token_for (env w) u).
Proof.
  intros Hopen Hno Hsecret. unfold bind at 1.
  pose proof (Scoped_handleOnboard t u invitationToken tenantId o w Hopen)
    as Hsc.
  pose proof (handleOnboard_returns u invitationToken tenantId o w Hno)
    as Hret.
  destruct (AuthService.handleOnboard _ _ _ _ w) as [r w1].
  simpl in Hsc, Hret. subst r.
  destruct Hsc as (He & _ & _ & (ws & ws' & _ & Htx) & _).
  assert (txs w1 !! t = Some (Txn TxOpen (ws ++ ws'))) as Hopen1.
  { rewrite Htx. apply list_lookup_insert_eq.
    destruct Hopen as [? ?]. by eapply lookup_lt_Some. }
  unfold bind at 1. rewrite issue_token_run, He.
  apply String.eqb_neq in Hsecret. rewrite Hsecret.
  unfold bind at 1. rewrite (commit_step _ _ _ Hopen1). simpl.
  by rewrite He, Hno, failed_in_no_failure.
Qed.

Lemma committed_statuses {A} (m : M A) w a :
  transactional m → (m w).1 = Ok a →
  tx_status <$> txs (m w).2 = (tx_status <$> txs w) ++ [TxCommitted].
Proof.
  intros Hm Hr. specialize (Hm w). rewrite Hr in Hm.
  destruct Hm as (_ & x & evs & -> & _ & Hst & _).
  rewrite fmap_app. simpl. by rewrite Hst.
Qed.

(** X11: when [signin] succeeds.  For an email and a password that pass the
    three checks, with a secret configured for the tokens, in an environment
    where no call fails, [signin] returns the token of the user of that
    email, and its unit of work is committed. *)
Theorem signin_succeeds email password invitationToken tenantId o w u :
  failed_check (env w) email password = None →
  findByEmail_answer (env w) email = Some u →
  no_failure (env w) →
  AUTH_JWT_SECRET (getConfig (env w)) ≠ "" →
  let '(r, w') :=
    AuthService.signin email password invitationToken tenantId o w in
  r = Ok (token_for (env w) u) ∧
  tx_status <$> txs w' = (tx_status <$> txs w) ++ [TxCommitted].
Proof.
  intros Hc Hu Hno Hsecret.
  assert ((AuthService.signin email password invitationToken tenantId o w).1
          = Ok (token_for (env w) u)) as Hr.
  { unfold AuthService.signin. unfold bind at 1.
    unfold SequelizeRepository.createTransaction. rewrite try_rollback_outcome.
    unfold bind at 1. rewrite findByEmail_run. simpl. rewrite Hno.
    unfold failed_check in Hc. rewrite Hu in *.
    unfold bind at 1. rewrite findPassword_run. simpl. rewrite Hno.
    destruct (findPassword_answer (env w) (user_id u)) as [hashed|]; [|done].
    destruct (negb (truthy (Some hashed))); [done|].
    unfold bind at 1. rewrite compare_run. simpl.
    destruct (bcrypt_compare (env w) password hashed); [|done]. simpl.
    match goal with
    | |- (_ ?w3).1 = _ =>
      change (token_for (env w) u) with (token_for (env w3) u);
      apply (onboard_and_commit_returns u invitationToken tenantId _
               (length (txs w)) w3); [|done|done]
    end.
    eexists. simpl. apply snoc_lookup_last. }
  pose proof (committed_statuses _ w _
                (signin_transactional email password invitationToken tenantId o)
                Hr) as Hst.
  by destruct (AuthService.signin _ _ _ _ _ w) as [r w'].
Qed.

Lemma verification_email_returns language email tenantId o w :
  no_failure (env w) →
  EmailSender_isConfigured (getConfig (env w)) = true →
  (AuthService.sendEmailAddressVerificationEmail language email tenantId o
     w).1 = Ok tt.
Proof.
  intros Hno Hc.
  unfold AuthService.sendEmailAddressVerificationEmail.
  unfold bind at 1. rewrite isConfigured_run, Hc. simpl.
  unfold bind at 1, try_catch.
  unfold TenantRepository.findById, tenantSubdomain.frontendUrl,
    UserRepository.generateEmailVerificationToken, EmailSender.sendTo.
  unfold bind at 1. rewrite ask_run. simpl. rewrite Hno.
  unfold bind at 1. rewrite ask_run. simpl. rewrite Hno.
  unfold bind at 1. rewrite ask_run. simpl. rewrite Hno.
  unfold ret. rewrite invoke_run. simpl. by rewrite Hno.
Qed.

(** The end of [signup], from the verification email on, when nothing
    fails. *)
Lemma signup_rest_returns u language invitationToken tenantId o1 o2 t w :
  open_at t w → no_failure (env w) →
  AUTH_JWT_SECRET (getConfig (env w)) ≠ "" →
  (((let* isConfigured := EmailSender.isConfigured in
     if isConfigured then
       AuthService.sendEmailAddressVerificationEmail language
         (user_email u) tenantId o1
     else ret tt) >>
    AuthService.handleOnboard u invitationToken tenantId o2 >>
    let* token := issue_token u in
    SequelizeRepository.commitTransaction t >> ret token) w).1
  = Ok (token_for (env w) u).
Proof.
  intros Hopen Hno Hsecret. unfold bind at 1.
  assert (Scoped t
            (let* isConfigured := EmailSender.isConfigured in
             if isConfigured then
               AuthService.sendEmailAddressVerificationEmail language
                 (user_email u) tenantId o1
             else ret tt)) as Hsc by scoped.
  specialize (Hsc w Hopen).
  assert (((let* isConfigured := EmailSender.isConfigured in
            if isConfigured then
              AuthService.sendEmailAddressVerificationEmail language
                (user_email u) tenantId o1
            else ret tt) w).1 = Ok tt) as Hret.
  { unfold bind at 1. rewrite isConfigured_run. simpl.
    destruct (EmailSender_isConfigured (getConfig (env w))) eqn:Hc; [|done].
    by apply verification_email_returns. }
  destruct ((let* isConfigured := EmailSender.isConfigured in _) w)
    as [r w1].
  simpl in Hsc, Hret. subst r.
  rewrite <-(scoped_env _ _ _ Hsc).
  apply onboard_and_commit_returns; [by eapply scoped_open| |];
    by rewrite (scoped_env _ _ _ Hsc).
Qed.

(** X12: when [signup] succeeds.  For an email the repository does not know,
    or knows without a password (an invited user), with a secret configured
    for the tokens, in an environment where no call fails, [signup] returns
    the token of that user, the invited one or the one created, and its unit
    of work is committed. *)
Theorem signup_succeeds email password invitationToken tenantId o w :
  no_failure (env w) →
  AUTH_JWT_SECRET (getConfig (env w)) ≠ "" →
  (∀ u, findByEmail_answer (env w) email = Some u →
        truthy (findPassword_answer (env w) (user_id u)) = false) →
  let '(r, w') :=
    AuthService.signup email password invitationToken tenantId o w in
  r = Ok (token_for (env w) (signed_up (env w) email password)) ∧
  tx_status <$> txs w' = (tx_status <$> txs w) ++ [TxCommitted].
Proof.
  intros Hno Hsecret Hpw.
  assert ((AuthService.signup email password invitationToken tenantId o w).1
          = Ok (token_for (env w) (signed_up (env w) email password))) as Hr.
  { unfold AuthService.signup, signed_up. unfold bind at 1.
    unfold SequelizeRepository.createTransaction. rewrite try_rollback_outcome.
    unfold bind at 1. rewrite findByEmail_run. simpl. rewrite Hno.
    unfold bind at 1. rewrite hash_run. simpl.
    destruct (findByEmail_answer (env w) email) as [u|].
    - unfold bind at 1. rewrite findPassword_run. simpl. rewrite Hno.
      rewrite (Hpw u eq_refl).
      unfold bind at 1. rewrite updatePassword_run. simpl. rewrite Hno.
      match goal with
      | |- (_ ?w3).1 = _ =>
        change (token_for (env w) u) with (token_for (env w3) u);
        apply (signup_rest_returns u (language o) invitationToken tenantId
                 _ _ (length (txs w)) w3); [|done|done]
      end.
      eexists. simpl. apply snoc_lookup_last.
    - unfold bind at 1. rewrite createFromAuth_run. simpl. rewrite Hno.
      match goal with
      | |- (_ ?w3).1 = Ok (token_for _ ?v) =>
        change (token_for (env w) v) with (token_for (env w3) v);
        apply (signup_rest_returns v (language o) invitationToken tenantId
                 _ _ (length (txs w)) w3); [|done|done]
      end.
      eexists. simpl. apply snoc_lookup_last. }
  pose proof (committed_statuses _ w _
                (signup_transactional email password invitationToken tenantId o)
                Hr) as Hst.
  by destruct (AuthService.signup _ _ _ _ _ w) as [r w'].
Qed.

(** ** Changing and resetting the password, verifying the email *)

(** X13: [changePassword] for the signed-in user, whose stored hash the
    repository hands out.  It opens no unit of work: its calls are made under
    the transaction of the caller's options, if there is one.  When the old
    password does not match the stored hash it throws the validation error of
    key [auth.passwordChange.invalidPassword], and the lookup of the stored
    hash is the only call it has made; when it matches, exactly one call
    follows, [updatePassword] for the signed-in user with the bcrypt hash of
    the new password under [BCRYPT_SALT_ROUNDS], and the outcome is that of
    this call. *)
Theorem changePassword_contract oldPassword newPassword o w u hashed :
  currentUser o = Some u →
  oracle (env w) (UserRepository_findPassword (user_id u)) = None →
  findPassword_answer (env w) (user_id u) = Some hashed →
  let '(r, w') := changePassword oldPassword newPassword o w in
  let the_write :=
    UserRepository_updatePassword (user_id u)
      (bcrypt_hash (env w) newPassword BCRYPT_SALT_ROUNDS) in
  txs w' = txs w ∧
  ∃ evs,
    trace w' =
      trace w
      ++ EvCall (transaction o) (UserRepository_findPassword (user_id u))
         :: evs ∧
    if bcrypt_compare (env w) oldPassword hashed then
      evs = [EvCall (transaction o) the_write] ∧
      r = match oracle (env w) the_write with
          | Some e => Throw e
          | None => Ok tt
          end
    else
      evs = [] ∧
      r = Throw (Error400 (language o)
                   "auth.passwordChange.invalidPassword" []).
Proof.
  intros Hu Ho Hpw.
  destruct (changePassword oldPassword newPassword o w) as [r w'] eqn:Hrun.
  unfold changePassword in Hrun. rewrite Hu in Hrun.
  unfold bind at 1 in Hrun. rewrite findPassword_run in Hrun.
  simpl in Hrun. rewrite Ho, Hpw in Hrun.
  unfold bind at 1 in Hrun. rewrite compare_run in Hrun. simpl in Hrun.
  destruct (bcrypt_compare (env w) oldPassword hashed); simpl in Hrun.
  - unfold bind at 1 in Hrun. rewrite hash_run in Hrun.
    rewrite updatePassword_run in Hrun. injection Hrun as <- <-. simpl.
    split; [done|]. rewrite <-app_assoc. by eexists.
  - injection Hrun as <- <-. simpl. split; [done|]. by eexists.
Qed.

Section Collaborators.
Context {R : Type}
  (findByEmailVerificationToken : string → options → M (option user))
  (markEmailVerified : nat → options → M R)
  (findByPasswordResetToken : string → options → M (option user))
  (generatePasswordResetToken : string → options → M string).

(** X14: [passwordReset], whatever [findByPasswordResetToken] is.  When the
    lookup of the token fails, so does the reset, with the same error; when
    it finds no user, the reset throws the validation error of key
    [auth.passwordReset.invalidToken]; in both cases nothing is done after
    the lookup.  When it finds a user, the one thing done after the lookup is
    the call of [updatePassword] for that user with the bcrypt hash of the
    new password under [BCRYPT_SALT_ROUNDS], and the outcome is that of this
    call. *)
Theorem passwordReset_contract token password o w :
  let '(found, w1) := findByPasswordResetToken token o w in
  let '(r, w') :=
    passwordReset findByPasswordResetToken token password o w in
  match found with
  | Throw e => r = Throw e ∧ w' = w1
  | Ok None =>
    r = Throw (Error400 (language o) "auth.passwordReset.invalidToken" []) ∧
    w' = w1
  | Ok (Some user) =>
    let the_write :=
      UserRepository_updatePassword (user_id user)
        (bcrypt_hash (env w1) password BCRYPT_SALT_ROUNDS) in
    r = match oracle (env w1) the_write with
        | Some e => Throw e
        | None => Ok tt
        end ∧
    w' = set_trace (trace w1 ++ [EvCall (transaction o) the_write]) w1
  end.
Proof.
  unfold passwordReset. unfold bind at 1.
  destruct (findByPasswordResetToken token o w) as [[[user|]|e] w1];
    [|done|done].
  unfold bind at 1. rewrite hash_run, updatePassword_run. done.
Qed.

(** X15: [verifyEmail], whatever the two repository methods are.  With a
    token that belongs to no user it throws the validation error of key
    [auth.emailAddressVerificationEmail.invalidToken].  With the token of a
    user, when somebody else is signed in (with an id that is not falsy), it
    throws the validation error of key
    [auth.emailAddressVerificationEmail.signedInAsWrongUser] with the email of
    the token and the email of the signed-in user as arguments.  In both
    cases [markEmailVerified] is not run.  Otherwise (nobody signed in, or
    the user of the token) it is [markEmailVerified] for the user of the
    token. *)
Theorem verifyEmail_contract token o w :
  let '(found, w1) := findByEmailVerificationToken token o w in
  let run :=
    verifyEmail findByEmailVerificationToken markEmailVerified token o w in
  (found = Ok None →
   run = (Throw (Error400 (language o)
                   "auth.emailAddressVerificationEmail.invalidToken" []),
          w1)) ∧
  (∀ user signedIn,
     found = Ok (Some user) → currentUser o = Some signedIn →
     user_id signedIn ≠ 0 → user_id signedIn ≠ user_id user →
     run = (Throw (Error400 (language o)
                     "auth.emailAddressVerificationEmail.signedInAsWrongUser"
                     [user_email user; user_email signedIn]),
            w1)) ∧
  (∀ user,
     found = Ok (Some user) →
     currentUser o = None ∨
     (∃ signedIn, currentUser o = Some signedIn ∧
                  user_id signedIn = user_id user) →
     run = markEmailVerified (user_id user) o w1).
Proof.
  unfold verifyEmail. cbv zeta. unfold bind.
  destruct (findByEmailVerificationToken token o w) as [found w1].
  split; [by intros ->|]. split.
  - intros user signedIn -> -> Hid Hne. unfold id_truthy.
    destruct (Nat.eqb_spec (user_id signedIn) 0) as [|_]; [done|].
    by destruct (Nat.eqb_spec (user_id signedIn) (user_id user)).
  - intros user -> [-> | (signedIn & -> & ->)]; [done|].
    by rewrite Nat.eqb_refl, andb_false_r.
Qed.

(** X16: the password reset email, whatever [generatePasswordResetToken]
    is.  Without a configured email sender [sendPasswordResetEmail] throws
    the validation error of key [email.error] and does nothing else: no reset
    token is generated.  With one, when the tenant cannot be found, the
    caller gets the validation error of key [auth.passwordReset.error], the
    original error is logged, and neither a token is generated nor a mail
    sent; and when generating the token fails, the caller gets that same
    validation error, and nothing is done after but logging the original
    error.  When the link is built, what remains is to send to [email] the
    mail of the template [PASSWORD_RESET] with the link
    [<frontend>/auth/password-reset?token=<token>]. *)
Theorem password_reset_email_contract language email tenantId o w :
  let run :=
    sendPasswordResetEmail generatePasswordResetToken language email tenantId
      o w in
  let found :=
    set_trace
      (trace w ++ [EvCall (transaction o) (TenantRepository_findById tenantId)])
      w in
  (EmailSender_isConfigured (getConfig (env w)) = false →
   run = (Throw (Error400 language "email.error" []), w)) ∧
  (∀ e, EmailSender_isConfigured (getConfig (env w)) = true →
        oracle (env w) (TenantRepository_findById tenantId) = Some e →
   run = (Throw (Error400 language "auth.passwordReset.error" []),
          set_trace (trace found ++ [EvConsoleError e]) found)) ∧
  (∀ e w2, EmailSender_isConfigured (getConfig (env w)) = true →
           oracle (env w) (TenantRepository_findById tenantId) = None →
           generatePasswordResetToken email o found = (Throw e, w2) →
   run = (Throw (Error400 language "auth.passwordReset.error" []),
          set_trace (trace w2 ++ [EvConsoleError e]) w2)) ∧
  (∀ token w2,
     let tenant := answer (env w) (TenantRepository_findById tenantId) in
     let url := answer (env w2) (tenantSubdomain_frontendUrl tenant) in
     EmailSender_isConfigured (getConfig (env w)) = true →
     oracle (env w) (TenantRepository_findById tenantId) = None →
     generatePasswordResetToken email o found = (Ok token, w2) →
     oracle (env w2) (tenantSubdomain_frontendUrl tenant) = None →
   run = EmailSender.sendTo PASSWORD_RESET
           (url +:+ "/auth/password-reset?token=" +:+ token) email
           (set_trace
              (trace w2 ++ [EvCall None (tenantSubdomain_frontendUrl tenant)])
              w2)).
Proof.
  cbv zeta. unfold sendPasswordResetEmail. split; [|split; [|split]].
  - intros Hc. unfold bind at 1. by rewrite isConfigured_run, Hc.
  - intros e Hc Ho. unfold bind at 1. rewrite isConfigured_run, Hc. simpl.
    unfold bind at 1, try_catch. unfold TenantRepository.findById.
    unfold bind at 1. by rewrite ask_run, Ho.
  - intros e w2 Hc Ho Hgen. unfold bind at 1.
    rewrite isConfigured_run, Hc. simpl.
    unfold bind at 1, try_catch. unfold TenantRepository.findById.
    unfold bind at 1. rewrite ask_run, Ho. simpl.
    unfold bind at 1. simpl in Hgen. by rewrite Hgen.
  - intros token w2 Hc Ho Hgen Hurl. unfold bind at 1.
    rewrite isConfigured_run, Hc. simpl.
    unfold bind at 1, try_catch. unfold TenantRepository.findById.
    unfold bind at 1. rewrite ask_run, Ho. simpl.
    unfold bind at 1. simpl in Hgen. rewrite Hgen.
    unfold tenantSubdomain.frontendUrl. unfold bind at 1.
    by rewrite ask_run, Hurl.
Qed.

End Collaborators.

(** ** More of VisitorService *)

(** X17: only [create] notifies.  Neither [update] nor [destroyAll] calls
    [sdpService], on any path. *)
Theorem update_and_destroyAll_do_not_notify this id data ids w :
  (∃ evs, trace (VisitorService.update this id data w).2 = trace w ++ evs ∧
          notified evs = []) ∧
  (∃ evs, trace (VisitorService.destroyAll this ids w).2 = trace w ++ evs ∧
          notified evs = []).
Proof.
  assert (Avoids (λ _, True) notification
            (VisitorService.update this id data)) as Hupdate.
  { unfold VisitorService.update. avoids. }
  assert (Avoids (λ _, True) notification
            (VisitorService.destroyAll this ids)) as Hdestroy.
  { unfold VisitorService.destroyAll. avoids. }
  split.
  - destruct (Hupdate w I) as (_ & evs & Ht & Hn). by exists evs.
  - destruct (Hdestroy w I) as (_ & evs & Ht & Hn). by exists evs.
Qed.

Lemma import_run this data h w :
  truthy (Some h) = true →
  VisitorService.import this data (Some h) w =
    match VisitorRepository.count h this w with
    | (Ok n, w1) =>
      if bool_decide (0 < n) then
        (Throw (Error400 (language this)
                  "importer.errors.importHashExistent" []), w1)
      else VisitorService.create this (<["importHash" := h]> data) w1
    | (Throw e, w1) => (Throw e, w1)
    end.
Proof.
  intros Hh. unfold VisitorService.import. rewrite Hh. simpl.
  unfold VisitorService._isImportHashExistent. unfold bind at 1 2.
  destruct (VisitorRepository.count h this w) as [[n|e] w1]; [|done].
  unfold ret. by destruct (bool_decide (0 < n)).
Qed.

(** How a run of [create] begins. *)
Lemma create_begins this data w :
  let t := length (txs w) in
  ∃ evs, trace (VisitorService.create this data w).2 =
           trace w ++ EvCreateTransaction t
                   :: EvCall (Some t) (VisitorRepository_create data) :: evs.
Proof.
  unfold VisitorService.create, SequelizeRepository.createTransaction.
  unfold bind at 1, try_catch. unfold bind at 1.
  erewrite create_step by apply snoc_lookup_last. simpl.
  destruct (oracle (env w) (VisitorRepository_create data)) as [e1|] eqn:Ho.
  { unfold bind at 1. erewrite rollback_step by apply snoc_lookup_last.
    rewrite handle_then_throw. simpl. rewrite <-!app_assoc. by eexists. }
  destruct (VisitorRepository.violated _ _ _ _) as [path|].
  { unfold bind at 1. erewrite rollback_step by apply snoc_lookup_last.
    rewrite handle_then_throw. simpl. rewrite <-!app_assoc. by eexists. }
  unfold bind at 1.
  erewrite commit_step
    by (simpl; rewrite snoc_insert_last; apply snoc_lookup_last).
  simpl. rewrite failed_in_call, failed_in_created by done.
  destruct (oracle (env w) SequelizeRepository_commitTransaction).
  { unfold bind at 1.
    erewrite rollback_step
      by (simpl; rewrite snoc_insert_last; apply snoc_lookup_last).
    rewrite handle_then_throw. simpl. rewrite <-!app_assoc. by eexists. }
  unfold sdpService, bind, emit, ret. simpl. rewrite <-!app_assoc.
  by eexists.
Qed.

(** X18: [import] checks the hash outside the unit of work.  The count of
    the records of the hash is the first thing done, under the transaction
    of the caller's options (none, usually), not under the unit of work of
    the creation, which does not exist yet.  When the import is rejected, or
    the count fails, no unit of work has been created and the committed rows
    are as before.  Otherwise the unit of work of [create] is created after
    the count, and its first call hands [data] with the [importHash]
    attribute set to the repository. *)
Theorem import_counts_outside_the_unit_of_work this data h w :
  truthy (Some h) = true →
  let '(r, w') := VisitorService.import this data (Some h) w in
  let t := length (txs w) in
  ∃ evs,
    trace w' =
      trace w ++ EvCall (transaction this) (VisitorRepository_count h) :: evs ∧
    ((evs = [] ∧ txs w' = txs w ∧ db w' = db w ∧ ∃ e, r = Throw e) ∨
     (∃ evs' x,
        evs = EvCreateTransaction t
              :: EvCall (Some t)
                   (VisitorRepository_create (<["importHash" := h]> data))
              :: evs' ∧
        txs w' = txs w ++ [x])).
Proof.
  intros Hh. rewrite (import_run _ _ _ _ Hh), count_run. cbv zeta.
  destruct (oracle (env w) (VisitorRepository_count h)) as [e|].
  { exists []. split; [done|]. left. by eauto. }
  destruct (bool_decide (0 < _)).
  { exists []. split; [done|]. left. by eauto. }
  match goal with
  | |- context [VisitorService.create this ?d ?w1] =>
    destruct (create_begins this d w1) as (evs' & Ht);
    pose proof (create_transactional this d w1) as (_ & x & _ & Htx & _);
    destruct (VisitorService.create this d w1) as [r w']
  end.
  simpl in *. eexists. rewrite Ht, <-app_assoc. split; [done|].
  right. by exists evs', x.
Qed.

(** X19: the record [import] returns carries the import hash given, also
    when [data] came with an [importHash] of its own; its other attributes
    are those of [data], and it is among the committed rows. *)
Theorem import_sets_the_hash this data h w record w' :
  VisitorService.import this data (Some h) w = (Ok record, w') →
  rec_attrs record !! "importHash" = Some h ∧
  (∀ k, k ≠ "importHash" → rec_attrs record !! k = data !! k) ∧
  db w' !! rec_id record = Some (rec_attrs record).
Proof.
  intros Hrun.
  assert (truthy (Some h) = true) as Hh.
  { unfold VisitorService.import in Hrun. by destruct (truthy (Some h)). }
  rewrite (import_run _ _ _ _ Hh), count_run in Hrun. cbv zeta in Hrun.
  destruct (oracle (env w) (VisitorRepository_count h)); [done|].
  destruct (bool_decide (0 < _)); [done|].
  match type of Hrun with
  | VisitorService.create _ ?d ?w0 = _ =>
    destruct (create_failure d w0) as [e|] eqn:Hf;
    [destruct (create_fail this _ _ _ Hf) as (? & ? & Hrun' & _)
    |pose proof (create_ok this _ _ Hf) as Hrun']
  end; rewrite Hrun' in Hrun; [done|].
  injection Hrun as <- <-. simpl. split; [apply lookup_insert_eq|].
  split; [|apply lookup_insert_eq].
  intros k Hk. by apply lookup_insert_ne.
Qed.

(** ** The verification email of a signup *)

Lemma verification_email_run language email tenantId o w :
  only_invitations_fail (env w) →
  EmailSender_isConfigured (getConfig (env w)) = true →
  let tenant := answer (env w) (TenantRepository_findById tenantId) in
  let token :=
    answer (env w) (UserRepository_generateEmailVerificationToken email) in
  let url := answer (env w) (tenantSubdomain_frontendUrl tenant) in
  let link := url +:+ "/auth/verify-email?token=" +:+ token in
  AuthService.sendEmailAddressVerificationEmail language email tenantId o w =
    (Ok tt,
     set_trace
       (trace w ++
        [EvCall (transaction o) (TenantRepository_findById tenantId);
         EvCall (transaction o)
           (UserRepository_generateEmailVerificationToken email);
         EvCall None (tenantSubdomain_frontendUrl tenant);
         EvCall None
           (EmailSender_sendTo EmailSender.EMAIL_ADDRESS_VERIFICATION link
              email)]) w).
Proof.
  intros Hfail Hc. cbv zeta.
  unfold AuthService.sendEmailAddressVerificationEmail.
  unfold bind at 1. rewrite isConfigured_run, Hc. simpl.
  unfold bind at 1, try_catch.
  unfold TenantRepository.findById, tenantSubdomain.frontendUrl,
    UserRepository.generateEmailVerificationToken, EmailSender.sendTo.
  unfold bind at 1. rewrite ask_run. simpl.
  destruct (oracle (env w) (TenantRepository_findById tenantId)) eqn:Ho1.
  { by destruct (Hfail _ (mk_is_Some _ _ Ho1)) as (? & ? & [=]). }
  unfold bind at 1. rewrite ask_run. simpl.
  destruct (oracle (env w)
              (UserRepository_generateEmailVerificationToken email)) eqn:Ho2.
  { by destruct (Hfail _ (mk_is_Some _ _ Ho2)) as (? & ? & [=]). }
  unfold bind at 1. rewrite ask_run. simpl.
  destruct (oracle (env w) (tenantSubdomain_frontendUrl _)) eqn:Ho3.
  { by destruct (Hfail _ (mk_is_Some _ _ Ho3)) as (? & ? & [=]). }
  unfold ret. rewrite invoke_run. simpl.
  destruct (oracle (env w) (EmailSender_sendTo _ _ _)) eqn:Ho4.
  { by destruct (Hfail _ (mk_is_Some _ _ Ho4)) as (? & ? & [=]). }
  by rewrite <-!app_assoc.
Qed.

Lemma onboard_and_commit_avoids_mail u invitationToken tenantId o t :
  Avoids (λ _, True) mail
    (AuthService.handleOnboard u invitationToken tenantId o >>
     let* token := issue_token u in
     SequelizeRepository.commitTransaction t >> ret token).
Proof. unfold issue_token. avoids. Qed.

Lemma mails_app l1 l2 : mails (l1 ++ l2) = mails l1 ++ mails l2.
Proof. apply omap_app. Qed.

(** X20: with a configured email sender, a [signup] in which no call fails
    (but, possibly, the acceptance of an invitation) hands exactly one mail
    to the email sender: the verification email, with the link built for the
    tenant of the request, addressed to the email the repository has for the
    user (the invited one, or the one created), which need not be the email
    as it was typed. *)
Theorem signup_sends_one_verification_email
    email password invitationToken tenantId o w :
  only_invitations_fail (env w) →
  EmailSender_isConfigured (getConfig (env w)) = true →
  (∀ u, findByEmail_answer (env w) email = Some u →
        truthy (findPassword_answer (env w) (user_id u)) = false) →
  let '(r, w') :=
    AuthService.signup email password invitationToken tenantId o w in
  let address := user_email (signed_up (env w) email password) in
  let tenant := answer (env w) (TenantRepository_findById tenantId) in
  let token :=
    answer (env w) (UserRepository_generateEmailVerificationToken address) in
  let url := answer (env w) (tenantSubdomain_frontendUrl tenant) in
  ∃ evs, trace w' = trace w ++ evs ∧
    mails evs = [(EmailSender.EMAIL_ADDRESS_VERIFICATION,
                  url +:+ "/auth/verify-email?token=" +:+ token,
                  address)].
Proof.
  intros Hfail Hc Hpw.
  destruct (AuthService.signup _ _ _ _ _ w) as [r w'] eqn:Hrun.
  unfold AuthService.signup in Hrun.
  apply (rollback_rethrow_run
           (λ t, let* existingUser := UserRepository.findByEmail email o in _))
    in Hrun as (wb & tl & Hbody & _ & _ & Ht & Htl).
  assert (mails tl = []) as Hmtl by (by destruct Htl as [-> | ->]).
  cbv zeta. unfold signed_up.
  unfold bind at 1 in Hbody. rewrite findByEmail_run in Hbody. simpl in Hbody.
  destruct (oracle (env w) (UserRepository_findByEmail email)) eqn:Ho1.
  { by destruct (Hfail _ (mk_is_Some _ _ Ho1)) as (? & ? & [=]). }
  unfold bind at 1 in Hbody. rewrite hash_run in Hbody. simpl in Hbody.
  destruct (findByEmail_answer (env w) email) as [u|].
  - unfold bind at 1 in Hbody. rewrite findPassword_run in Hbody.
    simpl in Hbody.
    destruct (oracle (env w) (UserRepository_findPassword (user_id u)))
      eqn:Ho2.
    { by destruct (Hfail _ (mk_is_Some _ _ Ho2)) as (? & ? & [=]). }
    rewrite (Hpw u eq_refl) in Hbody.
    unfold bind at 1 in Hbody. rewrite updatePassword_run in Hbody.
    simpl in Hbody.
    destruct (oracle (env w) (UserRepository_updatePassword _ _)) eqn:Ho3.
    { by destruct (Hfail _ (mk_is_Some _ _ Ho3)) as (? & ? & [=]). }
    unfold bind at 1 in Hbody. unfold bind at 1 in Hbody.
    rewrite isConfigured_run in Hbody. simpl in Hbody. rewrite Hc in Hbody.
    rewrite verification_email_run in Hbody by done. simpl in Hbody.
    eapply (Avoids_elim _ _ _ _ _ _
              (onboard_and_commit_avoids_mail _ _ _ _ _) I)
      in Hbody as (_ & evs & Hevs & Hm).
    simpl in Hevs. rewrite <-!app_assoc in Hevs.
    eexists. rewrite Ht, Hevs, <-!app_assoc. split; [done|].
    simpl. rewrite !mails_app, Hmtl, app_nil_r.
    unfold mails at 1. simpl. f_equal. exact Hm.
  - unfold bind at 1 in Hbody. rewrite createFromAuth_run in Hbody.
    simpl in Hbody.
    destruct (oracle (env w) (UserRepository_createFromAuth _ _ _)) eqn:Ho3.
    { by destruct (Hfail _ (mk_is_Some _ _ Ho3)) as (? & ? & [=]). }
    unfold bind at 1 in Hbody. unfold bind at 1 in Hbody.
    rewrite isConfigured_run in Hbody. simpl in Hbody. rewrite Hc in Hbody.
    rewrite verification_email_run in Hbody by done. simpl in Hbody.
    eapply (Avoids_elim _ _ _ _ _ _
              (onboard_and_commit_avoids_mail _ _ _ _ _) I)
      in Hbody as (_ & evs & Hevs & Hm).
    simpl in Hevs. rewrite <-!app_assoc in Hevs.
    eexists. rewrite Ht, Hevs, <-!app_assoc. split; [done|].
    simpl. rewrite !mails_app, Hmtl, app_nil_r.
    unfold mails at 1. simpl. f_equal. exact Hm.
Qed.

(** ** Concrete runs of these properties *)

Lemma signup_email_already_in_use_witness :
  truthy (findPassword_answer (env world_auth) (user_id bob)) = true ∧
  (AuthService.signup "bob@example.org" "s3cret" None None opts0 world_auth).1
  = Throw (Error400 "en" "auth.emailAlreadyInUse" []).
Proof.
  split; [reflexivity|].
  pose proof (signup_email_already_in_use "bob@example.org" "s3cret" None None
                opts0 world_auth bob eq_refl eq_refl eq_refl eq_refl) as H.
  destruct (AuthService.signup _ _ _ _ _ _) as [r w'].
  exact (proj1 H).
Defined.

Lemma signup_rethrows_creation_failure_witness :
  findByEmail_answer (env world_creation_fails) "dave@example.org" = None ∧
  (AuthService.signup "dave@example.org" "s3cret" None None opts0
     world_creation_fails).1
  = Throw (UniqueConstraintError "email").
Proof.
  split; [reflexivity|].
  pose proof (signup_rethrows_creation_failure "dave@example.org" "s3cret"
                None None opts0 world_creation_fails
                (UniqueConstraintError "email") eq_refl eq_refl eq_refl) as H.
  destruct (AuthService.signup _ _ _ _ _ _) as [r w'].
  exact (proj1 H).
Defined.

Lemma verification_email_contract_witness :
  EmailSender_isConfigured (getConfig (env world_mail)) = true ∧
  ¬ link_fails (env world_mail) (Some "acme") "bob@example.org" ∧
  (AuthService.sendEmailAddressVerificationEmail "en" "bob@example.org"
     (Some "acme") opts0 world_mail).1 = Ok tt.
Proof.
  assert (¬ link_fails (env world_mail) (Some "acme") "bob@example.org")
    as Hlink.
  { intros [[e He]|[[e He]|[e He]]]; discriminate He. }
  split; [reflexivity|]. split; [exact Hlink|].
  pose proof (verification_email_contract "en" "bob@example.org" (Some "acme")
                opts0 world_mail) as H.
  cbv zeta in H.
  destruct (AuthService.sendEmailAddressVerificationEmail _ _ _ _ _)
    as [r w'].
  destruct H as (evs & _ & _ & _ & Hsent).
  exact (proj2 (Hsent eq_refl Hlink)).
Defined.

Lemma signup_sends_no_mail_unconfigured_witness :
  EmailSender_isConfigured (getConfig (env world0)) = false ∧
  ∃ evs,
    trace (AuthService.signup "dave@example.org" "s3cret" None None opts0
             world0).2 = trace world0 ++ evs ∧
    mails evs = [].
Proof.
  split; [reflexivity|].
  apply (signup_sends_no_mail_unconfigured "dave@example.org" "s3cret" None
           None opts0 world0).
  reflexivity.
Defined.

Lemma signup_fails_with_the_verification_email_witness :
  link_fails (env world_tenant_fails) None "dave@example.org" ∧
  (AuthService.signup "dave@example.org" "s3cret" None None opts0
     world_tenant_fails).1
  = Throw (Error400 "en" "auth.emailAddressVerificationEmail.error" []).
Proof.
  assert (link_fails (env world_tenant_fails) None "dave@example.org")
    as Hlink.
  { left. eexists. reflexivity. }
  split; [exact Hlink|].
  pose proof (signup_fails_with_the_verification_email "dave@example.org"
                "s3cret" None None opts0 world_tenant_fails
                eq_refl eq_refl eq_refl eq_refl Hlink) as H.
  destruct (AuthService.signup _ _ _ _ _ _) as [r w'].
  exact (proj1 H).
Defined.

Lemma handleOnboard_only_accepts_the_invitation_witness :
  TENANT_MODE (getConfig (env world_auth)) ≠ "single" ∧
  truthy None = false ∧
  (AuthService.handleOnboard bob (Some "inv-1") None opts0 world_auth).1
  = Ok tt ∧
  trace (AuthService.handleOnboard bob (Some "inv-1") None opts0 world_auth).2
  = [EvCall None (TenantUserRepository_acceptInvitation "inv-1" bob);
     EvConsoleError (DatabaseError "invitation not found")].
Proof.
  assert (TENANT_MODE (getConfig (env world_auth)) ≠ "single") as Hmode.
  { intros Hmode. discriminate Hmode. }
  split; [exact Hmode|]. split; [reflexivity|].
  pose proof (handleOnboard_only_accepts_the_invitation bob (Some "inv-1")
                None opts0 world_auth Hmode (or_intror eq_refl)) as H.
  destruct (AuthService.handleOnboard _ _ _ _ _) as [r w'].
  destruct H as (Hr & evs & Ht & Hevs).
  split; [exact Hr|]. simpl. rewrite Ht. exact Hevs.
Defined.

Lemma signin_fails_with_the_default_tenant_witness :
  failed_check (env world_default_tenant_fails) "bob@example.org" "hunter2"
  = None ∧
  TENANT_MODE (getConfig (env world_default_tenant_fails)) = "single" ∧
  (AuthService.signin "bob@example.org" "hunter2" None None opts0
     world_default_tenant_fails).1
  = Throw (DatabaseError "no default tenant").
Proof.
  assert (reads_succeed (env world_default_tenant_fails) "bob@example.org")
    as Hreads.
  { split; [reflexivity|]. intros u Hu. reflexivity. }
  split; [reflexivity|]. split; [reflexivity|].
  pose proof (signin_fails_with_the_default_tenant "bob@example.org"
                "hunter2" None None opts0 world_default_tenant_fails bob
                (DatabaseError "no default tenant")
                eq_refl Hreads eq_refl eq_refl eq_refl) as H.
  destruct (AuthService.signin _ _ _ _ _ _) as [r w'].
  exact (proj1 H).
Defined.

Lemma findByToken_rejects_before_the_lookup_witness :
  signed_with (token_for env0 bob)
  = AUTH_JWT_SECRET (getConfig (env (at_time 4600 world_auth))) ∧
  ∃ msg,
    AuthService.findByToken (token_for env0 bob) opts0
      (at_time 4600 world_auth)
    = (Throw (JsonWebTokenError msg), at_time 4600 world_auth).
Proof.
  split; [reflexivity|].
  apply (findByToken_rejects_before_the_lookup (token_for env0 bob) opts0
           (at_time 4600 world_auth)).
  right. vm_compute. apply le_n.
Defined.

Lemma issued_token_round_trip_witness :
  AuthService.signin "bob@example.org" "hunter2" None (Some "acme") opts0
    world_auth
  = (Ok (token_for env_auth bob),
     (AuthService.signin "bob@example.org" "hunter2" None (Some "acme") opts0
        world_auth).2) ∧
  AuthService.findByToken (token_for env_auth bob) opts0 world_auth
  = lookup_by_id 7 opts0 world_auth.
Proof.
  assert (AuthService.signin "bob@example.org" "hunter2" None (Some "acme")
            opts0 world_auth
          = (Ok (token_for env_auth bob),
             (AuthService.signin "bob@example.org" "hunter2" None
                (Some "acme") opts0 world_auth).2)) as Hin
    by (vm_compute; reflexivity).
  split; [exact Hin|].
  exact (issued_token_round_trip "bob@example.org" "hunter2" None
           (Some "acme") opts0 world_auth (token_for env_auth bob) _ opts0
           world_auth (or_introl Hin) eq_refl).
Defined.

Lemma signin_succeeds_witness :
  failed_check (env world_quiet) "bob@example.org" "hunter2" = None ∧
  no_failure (env world_quiet) ∧
  AUTH_JWT_SECRET (getConfig (env world_quiet)) ≠ "" ∧
  (AuthService.signin "bob@example.org" "hunter2" (Some "inv-1") (Some "acme")
     opts0 world_quiet).1
  = Ok (token_for env_auth bob).
Proof.
  assert (no_failure (env world_quiet)) as Hno.
  { intros c. reflexivity. }
  assert (AUTH_JWT_SECRET (getConfig (env world_quiet)) ≠ "") as Hsecret.
  { intros Hs. discriminate Hs. }
  split; [reflexivity|]. split; [exact Hno|]. split; [exact Hsecret|].
  pose proof (signin_succeeds "bob@example.org" "hunter2" (Some "inv-1")
                (Some "acme") opts0 world_quiet bob eq_refl eq_refl Hno
                Hsecret) as H.
  destruct (AuthService.signin _ _ _ _ _ _) as [r w'].
  exact (proj1 H).
Defined.

Lemma signup_succeeds_witness :
  no_failure (env world_quiet) ∧
  AUTH_JWT_SECRET (getConfig (env world_quiet)) ≠ "" ∧
  findByEmail_answer (env world_quiet) "dave@example.org" = None ∧
  (AuthService.signup "dave@example.org" "s3cret" None (Some "acme") opts0
     world_quiet).1
  = Ok (token_for env_auth (User 8 "dave@example.org" "dave" false)).
Proof.
  assert (no_failure (env world_quiet)) as Hno.
  { intros c. reflexivity. }
  assert (AUTH_JWT_SECRET (getConfig (env world_quiet)) ≠ "") as Hsecret.
  { intros Hs. discriminate Hs. }
  split; [exact Hno|]. split; [exact Hsecret|]. split; [reflexivity|].
  assert (∀ u, findByEmail_answer (env world_quiet) "dave@example.org"
               = Some u →
               truthy (findPassword_answer (env world_quiet) (user_id u))
               = false) as Hpw.
  { intros u Hu. discriminate Hu. }
  pose proof (signup_succeeds "dave@example.org" "s3cret" None (Some "acme")
                opts0 world_quiet Hno Hsecret Hpw) as H.
  destruct (AuthService.signup _ _ _ _ _ _) as [r w'].
  exact (proj1 H).
Defined.


Lemma changePassword_contract_witness :
  bcrypt_compare (env world_auth) "hunter2" "$2b$hunter2" = true ∧
  (changePassword "hunter2" "n3w" (with_currentUser opts0 bob) world_auth).1
  = Ok tt ∧
  bcrypt_compare (env world_auth) "guess" "$2b$hunter2" = false ∧
  (changePassword "guess" "n3w" (with_currentUser opts0 bob) world_auth).1
  = Throw (Error400 "en" "auth.passwordChange.invalidPassword" []).
Proof.
  split; [reflexivity|]. split; [|split; [reflexivity|]].
  - pose proof (changePassword_contract "hunter2" "n3w"
                  (with_currentUser opts0 bob) world_auth bob "$2b$hunter2"
                  eq_refl eq_refl eq_refl) as H.
    destruct (changePassword _ _ _ _) as [r w'].
    destruct H as (_ & evs & _ & H). exact (proj2 H).
  - pose proof (changePassword_contract "guess" "n3w"
                  (with_currentUser opts0 bob) world_auth bob "$2b$hunter2"
                  eq_refl eq_refl eq_refl) as H.
    destruct (changePassword _ _ _ _) as [r w'].
    destruct H as (_ & evs & _ & H). exact (proj2 H).
Defined.

Lemma verifyEmail_contract_witness :
  user_id eve ≠ user_id bob ∧
  verifyEmail (λ _ _, ret (Some bob)) (λ _ _, ret tt) "token"
    (with_currentUser opts0 eve) world0
  = (Throw (Error400 "en"
              "auth.emailAddressVerificationEmail.signedInAsWrongUser"
              ["bob@example.org"; "eve@example.org"]),
     world0).
Proof.
  assert (user_id eve ≠ user_id bob) as Hne.
  { intros Hne. discriminate Hne. }
  assert (user_id eve ≠ 0) as Hid.
  { intros Hid. discriminate Hid. }
  split; [exact Hne|].
  exact (proj1 (proj2 (verifyEmail_contract
                         (λ _ _, ret (Some bob)) (λ _ _, ret tt) "token"
                         (with_currentUser opts0 eve) world0))
           bob eve eq_refl eq_refl Hid Hne).
Defined.

Lemma password_reset_email_contract_witness :
  EmailSender_isConfigured (getConfig (env world0)) = false ∧
  sendPasswordResetEmail (λ _ _, ret "token") "en" "bob@example.org" None
    opts0 world0
  = (Throw (Error400 "en" "email.error" []), world0).
Proof.
  split; [reflexivity|].
  exact (proj1 (password_reset_email_contract (λ _ _, ret "token") "en"
                  "bob@example.org" None opts0 world0) eq_refl).
Defined.

Lemma import_counts_outside_the_unit_of_work_witness :
  truthy (Some "H1") = true ∧
  ∃ evs,
    trace (VisitorService.import opts0 alice_row (Some "H1") world0).2
    = EvCall None (VisitorRepository_count "H1") :: evs.
Proof.
  split; [reflexivity|].
  pose proof (import_counts_outside_the_unit_of_work opts0 alice_row "H1"
                world0 eq_refl) as H.
  destruct (VisitorService.import _ _ _ _) as [r w'].
  destruct H as (evs & Ht & _). exists evs. exact Ht.
Defined.

Lemma import_sets_the_hash_witness :
  (<["importHash" := "H0"]> alice_row : gmap string string) !! "importHash"
  = Some "H0" ∧
  ∃ record,
    (VisitorService.import opts0 (<["importHash" := "H0"]> alice_row)
       (Some "H1") world0).1 = Ok record ∧
    rec_attrs record !! "importHash" = Some "H1".
Proof.
  split; [reflexivity|].
  destruct (VisitorService.import opts0 (<["importHash" := "H0"]> alice_row)
              (Some "H1") world0) as [r w'] eqn:Hrun.
  assert (∃ record, r = Ok record) as [record ->].
  { apply (f_equal fst) in Hrun. vm_compute in Hrun. subst r. eexists.
    reflexivity. }
  exists record. split; [reflexivity|].
  exact (proj1 (import_sets_the_hash opts0 _ "H1" world0 record w' Hrun)).
Defined.

Lemma signup_sends_one_verification_email_witness :
  only_invitations_fail (env world_mail) ∧
  EmailSender_isConfigured (getConfig (env world_mail)) = true ∧
  ∃ evs,
    trace (AuthService.signup "dave@example.org" "s3cret" None (Some "acme")
             opts0 world_mail).2 = trace world_mail ++ evs ∧
    mails evs = [(EmailSender.EMAIL_ADDRESS_VERIFICATION,
                  "/auth/verify-email?token=", "dave@example.org")].
Proof.
  assert (only_invitations_fail (env world_mail)) as Hfail.
  { intros c [e He]. destruct c; try discriminate He; eauto. }
  split; [exact Hfail|]. split; [reflexivity|].
  assert (∀ u, findByEmail_answer (env world_mail) "dave@example.org"
               = Some u →
               truthy (findPassword_answer (env world_mail) (user_id u))
               = false) as Hpw.
  { intros u Hu. discriminate Hu. }
  pose proof (signup_sends_one_verification_email "dave@example.org" "s3cret"
                None (Some "acme") opts0 world_mail Hfail eq_refl Hpw) as H.
  destruct (AuthService.signup _ _ _ _ _ _) as [r w'].
  exact H.
Defined.
